(** * claude-usage-monitor: the local log aggregator, the session
      authenticator and the derived persisted state

    A shallow embedding of
    - [ClaudeDataLoader] (the revised loader, whose constructor takes the
      debug logger that [extension.js] passes, and the older copy kept at
      [src/claudeDataLoader.js]),
    - [ClaudeAuth.checkCookie], [ClaudeAuth.validateSession] and
      [ClaudeAuth.waitForLogin],
    - [SessionTracker] and [UsageHistory],
    - the login flow, the fetch of the usage data and the reset time of
      [ClaudeUsageScraper], the fetch cycle of [UsageDataProvider], the
      token monitor of [extension.js] and the reset clock of [utils.js],
    the properties of them that the specification states, and further
    properties that the code shows.

    Conventions of the embedding.
    - JavaScript strings are [string]s; only ASCII white space is known to
      [trim].
    - A parsed JSON document is a [JValue]; JSON numbers are integers
      (token counts, identifiers).  [JSON.parse] and [Date] belong to the
      platform: they are the fields of the classes [Json] and [Dates].
    - Token fields of a usage object are numbers, [null] or absent; for
      those [orZero] is JavaScript's [x || 0].
    - Paths are POSIX paths.  A path is the list of its components from the
      file-system root, so [path.join dir name] is [dir ++ [name]] and
      [path.basename] is the last component.
    - The file system is a tree that does not change during one call; the
      entries of a directory have distinct names; every file-system call is
      recorded in the trace of the [IO] computation.
    - Time is in milliseconds since the epoch, as [Date.now()] and
      [mtimeMs] give it.
    - Numbers that the code divides and rounds down are integers, and
      [diffMs / n] under [Math.floor] is the integer quotient.
    - A call to the browser, or to a module that is not embedded, is given
      by how it ends: it returns, or it throws an [Error] with a message.
      The calls made are recorded in the trace of the computation.
    - Writing the session file and the history file succeeds.
    - Logging ([console.log], the debug channel), the progress
      notifications and the rendering of the status bar are left out. *)

From Stdlib Require Import ZArith List String Ascii Bool Lia QArith.
From stdpp Require Import base option list gmap strings pretty.
Import ListNotations.

Set Warnings "-register-all,-clear-no-such-hyp".

Open Scope string_scope.
Open Scope list_scope.
Open Scope Z_scope.

(** ** Strings *)

Module Str.

(** White space removed by [String.prototype.trim] (ASCII part). *)
Definition isWhitespace (c : ascii) : bool :=
  match nat_of_ascii c with
  | 9%nat | 10%nat | 11%nat | 12%nat | 13%nat | 32%nat => true
  | _ => false
  end.

Fixpoint trimStart (s : string) : string :=
  match s with
  | EmptyString => EmptyString
  | String c rest => if isWhitespace c then trimStart rest else s
  end.

Fixpoint trimEnd (s : string) : string :=
  match s with
  | EmptyString => EmptyString
  | String c rest =>
      match trimEnd rest with
      | EmptyString => if isWhitespace c then EmptyString else String c EmptyString
      | rest' => String c rest'
      end
  end.

Definition trim (s : string) : string := trimEnd (trimStart s).

(** A string is truthy when it is not empty. *)
Definition nonEmpty (s : string) : bool :=
  match s with EmptyString => false | _ => true end.

(** [s.split(sep)] for a one-character separator. *)
Fixpoint split (sep : ascii) (s : string) : list string :=
  match s with
  | EmptyString => [EmptyString]
  | String c rest =>
      if Ascii.eqb c sep then EmptyString :: split sep rest
      else match split sep rest with
           | [] => [String c EmptyString]
           | hd :: tl => String c hd :: tl
           end
  end.

Definition newline : ascii := ascii_of_nat 10.

(** The double quote. *)
Definition dquote : ascii := ascii_of_nat 34.

Definition lines (s : string) : list string := split newline s.

(** [lines.join('\n')] *)
Fixpoint unlines (ls : list string) : string :=
  match ls with
  | [] => EmptyString
  | [l] => l
  | l :: rest => l +:+ String newline (unlines rest)
  end.

Definition startsWith (s pre : string) : bool := String.prefix pre s.

Fixpoint endsWith (s suf : string) : bool :=
  String.eqb s suf ||
  match s with
  | EmptyString => false
  | String _ rest => endsWith rest suf
  end.

Fixpoint includes (s sub : string) : bool :=
  String.prefix sub s ||
  match s with
  | EmptyString => false
  | String _ rest => includes rest sub
  end.

(** [s.replace(/\//g, '-')] *)
Fixpoint replaceSlashes (s : string) : string :=
  match s with
  | EmptyString => EmptyString
  | String c rest =>
      String (if Ascii.eqb c "/"%char then "-"%char else c) (replaceSlashes rest)
  end.

Fixpoint contains (c : ascii) (s : string) : bool :=
  match s with
  | EmptyString => false
  | String d rest => Ascii.eqb d c || contains c rest
  end.

(** [[0-9a-f]] under the [i] flag. *)
Definition isHex (c : ascii) : bool :=
  let n := nat_of_ascii c in
  ((48 <=? n) && (n <=? 57) || (97 <=? n) && (n <=? 102) || (65 <=? n) && (n <=? 70))%nat.

(** [n] hexadecimal digits, then the rest of the string. *)
Fixpoint hexRun (n : nat) (s : string) : option string :=
  match n with
  | O => Some s
  | S n' =>
      match s with
      | String c rest => if isHex c then hexRun n' rest else None
      | EmptyString => None
      end
  end.

Definition dash (s : string) : option string :=
  match s with
  | String c rest => if Ascii.eqb c "-"%char then Some rest else None
  | EmptyString => None
  end.

(** Comparison of ASCII texts that ignores the case of letters. *)
Definition lower (c : ascii) : ascii :=
  let n := nat_of_ascii c in
  if ((65 <=? n) && (n <=? 90))%nat then ascii_of_nat (n + 32) else c.

Fixpoint eqbIgnoreCase (s t : string) : bool :=
  match s, t with
  | EmptyString, EmptyString => true
  | String c s', String d t' => Ascii.eqb (lower c) (lower d) && eqbIgnoreCase s' t'
  | _, _ => false
  end.

(** Groups of hexadecimal digits of the given lengths with a dash
    between two groups, then the rest of the string. *)
Fixpoint hexGroups (groups : list nat) (s : string) : option string :=
  match groups with
  | [] => Some s
  | [n] => hexRun n s
  | n :: more =>
      match hexRun n s with
      | Some afterRun =>
          match dash afterRun with
          | Some afterDash => hexGroups more afterDash
          | None => None
          end
      | None => None
      end
  end.

(** [\d] *)
Definition isDigit (c : ascii) : bool :=
  let n := nat_of_ascii c in ((48 <=? n) && (n <=? 57))%nat.

(** The longest prefix of digits, and what follows it. *)
Fixpoint spanDigits (s : string) : string * string :=
  match s with
  | EmptyString => (EmptyString, EmptyString)
  | String c rest =>
      if isDigit c then
        let (run, after) := spanDigits rest in (String c run, after)
      else (EmptyString, s)
  end.

(** [s.match(/(\d+)L/)] for a letter [L]: the digits the leftmost match
    captures, [None] when nothing matches.  At each start the digits are
    taken greedily; giving some back cannot help, for the character that
    then follows is a digit and not [L]. *)
Fixpoint matchDigitsThen (letter : ascii) (s : string) : option string :=
  match s with
  | EmptyString => None
  | String _ rest =>
      match spanDigits s with
      | (String d run, String l _) =>
          if Ascii.eqb l letter then Some (String d run)
          else matchDigitsThen letter rest
      | _ => matchDigitsThen letter rest
      end
  end.

(** [parseInt] of a text that starts with a digit: the number its leading
    digits denote. *)
Fixpoint parseDigits (acc : Z) (s : string) : Z :=
  match s with
  | EmptyString => acc
  | String c rest =>
      if isDigit c then parseDigits (10 * acc + (Z.of_nat (nat_of_ascii c) - 48)) rest
      else acc
  end.

Definition parseInt (s : string) : Z := parseDigits 0 s.

End Str.

(** ** JSON values and the JavaScript operators applied to them *)

Inductive JValue : Type :=
| JNull
| JBool (b : bool)
| JNum (n : Z)
| JStr (s : string)
| JArr (items : list JValue)
| JObj (fields : list (string * JValue)).

(** [JSON.parse] belongs to the platform; [None] is a thrown
    [SyntaxError].  A text of white space only is not a JSON document. *)
Class Json := {
  JSON_parse : string -> option JValue;
  JSON_parse_blank : forall text, Str.trim text = "" -> JSON_parse text = None
}.

(** [new Date(v).getTime()] of a possibly undefined value; [None] is [NaN]. *)
Class Dates := {
  Date_getTime : option JValue -> option Z
}.

Module Js.

Fixpoint assoc {A} (k : string) (l : list (string * A)) : option A :=
  match l with
  | [] => None
  | (k', v) :: rest => if String.eqb k k' then Some v else assoc k rest
  end.

(** [v.k] for a value that is not [null]; [None] is [undefined].  An
    object lists its own properties, one binding per key. *)
Definition prop (v : JValue) (k : string) : option JValue :=
  match v with
  | JObj fields => assoc k fields
  | _ => None
  end.

Definition truthy (v : JValue) : bool :=
  match v with
  | JNull => false
  | JBool b => b
  | JNum n => negb (Z.eqb n 0)
  | JStr s => Str.nonEmpty s
  | JArr _ | JObj _ => true
  end.

(** Truthiness of a possibly undefined value. *)
Definition truthyU (v : option JValue) : bool :=
  match v with Some x => truthy x | None => false end.

(** [v?.k] *)
Definition optProp (v : option JValue) (k : string) : option JValue :=
  match v with
  | None | Some JNull => None
  | Some x => prop x k
  end.

(** [typeof v === 'number'] *)
Definition isNumber (v : option JValue) : bool :=
  match v with Some (JNum _) => true | _ => false end.

(** [v === s] for a string literal [s] *)
Definition isString (v : option JValue) (s : string) : bool :=
  match v with Some (JStr t) => String.eqb t s | _ => false end.

(** [v || 0] for a token field: a number, [null], or absent. *)
Definition orZero (v : option JValue) : Z :=
  match v with Some (JNum n) => n | _ => 0 end.

(** String conversion, as a template literal does it. *)
Fixpoint toStr (v : JValue) : string :=
  match v with
  | JNull => "null"
  | JBool true => "true"
  | JBool false => "false"
  | JNum n => pretty n
  | JStr s => s
  | JArr items =>
      (fix join (l : list JValue) : string :=
         match l with
         | [] => ""
         | [x] => match x with JNull => "" | _ => toStr x end
         | x :: rest => (match x with JNull => "" | _ => toStr x end) +:+ "," +:+ join rest
         end) items
  | JObj _ => "[object Object]"
  end.

(** [`${v || ''}`] *)
Definition orEmpty (v : option JValue) : string :=
  match v with
  | Some x => if truthy x then toStr x else ""
  | None => ""
  end.

End Js.

(** ** The file system and traced computations *)

Definition Path := list string.

Inductive Node : Type :=
| File (mtimeMs : Z) (content : option string)
    (** [content] is [None] when the file cannot be read *)
| Dir (mtimeMs : Z) (entries : list (string * Node))
| Other (mtimeMs : Z).

Inductive FsOp : Type :=
| OpStat (p : Path)
| OpReaddir (p : Path)
| OpReadFile (p : Path).

(** A computation with the trace of the calls it made to the outside. *)
Definition Traced (E A : Type) : Type := (A * list E)%type.

Definition ret {E A} (a : A) : Traced E A := (a, []).

Definition bind {E A B} (m : Traced E A) (k : A -> Traced E B) : Traced E B :=
  let (a, t1) := m in
  let (b, t2) := k a in
  (b, t1 ++ t2).

Notation "'do' x <- m ; k" := (bind m (fun x => k))
  (at level 10, x name, m at level 100, k at level 200).

Definition tell {E} (op : E) : Traced E unit := (tt, [op]).

Definition result {E A} (m : Traced E A) : A := fst m.
Definition trace {E A} (m : Traced E A) : list E := snd m.

(** File-system computations. *)
Definition IO : Type -> Type := Traced FsOp.

Module Fs.

Fixpoint lookup (fs : Node) (p : Path) : option Node :=
  match p with
  | [] => Some fs
  | name :: rest =>
      match fs with
      | Dir _ entries =>
          match Js.assoc name entries with
          | Some child => lookup child rest
          | None => None
          end
      | _ => None
      end
  end.

Definition isDirectory (n : Node) : bool :=
  match n with Dir _ _ => true | _ => false end.

Definition mtime (n : Node) : Z :=
  match n with File m _ | Dir m _ | Other m => m end.

(** [fs.stat]: the node at the path; [None] when the promise rejects. *)
Definition stat (fs : Node) (p : Path) : IO (option Node) :=
  (lookup fs p, [OpStat p]).

(** [fs.readFile(p, 'utf-8')] *)
Definition readFile (fs : Node) (p : Path) : IO (option string) :=
  (match lookup fs p with Some (File _ content) => content | _ => None end,
   [OpReadFile p]).

Definition basename (p : Path) : string := List.last p "".

End Fs.

(** An induction principle for the file-system tree that reaches the
    entries of a directory. *)
Section NodeInduction.
Variable P : Node -> Prop.
Hypothesis onFile : forall m content, P (File m content).
Hypothesis onOther : forall m, P (Other m).
Hypothesis onDir :
  forall m entries, Forall (fun entry => P entry.2) entries -> P (Dir m entries).

Fixpoint Node_induction (n : Node) : P n :=
  match n with
  | File m content => onFile m content
  | Other m => onOther m
  | Dir m entries =>
      onDir m entries
        ((fix each (es : list (string * Node)) : Forall (fun entry => P entry.2) es :=
            match es with
            | [] => List.Forall_nil _
            | (name, child) :: es' =>
                @List.Forall_cons _ (fun entry => P entry.2) (name, child) es'
                  (Node_induction child) (each es')
            end) entries)
  end.
End NodeInduction.

(** ** The log aggregator: [ClaudeDataLoader] *)

Record ClaudeDataLoader : Type := {
  claudeConfigPaths : list Path;
  workspacePath : option string;
  projectDirName : option string
}.

Record Usage : Type := {
  totalTokens : Z;
  inputTokens : Z;
  outputTokens : Z;
  cacheCreationTokens : Z;
  cacheReadTokens : Z;
  messageCount : nat
}.

(** The object [loadUsageRecords] returns. *)
Record UsageData : Type := {
  usage : Usage;
  records : list JValue
}.

(** The object [getCurrentSessionUsage] returns. *)
Record SessionUsage : Type := {
  session : Usage;
  isActive : bool
}.

Record RecentFile : Type := {
  path : Path;
  modified : Z
}.

Definition zeroUsage : Usage :=
  {| totalTokens := 0; inputTokens := 0; outputTokens := 0;
     cacheCreationTokens := 0; cacheReadTokens := 0; messageCount := 0 |}.

Definition inactive : SessionUsage := {| session := zeroUsage; isActive := false |}.

(** [TIMEOUTS.SESSION_DURATION] of [utils.js] *)
Definition SESSION_DURATION : Z := 3600000.

Definition convertPathToClaudeDir (workspacePath : string) : string :=
  Str.replaceSlashes workspacePath.

(** A string or [null] used as a condition. *)
Definition isSet (s : option string) : bool :=
  match s with Some x => Str.nonEmpty x | None => false end.

(** The constructor, given the candidate roots [getClaudeConfigPaths] built. *)
Definition newClaudeDataLoader (configPaths : list Path) (workspace : option string)
  : ClaudeDataLoader :=
  {| claudeConfigPaths := configPaths;
     workspacePath := workspace;
     projectDirName :=
       match workspace with
       | Some w => if Str.nonEmpty w then Some (convertPathToClaudeDir w) else None
       | None => None
       end |}.

(** The loop of [findClaudeDataDirectory]: the first candidate that is a
    directory; a [stat] that rejects passes to the next one. *)
Fixpoint firstDirectory (fs : Node) (candidates : list Path) : IO (option Path) :=
  match candidates with
  | [] => ret None
  | dirPath :: rest =>
      do st <- Fs.stat fs dirPath ;
      match st with
      | Some n => if Fs.isDirectory n then ret (Some dirPath) else firstDirectory fs rest
      | None => firstDirectory fs rest
      end
  end.

Definition findClaudeDataDirectory (this : ClaudeDataLoader) (fs : Node) : IO (option Path) :=
  firstDirectory fs (claudeConfigPaths this).

Definition getProjectDataDirectory (this : ClaudeDataLoader) (fs : Node) : IO (option Path) :=
  match projectDirName this with
  | Some name =>
      if Str.nonEmpty name then
        do base <- findClaudeDataDirectory this fs ;
        match base with
        | None => ret None
        | Some baseDir =>
            let projectDir := baseDir ++ [name] in
            do st <- Fs.stat fs projectDir ;
            match st with
            | Some n => if Fs.isDirectory n then ret (Some projectDir) else ret None
            | None => ret None
            end
        end
      else ret None
  | None => ret None
  end.

(** [findJsonlFiles] on the node found at [dirPath]: [readdir], then the
    loop over the entries, which descends into directories and keeps the
    files named [*.jsonl].  A [readdir] that rejects (the node is no
    directory) is caught and leaves the list empty. *)
Fixpoint walkJsonl (dirPath : Path) (n : Node) : IO (list Path) :=
  do _ <- tell (OpReaddir dirPath) ;
  match n with
  | Dir _ entries =>
      (fix each (es : list (string * Node)) : IO (list Path) :=
         match es with
         | [] => ret []
         | (name, child) :: es' =>
             let fullPath := dirPath ++ [name] in
             match child with
             | Dir _ _ =>
                 do subFiles <- walkJsonl fullPath child ;
                 do others <- each es' ;
                 ret (subFiles ++ others)
             | File _ _ =>
                 if Str.endsWith name ".jsonl"
                 then do others <- each es' ; ret (fullPath :: others)
                 else each es'
             | Other _ => each es'
             end
         end) entries
  | _ => ret []
  end.

Definition findJsonlFiles (fs : Node) (dirPath : Path) : IO (list Path) :=
  match Fs.lookup fs dirPath with
  | Some n => walkJsonl dirPath n
  | None => do _ <- tell (OpReaddir dirPath) ; ret []
  end.

Definition isValidUsageRecord (record : JValue) : bool :=
  Js.truthy record &&
  match Js.prop record "message" with
  | Some message =>
      Js.truthy message &&
      match Js.prop message "usage" with
      | Some usage =>
          Js.truthy usage &&
          Js.isNumber (Js.prop usage "input_tokens") &&
          Js.isNumber (Js.prop usage "output_tokens") &&
          negb (Js.isString (Js.prop message "model") "<synthetic>") &&
          negb (Js.truthyU (Js.prop record "isApiErrorMessage"))
      | None => false
      end
  | None => false
  end.

(** The identifiers behind the deduplication key, after [|| '']. *)
Definition messageIdOf (record : JValue) : string :=
  Js.orEmpty (Js.optProp (Js.prop record "message") "id").

Definition requestIdOf (record : JValue) : string :=
  Js.orEmpty (Js.prop record "requestId").

Definition recordKey (record : JValue) : string * string :=
  (messageIdOf record, requestIdOf record).

Definition getRecordHash (record : JValue) : string :=
  messageIdOf record +:+ "-" +:+ requestIdOf record.

(** [record.message.usage.k || 0] of a valid record *)
Definition usageField (record : JValue) (k : string) : Z :=
  Js.orZero (Js.optProp (Js.optProp (Js.prop record "message") "usage") k).

(** [calculateTotalTokens] of a usage object *)
Definition calculateTotalTokens (usage : JValue) : Z :=
  Js.orZero (Js.prop usage "input_tokens") +
  Js.orZero (Js.prop usage "output_tokens") +
  Js.orZero (Js.prop usage "cache_creation_input_tokens") +
  Js.orZero (Js.prop usage "cache_read_input_tokens").

(** The deduplication loop of [loadUsageRecords]: one iteration. *)
Definition dedupStep (st : list JValue * gset string) (record : JValue)
  : list JValue * gset string :=
  let hash := getRecordHash record in
  if decide (hash ∈ st.2) then st
  else (st.1 ++ [record], {[hash]} ∪ st.2).

Definition uniqueRecordsOf (filteredRecords : list JValue) : list JValue :=
  (fold_left dedupStep filteredRecords ([], ∅)).1.

(** The summation loop of [loadUsageRecords]: one iteration on the four
    running totals (input, output, cache creation, cache read). *)
Definition sumStep (totals : Z * Z * Z * Z) (record : JValue) : Z * Z * Z * Z :=
  let '(totalInput, totalOutput, totalCacheCreation, totalCacheRead) := totals in
  (totalInput + usageField record "input_tokens",
   totalOutput + usageField record "output_tokens",
   totalCacheCreation + usageField record "cache_creation_input_tokens",
   totalCacheRead + usageField record "cache_read_input_tokens").

(** [loadUsageRecords] from the deduplication on. *)
Definition aggregate (filteredRecords : list JValue) : UsageData :=
  let uniqueRecords := uniqueRecordsOf filteredRecords in
  let '(totalInput, totalOutput, totalCacheCreation, totalCacheRead) :=
    fold_left sumStep uniqueRecords (0, 0, 0, 0) in
  {| usage :=
       {| totalTokens := totalInput + totalOutput + totalCacheCreation + totalCacheRead;
          inputTokens := totalInput;
          outputTokens := totalOutput;
          cacheCreationTokens := totalCacheCreation;
          cacheReadTokens := totalCacheRead;
          messageCount := length uniqueRecords |};
     records := uniqueRecords |}.

(** [/^[0-9a-f]{8}-[0-9a-f]{4}-[0-9a-f]{4}-[0-9a-f]{4}-[0-9a-f]{12}\.jsonl$/i];
    the [i] flag lets the letters be of either case. *)
Definition uuidPattern (filename : string) : bool :=
  match Str.hexGroups [8; 4; 4; 4; 12]%nat filename with
  | Some rest => Str.eqbIgnoreCase rest ".jsonl"
  | None => false
  end.

(** The filter that keeps the main session files. *)
Definition isMainSessionFile (filePath : Path) : bool :=
  let filename := Fs.basename filePath in
  if Str.startsWith filename "agent-" then false
  else uuidPattern filename.

(** The loop that keeps the files modified since [sessionStart]. *)
Fixpoint recentFilesOf (fs : Node) (sessionStart : Z) (files : list Path)
  : IO (list RecentFile) :=
  match files with
  | [] => ret []
  | filePath :: rest =>
      do stats <- Fs.stat fs filePath ;
      do others <- recentFilesOf fs sessionStart rest ;
      match stats with
      | Some n =>
          if sessionStart <=? Fs.mtime n
          then ret ({| path := filePath; modified := Fs.mtime n |} :: others)
          else ret others
      | None => ret others
      end
  end.

(** [recentFiles.sort((a, b) => b.modified - a.modified)]: the sort is
    stable, so files modified at the same time keep their order. *)
Fixpoint insertByModified (a : RecentFile) (sorted : list RecentFile) : list RecentFile :=
  match sorted with
  | [] => [a]
  | b :: rest =>
      if modified b <=? modified a then a :: sorted
      else b :: insertByModified a rest
  end.

Definition sortByModified (recentFiles : list RecentFile) : list RecentFile :=
  fold_right insertByModified [] recentFiles.

Section Loader.
Context `{Json} `{Dates}.

(** The loop of [parseJsonlFile]: one iteration, with its [try]. *)
Definition parseStep (records : list JValue) (line : string) : list JValue :=
  match JSON_parse line with
  | Some record =>
      if isValidUsageRecord record then records ++ [record] else records
  | None => records
  end.

Definition parseJsonlFile (fs : Node) (filePath : Path) : IO (list JValue) :=
  do content <- Fs.readFile fs filePath ;
  match content with
  | Some content =>
      let lines :=
        List.filter (fun line => Str.nonEmpty (Str.trim line)) (Str.lines content) in
      ret (fold_left parseStep lines [])
  | None => ret []
  end.

Fixpoint parseAll (fs : Node) (jsonlFiles : list Path) : IO (list JValue) :=
  match jsonlFiles with
  | [] => ret []
  | filePath :: rest =>
      do records <- parseJsonlFile fs filePath ;
      do others <- parseAll fs rest ;
      ret (records ++ others)
  end.

(** [recordTime >= sinceTimestamp]; a comparison with [NaN] is false. *)
Definition since (sinceTimestamp : Z) (record : JValue) : bool :=
  match Date_getTime (Js.prop record "timestamp") with
  | Some recordTime => sinceTimestamp <=? recordTime
  | None => false
  end.

Definition loadUsageRecords (this : ClaudeDataLoader) (fs : Node)
    (sinceTimestamp : option Z) : IO UsageData :=
  do dataDir <- findClaudeDataDirectory this fs ;
  match dataDir with
  | None => ret {| usage := zeroUsage; records := [] |}
  | Some dataDir =>
      do jsonlFiles <- findJsonlFiles fs dataDir ;
      do allRecords <- parseAll fs jsonlFiles ;
      let filteredRecords :=
        match sinceTimestamp with
        | Some t => if Z.eqb t 0 then allRecords else List.filter (since t) allRecords
        | None => allRecords
        end in
      ret (aggregate filteredRecords)
  end.

(** The body of the backwards scan: the two cache fields of a line that
    is an assistant message with a positive cache size, [None] for a
    line the loop passes over (also one whose parsing throws, or whose
    [entry.type] throws because the entry is [null]). *)
Definition cacheOfLine (line : string) : option (Z * Z) :=
  match JSON_parse line with
  | None | Some JNull => None
  | Some entry =>
      let usage := Js.optProp (Js.prop entry "message") "usage" in
      if Js.isString (Js.prop entry "type") "assistant" && Js.truthyU usage then
        let cacheCreation := Js.orZero (Js.optProp usage "cache_creation_input_tokens") in
        let cacheRead := Js.orZero (Js.optProp usage "cache_read_input_tokens") in
        let entryCache := cacheCreation + cacheRead in
        if 0 <? entryCache then Some (cacheCreation, cacheRead) else None
      else None
  end.

(** The scan from the last line to the first, on the lines in reverse
    order; it stops at the first line that qualifies. *)
Fixpoint scanBackwards (lineCount : nat) (fromEnd : list string) : Usage :=
  match fromEnd with
  | [] => zeroUsage
  | line :: earlier =>
      match cacheOfLine line with
      | Some (cacheCreation, cacheRead) =>
          {| totalTokens := cacheRead;
             inputTokens := 0;
             outputTokens := 0;
             cacheCreationTokens := cacheCreation;
             cacheReadTokens := cacheRead;
             messageCount := lineCount |}
      | None => scanBackwards lineCount earlier
      end
  end.

(** [getCurrentSessionUsage] from the file content on. *)
Definition sessionOfContent (content : string) : SessionUsage :=
  let lines := Str.lines (Str.trim content) in
  let found := scanBackwards (length lines) (rev lines) in
  {| session := found; isActive := 0 <? totalTokens found |}.

(** [getCurrentSessionUsage] from the list of candidate files on: the
    recent ones, the most recently modified of them, its content. *)
Definition sessionOfFiles (fs : Node) (sessionStart : Z) (candidates : list Path)
  : IO SessionUsage :=
  do recentFiles <- recentFilesOf fs sessionStart candidates ;
  match sortByModified recentFiles with
  | [] => ret inactive
  | mostRecent :: _ =>
      do content <- Fs.readFile fs (path mostRecent) ;
      match content with
      | Some content => ret (sessionOfContent content)
      | None => ret inactive
      end
  end.

(** The [try] block of [getCurrentSessionUsage] in the revised loader;
    a rejected [readFile] is caught and gives the inactive result. *)
Definition sessionOfDirectory (fs : Node) (sessionStart : Z) (dataDir : Path)
  : IO SessionUsage :=
  do allJsonlFiles <- findJsonlFiles fs dataDir ;
  let mainSessionFiles := List.filter isMainSessionFile allJsonlFiles in
  sessionOfFiles fs sessionStart mainSessionFiles.

(** The revised loader. *)
Definition getCurrentSessionUsage (this : ClaudeDataLoader) (fs : Node) (now : Z)
  : IO SessionUsage :=
  let sessionStart := now - SESSION_DURATION in
  if isSet (projectDirName this) then
    do dataDir <- getProjectDataDirectory this fs ;
    match dataDir with
    | None => ret inactive
    | Some dataDir => sessionOfDirectory fs sessionStart dataDir
    end
  else
    do dataDir <- findClaudeDataDirectory this fs ;
    match dataDir with
    | None => ret inactive
    | Some dataDir => sessionOfDirectory fs sessionStart dataDir
    end.

End Loader.

(** The copy of the loader at [src/claudeDataLoader.js]. *)
Module Legacy.
Section Loader.
Context `{Json}.

Definition getCurrentSessionUsage (this : ClaudeDataLoader) (fs : Node) (now : Z)
  : IO SessionUsage :=
  let sessionStart := now - SESSION_DURATION in
  do projectDir <- getProjectDataDirectory this fs ;
  do dataDir <-
    match projectDir with
    | Some d => ret (Some d)
    | None => findClaudeDataDirectory this fs
    end ;
  match dataDir with
  | None => ret inactive
  | Some dataDir =>
      do allJsonlFiles <- findJsonlFiles fs dataDir ;
      sessionOfFiles fs sessionStart allJsonlFiles
  end.

End Loader.
End Legacy.

(** ** The session authenticator: [ClaudeAuth] *)

Module Auth.

(** [CLAUDE_URLS] of [utils.js] *)
Definition BASE : string := "https://claude.ai".
Definition API_ORGS : string := "https://claude.ai/api/organizations".

(** A cookie of the browser; [expires] is in seconds since the epoch. *)
Record Cookie : Type := {
  name : string;
  value : string;
  expires : Q
}.

(** How the script handed to [page.evaluate] ends. *)
Inductive FetchOutcome : Type :=
| EvaluateThrows            (** [page.evaluate] itself rejects *)
| FetchThrows               (** [fetch] throws inside the page *)
| Responded (ok : bool).    (** [fetch] resolves; [ok] is [response.ok] *)

(** The attached page, as far as the authenticator uses it. *)
Record Page : Type := {
  url : option string;          (** [None]: [page.url()] throws *)
  gotoSucceeds : bool;          (** [false]: the navigation throws or times out *)
  cookies : option (list Cookie); (** [None]: [page.cookies] rejects *)
  fetchOutcome : FetchOutcome
}.

Inductive PageOp : Type :=
| OpGoto (target : string)
| OpCookies (target : string)
| OpEvaluateFetch (target : string) (credentials : string)
    (** [page.evaluate] of the script that calls [fetch] *).

Record ClaudeAuth : Type := {
  page : option Page
}.

Record CookieCheck : Type := {
  exists_ : bool;
  expired : bool;
  cookie : option Cookie
}.

Record Validation : Type := {
  valid : bool;
  reason : string
}.

Definition failClosed : CookieCheck :=
  {| exists_ := false; expired := true; cookie := None |}.

(** [Date.now() / 1000], the current time in seconds *)
Definition nowSeconds (nowMs : Z) : Q := (inject_Z nowMs / inject_Z 1000)%Q.

Definition isSessionKey (c : Cookie) : bool := String.eqb (name c) "sessionKey".

Definition checkCookie (this : ClaudeAuth) (nowMs : Z) : Traced PageOp CookieCheck :=
  match page this with
  | None => ret failClosed
  | Some page =>
      do arrived <-
        match url page with
        | None => ret false
        | Some currentUrl =>
            if Str.includes currentUrl "claude.ai" then ret true
            else do _ <- tell (OpGoto BASE) ; ret (gotoSucceeds page)
        end ;
      if arrived then
        do _ <- tell (OpCookies BASE) ;
        match cookies page with
        | None => ret failClosed
        | Some jar =>
            match List.find isSessionKey jar with
            | None => ret {| exists_ := false; expired := true; cookie := None |}
            | Some sessionCookie =>
                let isExpired := Qle_bool (expires sessionCookie) (nowSeconds nowMs) in
                ret {| exists_ := true; expired := isExpired; cookie := Some sessionCookie |}
            end
        end
      else ret failClosed
  end.

Definition validateSession (this : ClaudeAuth) (nowMs : Z) : Traced PageOp Validation :=
  match page this with
  | None => ret {| valid := false; reason := "no_page" |}
  | Some page =>
      do cookieCheck <- checkCookie this nowMs ;
      if negb (exists_ cookieCheck) then ret {| valid := false; reason := "no_cookie" |}
      else if expired cookieCheck then ret {| valid := false; reason := "cookie_expired" |}
      else
        do _ <- tell (OpEvaluateFetch API_ORGS "include") ;
        match fetchOutcome page with
        | EvaluateThrows => ret {| valid := false; reason := "validation_error" |}
        | FetchThrows =>
            let isValid := false in
            ret {| valid := isValid; reason := if isValid then "valid" else "server_rejected" |}
        | Responded ok =>
            let isValid := ok in
            ret {| valid := isValid; reason := if isValid then "valid" else "server_rejected" |}
        end
  end.


Definition isFetch (op : PageOp) : bool :=
  match op with OpEvaluateFetch _ _ => true | _ => false end.

(** One turn of the loop of [waitForLogin], as the browser and the clock
    present it: [elapsed] is [Date.now() - startTime] when the condition of
    the loop is tested, and [jar] is what [page.cookies] gives after the
    sleep of that turn, [None] when it throws (no page is attached as
    well). *)
Record Turn : Type := {
  elapsed : Z;
  jar : option (list Cookie)
}.

(** [waitForLogin] on the turns the browser and the clock present.  The
    result is [None] when the turns given end before the loop does. *)
Fixpoint waitForLogin (maxWaitMs : Z) (turns : list Turn) : Traced PageOp (option bool) :=
  match turns with
  | [] => ret None
  | turn :: later =>
      if elapsed turn <? maxWaitMs then
        do _ <- tell (OpCookies BASE) ;
        match jar turn with
        | Some cookies =>
            let hasSessionKey := existsb isSessionKey cookies in
            if hasSessionKey then ret (Some true) else waitForLogin maxWaitMs later
        | None => waitForLogin maxWaitMs later
        end
      else ret (Some false)
  end.

End Auth.

(** ** The scraper: [ClaudeUsageScraper] *)

Module Scraper.

(** How a call ends: it returns, or it throws an [Error] with a message. *)
Inductive Outcome : Type :=
| Returns
| Throws (message : string).

(** What the calls of [ensureLoggedIn] do when they are made. *)
Record Browser : Type := {
  validation : Auth.Validation;    (** the answer of [auth.validateSession] *)
  gotoUsage : Outcome;             (** [page.goto(CLAUDE_URLS.USAGE)] *)
  loggedIn : bool;                 (** the answer of [auth.waitForLogin] *)
  closes : Outcome;                (** [this.close()] *)
  initializes : Outcome;           (** [this.initialize(false)] *)
  gotoUsageAfterLogin : Outcome    (** [page.goto] in the browser launched again *)
}.

Inductive ScraperOp : Type :=
| OpValidateSession
| OpGotoUsage
| OpForceOpenBrowser
| OpWaitForLogin
| OpClose
| OpInitialize.

Definition LOGIN_TIMEOUT : string :=
  "Login timeout. Please try again and complete the login process.".

Definition FAILED_TO_LOAD : string :=
  "Failed to load Claude.ai. Please check your internet connection.".

(** A call that may throw, and what follows it when it returns. *)
Definition andThen (op : ScraperOp) (outcome : Outcome)
    (next : Traced ScraperOp Outcome) : Traced ScraperOp Outcome :=
  do _ <- tell op ;
  match outcome with
  | Returns => next
  | Throws message => ret (Throws message)
  end.

(** The [try] block of [ensureLoggedIn].  [forceOpenBrowser] catches its
    own errors, and its answer is not looked at. *)
Definition tryLogin (browser : Browser) : Traced ScraperOp Outcome :=
  do _ <- tell OpValidateSession ;
  if Auth.valid (validation browser) then
    andThen OpGotoUsage (gotoUsage browser) (ret Returns)
  else
    do _ <- tell OpForceOpenBrowser ;
    do _ <- tell OpWaitForLogin ;
    if loggedIn browser then
      andThen OpClose (closes browser)
        (andThen OpInitialize (initializes browser)
           (andThen OpGotoUsage (gotoUsageAfterLogin browser) (ret Returns)))
    else ret (Throws LOGIN_TIMEOUT).

(** [ensureLoggedIn]: the [try] block and its [catch]. *)
Definition ensureLoggedIn (browser : Browser) : Traced ScraperOp Outcome :=
  do attempt <- tryLogin browser ;
  match attempt with
  | Returns => ret Returns
  | Throws message =>
      if Str.includes message "timeout" then ret (Throws FAILED_TO_LOAD)
      else ret (Throws message)
  end.

(** [calculateResetTime]; [nowMs] is what [new Date()] reads.  An absent
    or empty timestamp gives [Unknown]; one that is no date makes every
    comparison false, and the text is [NaNm]. *)
Definition calculateResetTime `{Dates} (isoTimestamp : option string) (nowMs : Z)
  : string :=
  if isSet isoTimestamp then
    match Date_getTime (JStr <$> isoTimestamp) with
    | None => "NaNm"
    | Some resetDate =>
        let diffMs := resetDate - nowMs in
        if diffMs <=? 0 then "Soon"
        else
          let hours := diffMs / (1000 * 60 * 60) in
          let minutes := (diffMs mod (1000 * 60 * 60)) / (1000 * 60) in
          if 24 <? hours then
            let days := hours / 24 in
            let remainingHours := hours mod 24 in
            pretty days +:+ "d " +:+ pretty remainingHours +:+ "h"
          else if 0 <? hours then
            pretty hours +:+ "h " +:+ pretty minutes +:+ "m"
          else pretty minutes +:+ "m"
    end
  else "Unknown".

(** What a [fetch] made inside the page comes to: the JSON of a response
    that is ok, a response that is not ok, or an error. *)
Inductive Reply : Type :=
| Json (body : JValue)
| NotOk
| Fails (message : string).

(** The usage page and the endpoints captured, as [fetchUsageData] meets
    them.  [processApiResponse] belongs to the schema module; [None] is
    the error it throws. *)
Record UsagePage : Type := {
  gotoUsagePage : Outcome;          (** [page.goto(CLAUDE_URLS.USAGE)] *)
  apiCaptured : bool;               (** [this.apiEndpoint && this.apiHeaders] *)
  readsCookies : Outcome;           (** [page.cookies()] *)
  usageReply : Reply;
  creditsCaptured : bool;           (** [this.creditsEndpoint] *)
  creditsReply : Reply;
  overageCaptured : bool;           (** [this.overageEndpoint] *)
  overageReply : Reply;
  processApiResponse : JValue -> option JValue -> option JValue -> option JValue;
  scraped : (option Z * option string) + string
    (** the percentage and the reset time matched in the text of the page,
        or the message of the error of [page.evaluate] *)
}.

Inductive FetchOp : Type :=
| OpGotoUsagePage
| OpReadCookies
| OpFetchUsage
| OpFetchCredits
| OpFetchOverage
| OpScrapeHtml.

(** The usage data returned: processed from the API, or scraped. *)
Inductive WebData : Type :=
| FromApi (data : JValue)
| FromHtml (usagePercent : Z) (resetTime : string).

Inductive Fetched : Type :=
| Gives (data : WebData)
| Raises (message : string).

Definition COULD_NOT_FIND : string :=
  "Could not find usage percentage. Page layout may have changed.".

Definition TOO_LONG : string := "Usage page took too long to load. Please try again.".

(** [resp.ok ? await resp.json() : null], in a [try] that leaves [null]. *)
Definition orNull (captured : bool) (op : FetchOp) (reply : Reply)
  : Traced FetchOp (option JValue) :=
  if captured then
    do _ <- tell op ;
    match reply with
    | Json body => ret (Some body)
    | NotOk | Fails _ => ret None
    end
  else ret None.

(** The inner [try]: the direct call of the API.  [None] is an error,
    which the inner [catch] logs. *)
Definition viaApi (page : UsagePage) : Traced FetchOp (option JValue) :=
  do _ <- tell OpReadCookies ;
  match readsCookies page with
  | Throws _ => ret None
  | Returns =>
      do _ <- tell OpFetchUsage ;
      match usageReply page with
      | NotOk | Fails _ => ret None
      | Json response =>
          do creditsData <- orNull (creditsCaptured page) OpFetchCredits (creditsReply page) ;
          do overageData <- orNull (overageCaptured page) OpFetchOverage (overageReply page) ;
          ret (processApiResponse page response creditsData overageData)
      end
  end.

(** The fallback: the text of the page. *)
Definition viaHtml (page : UsagePage) : Traced FetchOp Fetched :=
  do _ <- tell OpScrapeHtml ;
  match scraped page with
  | inr message => ret (Raises message)
  | inl (None, _) => ret (Raises COULD_NOT_FIND)
  | inl (Some usagePercent, resetTime) =>
      ret (Gives (FromHtml usagePercent
                    match resetTime with
                    | Some text => if Str.nonEmpty text then text else "Unknown"
                    | None => "Unknown"
                    end))
  end.

(** The outer [try] of [fetchUsageData]. *)
Definition tryFetchUsageData (page : UsagePage) : Traced FetchOp Fetched :=
  do _ <- tell OpGotoUsagePage ;
  match gotoUsagePage page with
  | Throws message => ret (Raises message)
  | Returns =>
      if apiCaptured page then
        do direct <- viaApi page ;
        match direct with
        | Some data => ret (Gives (FromApi data))
        | None => viaHtml page
        end
      else viaHtml page
  end.

(** [fetchUsageData]: the [try] and its [catch]. *)
Definition fetchUsageData (page : UsagePage) : Traced FetchOp Fetched :=
  do attempt <- tryFetchUsageData page ;
  match attempt with
  | Gives data => ret (Gives data)
  | Raises message =>
      if Str.includes message "timeout" then ret (Raises TOO_LONG)
      else ret (Raises message)
  end.

End Scraper.

(** ** The helpers of [utils.js] *)

(** The local time zone belongs to the platform: the fields of a [Date]
    at an instant, as [getHours], [getMinutes], [getDay] and [getDate] give
    them. *)
Class LocalTime := {
  getHours : Z -> Z;
  getMinutes : Z -> Z;
  getDay : Z -> nat;
  getDate : Z -> Z
}.

Module Utils.

(** [String(n).padStart(2, '0')] *)
Definition padStart2 (digits : string) : string :=
  match String.length digits with
  | 0%nat => "00" +:+ digits
  | 1%nat => "0" +:+ digits
  | _ => digits
  end.

Definition dayNames : list string := ["Sun"; "Mon"; "Tue"; "Wed"; "Thu"; "Fri"; "Sat"].

(** The minutes [calculateResetClockTime] reads from a relative time. *)
Definition totalMinutes (resetTime : string) : Z :=
  let days := Str.matchDigitsThen "d" resetTime in
  let hours := Str.matchDigitsThen "h" resetTime in
  let minutes := Str.matchDigitsThen "m" resetTime in
  let totalMinutes := 0 in
  let totalMinutes :=
    match days with Some d => totalMinutes + Str.parseInt d * 24 * 60 | None => totalMinutes end in
  let totalMinutes :=
    match hours with Some h => totalMinutes + Str.parseInt h * 60 | None => totalMinutes end in
  match minutes with Some m => totalMinutes + Str.parseInt m | None => totalMinutes end.

(** The instant whose clock time is shown. *)
Definition resetDate (resetTime : string) (nowMs : Z) : Z :=
  nowMs + totalMinutes resetTime * 60 * 1000.

(** [calculateResetClockTime]; a [resetTime] that is [null] makes
    [match] throw, and the answer is [??:??]. *)
Definition calculateResetClockTime `{LocalTime} (resetTime : option string) (nowMs : Z)
  : string :=
  match resetTime with
  | None => "??:??"
  | Some resetTime =>
      let resetDate := resetDate resetTime nowMs in
      let hour := padStart2 (pretty (getHours resetDate)) in
      let minute := padStart2 (pretty (getMinutes resetDate)) in
      let timeStr := hour +:+ ":" +:+ minute in
      if 24 * 60 <=? totalMinutes resetTime then
        let dayName := nth (getDay resetDate) dayNames "undefined" in
        let date := getDate resetDate in
        dayName +:+ " " +:+ pretty date +:+ " " +:+ timeStr
      else timeStr
  end.

End Utils.

(** ** The session file: [SessionTracker] *)

Module Tracker.

Record TokenUsage : Type := {
  current : Z;
  limit : Z;
  remaining : Z;
  lastUpdate : string
}.

Record Session : Type := {
  sessionId : string;
  startTime : string;
  description : string;
  tokenUsage : TokenUsage
}.

Record Totals : Type := {
  totalSessions : nat;
  totalTokensUsed : Z;
  lastSessionDate : option string
}.

(** The JSON document kept in the session file. *)
Record Document : Type := {
  sessions : list Session;
  totals : Totals
}.

(** A session object of the running process is a cell of the heap; two
    references to one object are the same index. *)
Abbreviation Ref := nat.

(** The document in memory, as [loadData] returns it: the array holds
    references to session objects. *)
Record Data : Type := {
  sessionRefs : list Ref;
  dataTotals : Totals
}.

(** The tracker, the objects of its process, and the file.  [file] is
    [None] when the file is missing or is not JSON. *)
Record State : Type := {
  heap : list Session;
  currentSession : option Ref;
  file : option Document;
  tokenLimitSetting : Z   (** what [getTokenLimit()] returns *)
}.

Definition emptyTotals : Totals :=
  {| totalSessions := 0; totalTokensUsed := 0; lastSessionDate := None |}.

(** [JSON.parse] of the file builds fresh objects. *)
Definition loadData (st : State) : Data * State :=
  match file st with
  | Some doc =>
      ({| sessionRefs := seq (length (heap st)) (length (sessions doc));
          dataTotals := totals doc |},
       {| heap := heap st ++ sessions doc;
          currentSession := currentSession st;
          file := file st;
          tokenLimitSetting := tokenLimitSetting st |})
  | None => ({| sessionRefs := []; dataTotals := emptyTotals |}, st)
  end.

(** [JSON.stringify] reads every object the array refers to. *)
Definition saveData (data : Data) (st : State) : State :=
  {| heap := heap st;
     currentSession := currentSession st;
     file := Some {| sessions := omap (fun r => heap st !! r) (sessionRefs data);
                     totals := dataTotals data |};
     tokenLimitSetting := tokenLimitSetting st |}.

(** [String(n).padStart(3, '0')] *)
Definition padStart3 (digits : string) : string :=
  match String.length digits with
  | 0%nat => "000" +:+ digits
  | 1%nat => "00" +:+ digits
  | 2%nat => "0" +:+ digits
  | _ => digits
  end.

(** [iso.split('T')[0]] *)
Definition datePart (iso : string) : string :=
  List.hd "" (Str.split "T"%char iso).

(** [startSession]; [nowIso] is what [new Date().toISOString()] returns
    during the call. *)
Definition startSession (description : string) (nowIso : string) (st : State)
  : Ref * State :=
  let (data, st1) := loadData st in
  let sessionNumber := padStart3 (pretty (length (sessionRefs data) + 1)%nat) in
  let date := datePart nowIso in
  let tokenLimit := tokenLimitSetting st1 in
  let created :=
    {| sessionId := "session-" +:+ date +:+ "-" +:+ sessionNumber;
       startTime := nowIso;
       description := description;
       tokenUsage := {| current := 0; limit := tokenLimit;
                        remaining := tokenLimit; lastUpdate := nowIso |} |} in
  let ref := length (heap st1) in
  let st2 :=
    {| heap := heap st1 ++ [created];
       currentSession := Some ref;
       file := file st1;
       tokenLimitSetting := tokenLimitSetting st1 |} in
  let pushed := sessionRefs data ++ [ref] in
  let data' :=
    {| sessionRefs := pushed;
       dataTotals :=
         {| totalSessions := length pushed;
            totalTokensUsed := totalTokensUsed (dataTotals data);
            lastSessionDate := Some nowIso |} |} in
  (ref, saveData data' st2).

(** The assignments of [updateTokens] to the fields of one object. *)
Definition setTokenUsage (tokensUsed limit : Z) (nowIso : string) (s : Session) : Session :=
  {| sessionId := sessionId s;
     startTime := startTime s;
     description := description s;
     tokenUsage := {| current := tokensUsed; limit := limit;
                      remaining := limit - tokensUsed; lastUpdate := nowIso |} |}.

(** [sum + (s.tokenUsage.current || 0)] over the array *)
Definition sumCurrent (h : list Session) (refs : list Ref) : Z :=
  fold_left
    (fun sum r => sum + match h !! r with Some s => current (tokenUsage s) | None => 0 end)
    refs 0.

Definition updateTokens (tokensUsed : Z) (tokenLimit : option Z) (nowIso : string)
    (st : State) : State :=
  let limit :=
    match tokenLimit with
    | Some l => if Z.eqb l 0 then tokenLimitSetting st else l
    | None => tokenLimitSetting st
    end in
  let (data, st1) := loadData st in
  let session :=
    match currentSession st1 with
    | Some r => Some r
    | None => last (sessionRefs data)
    end in
  match session with
  | None => st1
  | Some r =>
      let st2 :=
        {| heap := alter (setTokenUsage tokensUsed limit nowIso) r (heap st1);
           currentSession := currentSession st1;
           file := file st1;
           tokenLimitSetting := tokenLimitSetting st1 |} in
      let data' :=
        {| sessionRefs := sessionRefs data;
           dataTotals :=
             {| totalSessions := totalSessions (dataTotals data);
                totalTokensUsed := sumCurrent (heap st2) (sessionRefs data);
                lastSessionDate := lastSessionDate (dataTotals data) |} |} in
      saveData data' st2
  end.

(** A process that has just started and has no session file yet. *)
Definition newProcess : State :=
  {| heap := []; currentSession := None; file := None; tokenLimitSetting := 200000 |}.

(** The extension is restarted: the objects of the old process are gone,
    the file stays. *)
Definition restart (st : State) : State :=
  {| heap := []; currentSession := None; file := file st;
     tokenLimitSetting := tokenLimitSetting st |}.

(** [getCurrentSession]: the object of the running process when there is
    one, the last session of the file otherwise, [null] for a file
    without sessions. *)
Definition getCurrentSession (st : State) : option Ref * State :=
  match currentSession st with
  | Some r => (Some r, st)
  | None =>
      let (data, st1) := loadData st in
      (last (sessionRefs data), st1)
  end.

(** The object behind a reference that was returned. *)
Definition deref (st : State) (r : option Ref) : option Session :=
  match r with
  | Some r => heap st !! r
  | None => None
  end.

(** The sessions of the file, none for a missing file. *)
Definition sessionsOf (file : option Document) : list Session :=
  match file with
  | Some doc => sessions doc
  | None => []
  end.

(** What the extension does with a tracker, one call after the other. *)
Inductive Call : Type :=
| CallStartSession (description nowIso : string)
| CallUpdateTokens (tokensUsed : Z) (tokenLimit : option Z) (nowIso : string)
| CallGetCurrentSession
| CallRestart.

Definition call (st : State) (c : Call) : State :=
  match c with
  | CallStartSession description nowIso => (startSession description nowIso st).2
  | CallUpdateTokens tokensUsed tokenLimit nowIso =>
      updateTokens tokensUsed tokenLimit nowIso st
  | CallGetCurrentSession => (getCurrentSession st).2
  | CallRestart => restart st
  end.

Definition run (calls : list Call) (st : State) : State := fold_left call calls st.

End Tracker.

(** ** The token monitor of [extension.js] *)

Module Extension.
Import Tracker.

(** [updateTokensFromJsonl] from the snapshot on, with the status bar
    item and the tracker in place.  The result is the session data handed
    to [updateStatusBar] and to [dataProvider.updateSessionData];
    [nowStart] and [nowUpdate] are the times read by [startSession] and by
    [updateTokens]. *)
Definition showSnapshot (usage : SessionUsage) (nowStart nowUpdate : string)
    (st : State) : option Session * State :=
  if isActive usage && (0 <? totalTokens (session usage)) then
    let (currentSession, st1) := getCurrentSession st in
    let st2 :=
      match currentSession with
      | Some _ => st1
      | None => (startSession "Claude Code session (auto-created)" nowStart st1).2
      end in
    let st3 :=
      updateTokens (totalTokens (session usage)) (Some (tokenLimitSetting st2))
        nowUpdate st2 in
    let (sessionData, st4) := getCurrentSession st3 in
    (deref st4 sessionData, st4)
  else (None, st).

Definition updateTokensFromJsonl `{Json} (claudeDataLoader : ClaudeDataLoader)
    (fs : Node) (now : Z) (nowStart nowUpdate : string) (st : State)
  : IO (option Session * State) :=
  do usage <- getCurrentSessionUsage claudeDataLoader fs now ;
  ret (showSnapshot usage nowStart nowUpdate st).

End Extension.

(** ** The usage history file: [UsageHistory] *)

Module History.

Record DataPoint : Type := {
  timestamp : string;
  fiveHour : Z
}.

Record Document : Type := {
  dataPoints : list DataPoint;
  lastUpdated : option string
}.

Definition maxDataPoints : nat := 96.

(** The file is [None] when it is missing or is not JSON. *)
Definition loadData (file : option Document) : Document :=
  match file with
  | Some doc => doc
  | None => {| dataPoints := []; lastUpdated := None |}
  end.

(** [a.slice(-n)] for a positive [n] *)
Definition sliceLast {A} (n : nat) (a : list A) : list A :=
  skipn (length a - n) a.

(** [addDataPoint]; returns the new point and the file it wrote. *)
Definition addDataPoint (fiveHourUsage : Z) (nowIso : string) (file : option Document)
  : DataPoint * option Document :=
  let data := loadData file in
  let dataPoint := {| timestamp := nowIso; fiveHour := fiveHourUsage |} in
  let pushed := dataPoints data ++ [dataPoint] in
  let kept :=
    if (maxDataPoints <? length pushed)%nat then sliceLast maxDataPoints pushed
    else pushed in
  (dataPoint, Some {| dataPoints := kept; lastUpdated := Some (timestamp dataPoint) |}).

(** [a.slice(start)] for an integer [start]: a negative [start] counts
    from the end, and one beyond either end stops at that end. *)
Definition slice {A} (start : Z) (a : list A) : list A :=
  if start <? 0 then skipn (Z.to_nat (Z.max (Z.of_nat (length a) + start) 0)) a
  else skipn (Z.to_nat start) a.

(** [getRecentDataPoints(count)]; a caller that passes no [count] passes 8. *)
Definition getRecentDataPoints (count : Z) (file : option Document) : list DataPoint :=
  let data := loadData file in
  if (length (dataPoints data) =? 0)%nat then []
  else slice (- count) (dataPoints data).

(** [clearHistory]: the file it writes. *)
Definition clearHistory (file : option Document) : option Document :=
  Some {| dataPoints := []; lastUpdated := None |}.

End History.

(** ** The fetch cycle: [UsageDataProvider.fetchUsage] *)

Module DataProvider.
Import Scraper.

(** The usage data of the web page, as far as the fetch cycle looks at it. *)
Record WebUsage : Type := {
  usagePercent : Z
}.

(** What the calls of one fetch cycle do when they are made. *)
Record World : Type := {
  initialize : Outcome;               (** [scraper.initialize(false)] *)
  browser : Browser;                  (** the calls of [scraper.ensureLoggedIn] *)
  fetchUsageData : WebUsage + string; (** the data, or the message of the error *)
  close : Outcome                     (** [scraper.close()] *)
}.

(** The provider: the last usage data, and the history file it owns. *)
Record State : Type := {
  usageData : option WebUsage;
  historyFile : option History.Document
}.

Inductive ProviderOp : Type :=
| OpInitialize
| OpEnsureLoggedIn
| OpFetchUsageData
| OpAddDataPoint (fiveHourUsage : Z)
| OpClose
| OpRefresh.

(** How [fetchUsage] ends: it resolves with [{ webError }], or rejects. *)
Inductive Fetch : Type :=
| Resolves (webError : option string)
| Rejects (message : string).

Definition CHROME_REQUIRED : string :=
  "Chrome/Chromium required. Install Chrome or Chromium to fetch Claude.ai usage stats.".

(** The [try] block: the state it leaves, and the error it throws. *)
Definition tryFetch (world : World) (nowIso : string) (this : State)
  : Traced ProviderOp (State * Outcome) :=
  do _ <- tell OpInitialize ;
  match initialize world with
  | Throws message => ret (this, Throws message)
  | Returns =>
      do _ <- tell OpEnsureLoggedIn ;
      match result (ensureLoggedIn (browser world)) with
      | Throws message => ret (this, Throws message)
      | Returns =>
          do _ <- tell OpFetchUsageData ;
          match fetchUsageData world with
          | inr message => ret (this, Throws message)
          | inl data =>
              do _ <- tell (OpAddDataPoint (usagePercent data)) ;
              ret ({| usageData := Some data;
                      historyFile :=
                        (History.addDataPoint (usagePercent data) nowIso
                           (historyFile this)).2 |},
                   Returns)
          end
      end
  end.

(** [fetchUsage]: the [try], the [catch], the [finally] and the rest. *)
Definition fetchUsage (world : World) (nowIso : string) (this : State)
  : Traced ProviderOp (State * Fetch) :=
  do attempt <- tryFetch world nowIso this ;
  let webScrapeError :=
    match attempt.2 with
    | Returns => None
    | Throws message =>
        if String.eqb message "CHROME_NOT_FOUND" then Some CHROME_REQUIRED
        else Some message
    end in
  do _ <- tell OpClose ;
  match close world with
  | Throws message => ret (attempt.1, Rejects message)
  | Returns =>
      do _ <- tell OpRefresh ;
      ret (attempt.1, Resolves webScrapeError)
  end.

End DataProvider.

(** ** A JSON reader for the examples

    An instance of [Json] on which log lines can be evaluated: objects,
    arrays, strings without escapes, integers, [true], [false], [null]. *)

Module MiniJson.

Definition isJsonSpace (c : ascii) : bool :=
  match nat_of_ascii c with
  | 9%nat | 10%nat | 13%nat | 32%nat => true
  | _ => false
  end.

Fixpoint skipSpace (s : string) : string :=
  match s with
  | EmptyString => EmptyString
  | String c rest => if isJsonSpace c then skipSpace rest else s
  end.

Definition isDigit (c : ascii) : bool :=
  let n := nat_of_ascii c in ((48 <=? n) && (n <=? 57))%nat.

Definition digitValue (c : ascii) : Z := Z.of_nat (nat_of_ascii c) - 48.

(** The digits at the start of [s], read after the value [acc]. *)
Fixpoint digits (acc : Z) (s : string) : Z * string :=
  match s with
  | EmptyString => (acc, s)
  | String c rest =>
      if isDigit c then digits (10 * acc + digitValue c) rest else (acc, s)
  end.

Definition natural (s : string) : option (Z * string) :=
  match s with
  | String c rest =>
      if isDigit c then
        if Ascii.eqb c "0"%char then
          match rest with
          | String d _ => if isDigit d then None else Some (0, rest)
          | EmptyString => Some (0, rest)
          end
        else Some (digits 0 s)
      else None
  | EmptyString => None
  end.

(** The characters of a string up to its closing quote. *)
Fixpoint chars (s : string) : option (string * string) :=
  match s with
  | EmptyString => None
  | String c rest =>
      if Ascii.eqb c Str.dquote then Some (EmptyString, rest)
      else if Ascii.eqb c "\"%char || (nat_of_ascii c <? 32)%nat then None
      else match chars rest with
           | Some (str, after) => Some (String c str, after)
           | None => None
           end
  end.

Fixpoint dropChars (n : nat) (s : string) : string :=
  match n, s with
  | S n', String _ rest => dropChars n' rest
  | _, _ => s
  end.

Definition literal (word : string) (v : JValue) (s : string) : option (JValue * string) :=
  if String.prefix word s then Some (v, dropChars (String.length word) s) else None.

(** A later binding of a key replaces an earlier one. *)
Definition addField (key : string) (v : JValue) (later : list (string * JValue))
  : list (string * JValue) :=
  match Js.assoc key later with
  | Some _ => later
  | None => (key, v) :: later
  end.

Fixpoint value (fuel : nat) (s : string) : option (JValue * string) :=
  match fuel with
  | O => None
  | S fuel' =>
      match skipSpace s with
      | EmptyString => None
      | String c rest as text =>
          if Ascii.eqb c "{"%char then
            match skipSpace rest with
            | String d after =>
                if Ascii.eqb d "}"%char then Some (JObj [], after)
                else match members fuel' rest with
                     | Some (fields, after') => Some (JObj fields, after')
                     | None => None
                     end
            | EmptyString => None
            end
          else if Ascii.eqb c "["%char then
            match skipSpace rest with
            | String d after =>
                if Ascii.eqb d "]"%char then Some (JArr [], after)
                else match elements fuel' rest with
                     | Some (items, after') => Some (JArr items, after')
                     | None => None
                     end
            | EmptyString => None
            end
          else if Ascii.eqb c Str.dquote then
            match chars rest with
            | Some (str, after) => Some (JStr str, after)
            | None => None
            end
          else if Ascii.eqb c "-"%char then
            match natural rest with
            | Some (n, after) => Some (JNum (- n), after)
            | None => None
            end
          else if isDigit c then
            match natural text with
            | Some (n, after) => Some (JNum n, after)
            | None => None
            end
          else if Ascii.eqb c "t"%char then literal "true" (JBool true) text
          else if Ascii.eqb c "f"%char then literal "false" (JBool false) text
          else if Ascii.eqb c "n"%char then literal "null" JNull text
          else None
      end
  end
with elements (fuel : nat) (s : string) : option (list JValue * string) :=
  match fuel with
  | O => None
  | S fuel' =>
      match value fuel' s with
      | Some (v, rest) =>
          match skipSpace rest with
          | String c after =>
              if Ascii.eqb c ","%char then
                match elements fuel' after with
                | Some (vs, after') => Some (v :: vs, after')
                | None => None
                end
              else if Ascii.eqb c "]"%char then Some ([v], after)
              else None
          | EmptyString => None
          end
      | None => None
      end
  end
with members (fuel : nat) (s : string) : option (list (string * JValue) * string) :=
  match fuel with
  | O => None
  | S fuel' =>
      match skipSpace s with
      | String q rest =>
          if Ascii.eqb q Str.dquote then
            match chars rest with
            | Some (key, rest1) =>
                match skipSpace rest1 with
                | String colon rest2 =>
                    if Ascii.eqb colon ":"%char then
                      match value fuel' rest2 with
                      | Some (v, rest3) =>
                          match skipSpace rest3 with
                          | String c after =>
                              if Ascii.eqb c ","%char then
                                match members fuel' after with
                                | Some (fields, after') =>
                                    Some (addField key v fields, after')
                                | None => None
                                end
                              else if Ascii.eqb c "}"%char then Some ([(key, v)], after)
                              else None
                          | EmptyString => None
                          end
                      | None => None
                      end
                    else None
                | EmptyString => None
                end
            | None => None
            end
          else None
      | EmptyString => None
      end
  end.

(** A fixture is written with apostrophes where JSON has double quotes. *)
Fixpoint text (s : string) : string :=
  match s with
  | EmptyString => EmptyString
  | String c rest => String (if Ascii.eqb c "'"%char then Str.dquote else c) (text rest)
  end.

Definition parse (text : string) : option JValue :=
  match value (S (String.length text)) text with
  | Some (v, rest) =>
      match skipSpace rest with
      | EmptyString => Some v
      | _ => None
      end
  | None => None
  end.

End MiniJson.


(** ** Notions the specification uses *)

Section Notions.
Context `{Json}.

(** The record of a valid line: the line parses and the record passes the
    validity predicate.  Every other line is malformed. *)
Definition validRecord (line : string) : option JValue :=
  match JSON_parse line with
  | Some record => if isValidUsageRecord record then Some record else None
  | None => None
  end.

(** The two cache fields of a parsed line, [0] for one that is missing. *)
Definition cacheCreationOf (entry : JValue) : Z :=
  Js.orZero (Js.optProp (Js.optProp (Js.prop entry "message") "usage")
               "cache_creation_input_tokens").

Definition cacheReadOf (entry : JValue) : Z :=
  Js.orZero (Js.optProp (Js.optProp (Js.prop entry "message") "usage")
               "cache_read_input_tokens").

(** A line qualifies: it parses, its type is [assistant], and its two
    cache fields, given as [cacheCreation] and [cacheRead], have a positive
    sum. *)
Definition Qualifies (line : string) (cacheCreation cacheRead : Z) : Prop :=
  exists entry,
    JSON_parse line = Some entry /\
    Js.prop entry "type" = Some (JStr "assistant") /\
    cacheCreation = cacheCreationOf entry /\
    cacheRead = cacheReadOf entry /\
    0 < cacheCreation + cacheRead.

(** The snapshot of one file; an unreadable file gives the inactive one. *)
Definition sessionOfFile (fs : Node) (p : Path) : SessionUsage :=
  match Fs.lookup fs p with
  | Some (File _ (Some content)) => sessionOfContent content
  | _ => inactive
  end.

End Notions.

(** The sum of one token field over a list of records. *)
Definition sumOf (k : string) (events : list JValue) : Z :=
  fold_right (fun record acc => usageField record k + acc) 0 events.

(** The totals and the count of a list of records, none left out. *)
Definition totalsOf (events : list JValue) : Usage :=
  {| totalTokens :=
       sumOf "input_tokens" events + sumOf "output_tokens" events +
       sumOf "cache_creation_input_tokens" events +
       sumOf "cache_read_input_tokens" events;
     inputTokens := sumOf "input_tokens" events;
     outputTokens := sumOf "output_tokens" events;
     cacheCreationTokens := sumOf "cache_creation_input_tokens" events;
     cacheReadTokens := sumOf "cache_read_input_tokens" events;
     messageCount := length events |}.

(** The directory [getCurrentSessionUsage] of the revised loader searches:
    the project directory when a workspace is set, the root otherwise. *)
Definition searchedDirectory (this : ClaudeDataLoader) (fs : Node) : option Path :=
  result (if isSet (projectDirName this)
          then getProjectDataDirectory this fs
          else findClaudeDataDirectory this fs).

(** The files a computation read, in order. *)
Definition filesRead {A} (m : IO A) : list Path :=
  omap (fun op => match op with OpReadFile p => Some p | _ => None end) (trace m).

(** The directories a computation listed, in order. *)
Definition directoriesListed {A} (m : IO A) : list Path :=
  omap (fun op => match op with OpReaddir p => Some p | _ => None end) (trace m).

(** The entry of a candidate in the list of recent files: it exists and
    was modified since the start of the window. *)
Definition recentOf (fs : Node) (sessionStart : Z) (filePath : Path) : option RecentFile :=
  match Fs.lookup fs filePath with
  | Some n =>
      if sessionStart <=? Fs.mtime n
      then Some {| path := filePath; modified := Fs.mtime n |}
      else None
  | None => None
  end.

(** The first file of a list is a most recently modified one. *)
Definition headIsLatest (l : list RecentFile) : Prop :=
  match l with
  | [] => True
  | x :: _ => forall y, In y l -> modified y <= modified x
  end.

(** The joined keys of a list of events. *)
Definition hashesOf (events : list JValue) : gset string :=
  list_to_set (getRecordHash <$> events).

(** ** Notions for the directory search *)

(** The path names a directory of the file system. *)
Definition isDirectoryAt (fs : Node) (p : Path) : bool :=
  match Fs.lookup fs p with
  | Some n => Fs.isDirectory n
  | None => false
  end.

(** [FileBelow n rel]: [rel] is the path, relative to the directory [n],
    of a regular file that is reached through directories only. *)
Inductive FileBelow : Node -> Path -> Prop :=
| FileBelow_here (m : Z) (entries : list (string * Node)) (name : string)
    (fm : Z) (content : option string) :
    In (name, File fm content) entries ->
    FileBelow (Dir m entries) [name]
| FileBelow_deeper (m : Z) (entries : list (string * Node)) (name : string)
    (child : Node) (rel : Path) :
    In (name, child) entries ->
    Fs.isDirectory child = true ->
    FileBelow child rel ->
    FileBelow (Dir m entries) (name :: rel).

(** [record.message.usage] of a record, [null] when there is none. *)
Definition usageOf (record : JValue) : JValue :=
  default JNull (Js.optProp (Js.prop record "message") "usage").

(** ** Notions for the written times *)

(** A text of digits only. *)
Fixpoint allDigits (s : string) : bool :=
  match s with
  | EmptyString => true
  | String c rest => Str.isDigit c && allDigits rest
  end.

(** ** Notions for the fetch of the usage data *)

Module ScraperNotions.
Import Scraper.

(** What a secondary endpoint contributes: its JSON, or [null] when it
    was not captured, its response is not ok, or its fetch throws. *)
Definition contribution (captured : bool) (reply : Reply) : option JValue :=
  match captured, reply with
  | true, Json body => Some body
  | _, _ => None
  end.

(** What the [catch] of [fetchUsageData] makes of a message. *)
Definition surfaced (message : string) : string :=
  if Str.includes message "timeout" then TOO_LONG else message.

(** What the text of the page comes to, after the [catch]. *)
Definition fallback (page : UsagePage) : Fetched :=
  match scraped page with
  | inl (Some usagePercent, Some text) =>
      Gives (FromHtml usagePercent (if Str.nonEmpty text then text else "Unknown"))
  | inl (Some usagePercent, None) => Gives (FromHtml usagePercent "Unknown")
  | inl (None, _) => Raises COULD_NOT_FIND
  | inr message => Raises (surfaced message)
  end.

End ScraperNotions.

(** ** Notions for the session file *)

Module TrackerNotions.
Import Tracker.

(** What identifies a session: its identifier, its start and its
    description.  The token counters are the part that changes. *)
Definition identity (s : Session) : string * string * string :=
  (sessionId s, startTime s, description s).

(** The session [startSession] creates when the file holds [n] sessions. *)
Definition created (n : nat) (description nowIso : string) (tokenLimit : Z) : Session :=
  {| sessionId := "session-" +:+ datePart nowIso +:+ "-" +:+ padStart3 (pretty (n + 1)%nat);
     startTime := nowIso;
     description := description;
     tokenUsage := {| current := 0; limit := tokenLimit;
                      remaining := tokenLimit; lastUpdate := nowIso |} |}.

(** The identities of the sessions a sequence of calls starts, when the
    file holds [n] sessions before the first call. *)
Fixpoint started (n : nat) (calls : list Call) : list (string * string * string) :=
  match calls with
  | [] => []
  | CallStartSession description nowIso :: rest =>
      identity (created n description nowIso 0) :: started (S n) rest
  | _ :: rest => started n rest
  end.

(** The count kept in the totals is the number of sessions. *)
Definition countsSessions (file : option Document) : Prop :=
  match file with
  | Some doc => totalSessions (totals doc) = length (sessions doc)
  | None => True
  end.

(** The reference held by the tracker, if any, is one of the heap. *)
Definition currentIsAlive (st : State) : Prop :=
  match currentSession st with
  | Some r => (r < length (heap st))%nat
  | None => True
  end.

End TrackerNotions.

(** ** Notions for the login *)

(** The cookie read of a turn shows a cookie named [sessionKey]. *)
Definition showsSessionKey (turn : Auth.Turn) : bool :=
  match Auth.jar turn with
  | Some cookies => existsb Auth.isSessionKey cookies
  | None => false
  end.

(** A turn inside the window in which no session cookie shows. *)
Definition keepsWaiting (maxWaitMs : Z) (turn : Auth.Turn) : Prop :=
  Auth.elapsed turn < maxWaitMs /\ showsSessionKey turn = false.


(** ** A file system for the examples *)

Module Example.

Definition root : Path := ["home"; "u"; ".claude"; "projects"].

Definition configPaths : list Path :=
  [["home"; "u"; ".config"; "claude"; "projects"]; root].

(** The workspace is [/home/u/proj]; its directory is [-home-u-proj]. *)
Definition loader : ClaudeDataLoader := newClaudeDataLoader configPaths (Some "/home/u/proj").

(** The loader of a window with no workspace. *)
Definition globalLoader : ClaudeDataLoader := newClaudeDataLoader configPaths None.

Definition now : Z := 1764930000000.

Definition firstTurn : string :=
  MiniJson.text "{'type':'assistant','requestId':'req_1','message':{'id':'msg_1','model':'claude-sonnet','usage':{'input_tokens':10,'output_tokens':20,'cache_creation_input_tokens':100,'cache_read_input_tokens':1000}}}".

Definition secondTurn : string :=
  MiniJson.text "{'type':'assistant','requestId':'req_2','message':{'id':'msg_2','model':'claude-sonnet','usage':{'input_tokens':11,'output_tokens':21,'cache_creation_input_tokens':150,'cache_read_input_tokens':3000}}}".

Definition thirdTurn : string :=
  MiniJson.text "{'type':'assistant','requestId':'req_3','message':{'id':'msg_3','model':'claude-sonnet','usage':{'input_tokens':12,'output_tokens':22,'cache_creation_input_tokens':200,'cache_read_input_tokens':5000}}}".

Definition userTurn : string :=
  MiniJson.text "{'type':'user','message':{'role':'user','content':'thanks'}}".

(** An assistant event with no cache yet. *)
Definition coldTurn : string :=
  MiniJson.text "{'type':'assistant','requestId':'req_4','message':{'id':'msg_4','model':'claude-sonnet','usage':{'input_tokens':5,'output_tokens':6,'cache_creation_input_tokens':0,'cache_read_input_tokens':0}}}".

(** A synthetic message: it parses and is not a valid usage record. *)
Definition syntheticTurn : string :=
  MiniJson.text "{'type':'assistant','requestId':'req_5','message':{'id':'msg_5','model':'<synthetic>','usage':{'input_tokens':0,'output_tokens':0}}}".

(** A line cut short by a write in progress. *)
Definition tornLine : string := MiniJson.text "{'type':'assistant','mess".

Definition agentTurn : string :=
  MiniJson.text "{'type':'assistant','requestId':'req_9','message':{'id':'msg_9','model':'claude-haiku','usage':{'input_tokens':1,'output_tokens':2,'cache_creation_input_tokens':7,'cache_read_input_tokens':777}}}".

Definition otherTurn : string :=
  MiniJson.text "{'type':'assistant','requestId':'req_7','message':{'id':'msg_7','model':'claude-opus','usage':{'input_tokens':3,'output_tokens':4,'cache_creation_input_tokens':60,'cache_read_input_tokens':9000}}}".

Definition sessionLines : list string :=
  [firstTurn; secondTurn; thirdTurn; userTurn; coldTurn; tornLine].

Definition mainName : string := "0f8fad5b-d9cb-469f-a165-70867728950e.jsonl".
Definition agentName : string := "agent-7c9e6679.jsonl".
Definition otherName : string := "9b2d5f1e-3c4a-4b6d-8e7f-0a1b2c3d4e5f.jsonl".

Definition mainPath : Path := root ++ ["-home-u-proj"; mainName].
Definition agentPath : Path := root ++ ["-home-u-proj"; agentName].
Definition otherPath : Path := root ++ ["-home-u-other"; otherName].

(** A directory at the end of a path of directories. *)
Definition under (p : Path) (n : Node) : Node :=
  fold_right (fun name child => Dir 0 [(name, child)]) n p.

(** Another project, busy a minute ago. *)
Definition otherProject : Node :=
  Dir 0 [(otherName, File (now - 60000) (Some (Str.unlines [otherTurn])))].

(** The project of the workspace: a main session file with the given
    content, modified at [mtime], and an agent file modified after it. *)
Definition project (mtime : Z) (content : string) : Node :=
  Dir 0 [(mainName, File mtime (Some content));
         (agentName, File (now - 1000) (Some (Str.unlines [agentTurn])));
         ("notes.txt", File (now - 500) (Some "not a log"))].

Definition diskWith (mtime : Z) (content : string) : Node :=
  under root (Dir 0 [("-home-u-other", otherProject);
                     ("-home-u-proj", project mtime content)]).

(** The main session file was modified a minute ago. *)
Definition disk : Node := diskWith (now - 60000) (Str.unlines sessionLines).

(** The same file, last modified two hours ago. *)
Definition staleDisk : Node := diskWith (now - 7200000) (Str.unlines sessionLines).

(** No directory for the workspace yet; another project is busy. *)
Definition diskWithoutProject : Node :=
  under root (Dir 0 [("-home-u-other", otherProject)]).

End Example.
(** ** Dates, a browser and a login for the examples *)

Module ExampleWorld.

(** The timestamps the examples use, with the instants they denote. *)
Definition knownDates : list (string * Z) :=
  [("2025-12-05T10:20:00.000Z", 1764930000000);
   ("2025-12-05T12:57:30.000Z", 1764939450000);
   ("2025-12-10T07:20:00.000Z", 1765351200000)].

(** [Date] on the timestamps of the examples; a number is an instant, and
    anything else is no date. *)
#[export] Instance exampleDates : Dates :=
  {| Date_getTime v :=
       match v with
       | Some (JStr s) => Js.assoc s knownDates
       | Some (JNum n) => Some n
       | _ => None
       end |}.

(** A clock in UTC.  The day of the month is counted from the last day of
    November 2025, which is right for the instants of December 2025 the
    examples use; 1 January 1970 was a Thursday. *)
#[export] Instance exampleLocalTime : LocalTime :=
  {| getHours ms := (ms / 3600000) mod 24;
     getMinutes ms := (ms / 60000) mod 60;
     getDay ms := Z.to_nat ((ms / 86400000 + 4) mod 7);
     getDate ms := ms / 86400000 - 20422 |}.

(** A session cookie that expired in 2023. *)
Definition staleCookie : Auth.Cookie :=
  {| Auth.name := "sessionKey"; Auth.value := "sk-old"; Auth.expires := 1690000000 # 1 |}.

Definition otherCookie : Auth.Cookie :=
  {| Auth.name := "lastActiveOrg"; Auth.value := "org"; Auth.expires := 2000000000 # 1 |}.

(** The login page, with the stale cookie still in the jar. *)
Definition loginPage : Auth.Page :=
  {| Auth.url := Some "https://claude.ai/login";
     Auth.gotoSucceeds := true;
     Auth.cookies := Some [otherCookie; staleCookie];
     Auth.fetchOutcome := Auth.Responded false |}.

(** The first turn of the wait: the condition is tested at once, and the
    cookies are read after the first sleep. *)
Definition firstPoll : Auth.Turn :=
  {| Auth.elapsed := 0; Auth.jar := Some [otherCookie; staleCookie] |}.

(** A browser in which the user never logs in. *)
Definition idleBrowser : Scraper.Browser :=
  {| Scraper.validation := {| Auth.valid := false; Auth.reason := "no_cookie" |};
     Scraper.gotoUsage := Scraper.Returns;
     Scraper.loggedIn := false;
     Scraper.closes := Scraper.Returns;
     Scraper.initializes := Scraper.Returns;
     Scraper.gotoUsageAfterLogin := Scraper.Returns |}.

End ExampleWorld.

(** * Properties *)

(** ** The JSON reader of the examples is a [Json] *)

Module MiniJsonFacts.
Import MiniJson.

Lemma whitespace_cases (c : ascii) :
  Str.isWhitespace c = true ->
  c = ascii_of_nat 9 \/ c = ascii_of_nat 10 \/ c = ascii_of_nat 11 \/
  c = ascii_of_nat 12 \/ c = ascii_of_nat 13 \/ c = ascii_of_nat 32.
Proof.
  destruct c as [[] [] [] [] [] [] [] []]; cbv; intros Hc;
    first [discriminate Hc | tauto].
Qed.

Lemma trimStart_head (s : string) (c : ascii) (rest : string) :
  Str.trimStart s = String c rest -> Str.isWhitespace c = false.
Proof.
  induction s as [| d s IH]; cbn; [discriminate |].
  destruct (Str.isWhitespace d) eqn:Hd; [exact IH |].
  intros [= <- _]. exact Hd.
Qed.

Lemma trimEnd_empty (s : string) :
  Str.trimEnd s = "" ->
  match s with EmptyString => True | String c _ => Str.isWhitespace c = true end.
Proof.
  destruct s as [| c s]; cbn; [trivial |].
  destruct (Str.trimEnd s); [| discriminate].
  destruct (Str.isWhitespace c); [reflexivity | discriminate].
Qed.

Lemma trim_empty (s : string) : Str.trim s = "" -> Str.trimStart s = "".
Proof.
  unfold Str.trim. intros Hend. apply trimEnd_empty in Hend.
  destruct (Str.trimStart s) as [| c rest] eqn:Hstart; [reflexivity |].
  apply trimStart_head in Hstart. congruence.
Qed.

Lemma value_blank (fuel : nat) (s : string) :
  Str.trimStart s = "" -> value fuel s = None.
Proof.
  destruct fuel as [| fuel]; [reflexivity |].
  induction s as [| c s IH]; [reflexivity |].
  cbn [Str.trimStart]. destruct (Str.isWhitespace c) eqn:Hc; [| discriminate].
  intros Hs. specialize (IH Hs).
  destruct (whitespace_cases c Hc) as [-> | [-> | [-> | [-> | [-> | ->]]]]];
    first [exact IH | reflexivity].
Qed.

Lemma parse_blank (text : string) : Str.trim text = "" -> parse text = None.
Proof.
  intros Hblank. unfold parse.
  rewrite (value_blank _ text (trim_empty text Hblank)). reflexivity.
Qed.

End MiniJsonFacts.

#[export] Instance miniJson : Json :=
  {| JSON_parse := MiniJson.parse; JSON_parse_blank := MiniJsonFacts.parse_blank |}.

(** ** Parsing a log file *)

Module ParseFacts.

Lemma split_no_separator (sep : ascii) (s : string) :
  Str.contains sep s = false -> Str.split sep s = [s].
Proof.
  induction s as [| c s IH]; cbn [Str.split Str.contains]; [reflexivity |].
  destruct (Ascii.eqb c sep); cbn [orb]; [discriminate |].
  intros Hs. rewrite (IH Hs). reflexivity.
Qed.

Lemma split_app_separator (sep : ascii) (s rest : string) :
  Str.contains sep s = false ->
  Str.split sep (s +:+ String sep rest) = s :: Str.split sep rest.
Proof.
  induction s as [| c s IH]; simpl.
  - rewrite Ascii.eqb_refl. reflexivity.
  - destruct (Ascii.eqb c sep); cbn [orb]; [discriminate |].
    intros Hs. rewrite (IH Hs). reflexivity.
Qed.

(** Splitting the text of a file gives back its lines. *)
Lemma lines_unlines (ls : list string) :
  ls <> [] ->
  Forall (fun l => Str.contains Str.newline l = false) ls ->
  Str.lines (Str.unlines ls) = ls.
Proof.
  unfold Str.lines.
  induction ls as [| l ls IH]; [congruence |].
  intros _ Hall. inversion Hall as [| ? ? Hl Hls]; subst.
  destruct ls as [| l' ls].
  - cbn. apply split_no_separator, Hl.
  - change (Str.unlines (l :: l' :: ls))
      with (l +:+ String Str.newline (Str.unlines (l' :: ls))).
    rewrite (split_app_separator _ _ _ Hl), IH by (congruence || exact Hls).
    reflexivity.
Qed.

Section Parse.
Context `{Json}.

(** The loop of [parseJsonlFile] appends the valid records in order. *)
Lemma parseStep_fold (lines : list string) (records : list JValue) :
  fold_left parseStep lines records = records ++ omap validRecord lines.
Proof.
  revert records. induction lines as [| line lines IH]; intros records.
  - cbn. rewrite app_nil_r. reflexivity.
  - cbn [fold_left]. rewrite IH. unfold parseStep. cbn. unfold validRecord at 2.
    destruct (JSON_parse line) as [record |]; [| reflexivity].
    destruct (isValidUsageRecord record); [| reflexivity].
    rewrite <- app_assoc. reflexivity.
Qed.

Lemma blank_not_valid (line : string) :
  Str.nonEmpty (Str.trim line) = false -> validRecord line = None.
Proof.
  intros Hblank. unfold validRecord.
  rewrite JSON_parse_blank; [reflexivity |].
  destruct (Str.trim line); [reflexivity | discriminate].
Qed.

Lemma omap_valid_nonblank (lines : list string) :
  omap validRecord
    (List.filter (fun line => Str.nonEmpty (Str.trim line)) lines) =
  omap validRecord lines.
Proof.
  induction lines as [| line lines IH]; [reflexivity |].
  cbn. destruct (Str.nonEmpty (Str.trim line)) eqn:Hline; cbn.
  - rewrite IH. reflexivity.
  - rewrite (blank_not_valid line Hline). exact IH.
Qed.

(** C5. The records [parseJsonlFile] returns for a file are the records of
    its valid lines, in the order of the file, wherever the malformed lines
    stand among them: a malformed line contributes nothing and the lines
    after it are read as if it were not there. *)
Theorem parseJsonlFile_valid_subset (fs : Node) (filePath : Path) (mtime : Z)
    (lines : list string) :
  Fs.lookup fs filePath = Some (File mtime (Some (Str.unlines lines))) ->
  Forall (fun l => Str.contains Str.newline l = false) lines ->
  result (parseJsonlFile fs filePath) = omap validRecord lines /\
  forall before bad after,
    lines = before ++ bad :: after ->
    validRecord bad = None ->
    result (parseJsonlFile fs filePath) =
      omap validRecord before ++ omap validRecord after.
Proof.
  intros Hfile Hlines.
  assert (Hresult : result (parseJsonlFile fs filePath) = omap validRecord lines).
  { unfold parseJsonlFile, Fs.readFile, result. cbn. rewrite Hfile. cbn.
    rewrite parseStep_fold. cbn [app].
    destruct lines as [| l ls]; [reflexivity |].
    rewrite lines_unlines by (congruence || exact Hlines).
    apply omap_valid_nonblank. }
  split; [exact Hresult |].
  intros before bad after -> Hbad.
  rewrite Hresult, omap_app. cbn. rewrite Hbad. reflexivity.
Qed.

End Parse.

End ParseFacts.
(** ** Traces of the loader *)

Module TraceFacts.

Lemma result_bind {E A B} (m : Traced E A) (k : A -> Traced E B) :
  result (bind m k) = result (k (result m)).
Proof. unfold bind, result. destruct m as [a t1]. cbn. destruct (k a). reflexivity. Qed.

Lemma trace_bind {E A B} (m : Traced E A) (k : A -> Traced E B) :
  trace (bind m k) = trace m ++ trace (k (result m)).
Proof. unfold bind, result, trace. destruct m as [a t1]. cbn. destruct (k a). reflexivity. Qed.

Lemma filesRead_bind {A B} (m : IO A) (k : A -> IO B) :
  filesRead (bind m k) = filesRead m ++ filesRead (k (result m)).
Proof. unfold filesRead. rewrite trace_bind. apply omap_app. Qed.

Lemma directoriesListed_bind {A B} (m : IO A) (k : A -> IO B) :
  directoriesListed (bind m k) = directoriesListed m ++ directoriesListed (k (result m)).
Proof. unfold directoriesListed. rewrite trace_bind. apply omap_app. Qed.

Lemma filesRead_ret {A} (a : A) : filesRead (ret a : IO A) = [].
Proof. reflexivity. Qed.

Lemma directoriesListed_ret {A} (a : A) : directoriesListed (ret a : IO A) = [].
Proof. reflexivity. Qed.

Lemma stat_result (fs : Node) (p : Path) : result (Fs.stat fs p) = Fs.lookup fs p.
Proof. reflexivity. Qed.

Lemma stat_quiet (fs : Node) (p : Path) :
  filesRead (Fs.stat fs p) = [] /\ directoriesListed (Fs.stat fs p) = [].
Proof. split; reflexivity. Qed.

(** Looking for the root, and for the project directory, only calls [stat]. *)
Lemma firstDirectory_quiet (fs : Node) (candidates : list Path) :
  filesRead (firstDirectory fs candidates) = [] /\
  directoriesListed (firstDirectory fs candidates) = [].
Proof.
  induction candidates as [| dirPath rest [IHr IHd]]; [split; reflexivity |].
  cbn [firstDirectory]. rewrite filesRead_bind, directoriesListed_bind, stat_result.
  destruct (stat_quiet fs dirPath) as [-> ->].
  destruct (Fs.lookup fs dirPath) as [n |]; [destruct (Fs.isDirectory n) |];
    split; cbn; assumption || reflexivity.
Qed.

Lemma getProjectDataDirectory_quiet (this : ClaudeDataLoader) (fs : Node) :
  filesRead (getProjectDataDirectory this fs) = [] /\
  directoriesListed (getProjectDataDirectory this fs) = [].
Proof.
  unfold getProjectDataDirectory, findClaudeDataDirectory.
  destruct (projectDirName this) as [name |]; [| split; reflexivity].
  destruct (Str.nonEmpty name); [| split; reflexivity].
  rewrite filesRead_bind, directoriesListed_bind.
  destruct (firstDirectory_quiet fs (claudeConfigPaths this)) as [-> ->].
  destruct (result (firstDirectory fs (claudeConfigPaths this))) as [baseDir |];
    [| split; reflexivity].
  rewrite filesRead_bind, directoriesListed_bind, stat_result.
  destruct (stat_quiet fs (baseDir ++ [name])) as [-> ->].
  destruct (Fs.lookup fs (baseDir ++ [name])) as [n |]; [destruct (Fs.isDirectory n) |];
    split; reflexivity.
Qed.

(** Listing the log files reads none of them. *)
Lemma walkJsonl_quiet (n : Node) : forall dirPath, filesRead (walkJsonl dirPath n) = [].
Proof.
  induction n as [m content | m | m entries IH] using Node_induction;
    intros dirPath; try reflexivity.
  induction IH as [| [name child] es Hchild _ IHes]; [reflexivity |].
  cbn [snd] in Hchild.
  cbn [walkJsonl] in IHes |- *. rewrite filesRead_bind in IHes |- *.
  change (filesRead (tell (OpReaddir dirPath))) with (@nil Path) in IHes |- *.
  cbn [app result fst tell] in IHes |- *.
  destruct child as [cm content | cm centries | cm].
  - destruct (Str.endsWith name ".jsonl"); [| exact IHes].
    rewrite filesRead_bind, IHes. reflexivity.
  - rewrite filesRead_bind, Hchild, filesRead_bind, IHes. reflexivity.
  - exact IHes.
Qed.

Lemma findJsonlFiles_quiet (fs : Node) (dirPath : Path) :
  filesRead (findJsonlFiles fs dirPath) = [].
Proof.
  unfold findJsonlFiles.
  destruct (Fs.lookup fs dirPath); [apply walkJsonl_quiet | reflexivity].
Qed.

(** Finding the recent files only calls [stat]. *)
Lemma recentFilesOf_result (fs : Node) (sessionStart : Z) (files : list Path) :
  result (recentFilesOf fs sessionStart files) = omap (recentOf fs sessionStart) files /\
  filesRead (recentFilesOf fs sessionStart files) = [].
Proof.
  induction files as [| filePath rest [IHr IHq]]; [split; reflexivity |].
  cbn [recentFilesOf]. rewrite !result_bind, !filesRead_bind, IHq, IHr, stat_result.
  destruct (stat_quiet fs filePath) as [-> _].
  cbn [omap list_omap]. set (others := omap (recentOf fs sessionStart) rest).
  unfold recentOf.
  destruct (Fs.lookup fs filePath) as [n |]; [destruct (sessionStart <=? Fs.mtime n) |];
    split; reflexivity.
Qed.

(** The sort puts a most recently modified file first. *)
Lemma insertByModified_In (a x : RecentFile) (sorted : list RecentFile) :
  In x (insertByModified a sorted) <-> x = a \/ In x sorted.
Proof.
  induction sorted as [| b rest IH]; cbn; [intuition congruence |].
  destruct (modified b <=? modified a); cbn; [intuition congruence |].
  rewrite IH. intuition congruence.
Qed.

Lemma sortByModified_In (x : RecentFile) (l : list RecentFile) :
  In x (sortByModified l) <-> In x l.
Proof.
  induction l as [| a l IH]; cbn; [reflexivity |].
  rewrite insertByModified_In, IH. intuition congruence.
Qed.

Lemma insertByModified_head (a : RecentFile) (sorted : list RecentFile) :
  headIsLatest sorted -> headIsLatest (insertByModified a sorted).
Proof.
  destruct sorted as [| b rest]; cbn.
  - intros _ y [<- | []]. lia.
  - intros Hb. destruct (Z.leb_spec (modified b) (modified a)) as [Hle | Hgt]; cbn.
    + intros y [<- | Hy]; [lia |]. specialize (Hb y Hy). lia.
    + intros y [<- | Hy]; [lia |].
      apply insertByModified_In in Hy as [-> | Hy]; [lia |].
      apply Hb. right. exact Hy.
Qed.

Lemma sortByModified_head (l : list RecentFile) : headIsLatest (sortByModified l).
Proof.
  induction l as [| a l IH]; cbn; [exact I |].
  apply insertByModified_head, IH.
Qed.

Lemma sortByModified_latest (l rest : list RecentFile) (x : RecentFile) :
  sortByModified l = x :: rest ->
  In x l /\ forall y, In y l -> modified y <= modified x.
Proof.
  intros Hsort. split.
  - apply sortByModified_In. rewrite Hsort. left. reflexivity.
  - intros y Hy. pose proof (sortByModified_head l) as Hhead.
    rewrite Hsort in Hhead. apply Hhead. rewrite <- Hsort.
    apply sortByModified_In, Hy.
Qed.

End TraceFacts.
(** ** Deduplication and totals *)

Module DedupFacts.

Lemma elem_of_hashesOf (h : string) (events : list JValue) :
  h ∈ hashesOf events <-> h ∈ getRecordHash <$> events.
Proof. unfold hashesOf. apply elem_of_list_to_set. Qed.

(** The state of the deduplication loop, from any state on. *)
Lemma dedupStep_seen (events : list JValue) (st : list JValue * gset string) :
  (fold_left dedupStep events st).2 = st.2 ∪ hashesOf events.
Proof.
  revert st. induction events as [| e events IH]; intros st.
  - unfold hashesOf. cbn. set_solver.
  - cbn [fold_left]. rewrite IH. unfold dedupStep, hashesOf.
    destruct (decide (getRecordHash e ∈ st.2)); cbn; set_solver.
Qed.

Lemma dedupStep_skip (e : JValue) (st : list JValue * gset string) :
  getRecordHash e ∈ st.2 -> dedupStep st e = st.
Proof. intros Hin. unfold dedupStep. rewrite decide_True by exact Hin. reflexivity. Qed.

Lemma dedupStep_keep (e : JValue) (st : list JValue * gset string) :
  getRecordHash e ∉ st.2 -> dedupStep st e = (st.1 ++ [e], {[getRecordHash e]} ∪ st.2).
Proof. intros Hin. unfold dedupStep. rewrite decide_False by exact Hin. reflexivity. Qed.

Lemma dedupStep_prefix (events : list JValue) (st : list JValue * gset string) :
  st.1 `prefix_of` (fold_left dedupStep events st).1.
Proof.
  revert st. induction events as [| e events IH]; intros st; [reflexivity |].
  cbn [fold_left]. etransitivity; [| apply IH].
  unfold dedupStep. destruct (decide _); cbn; [reflexivity | by apply prefix_app_r].
Qed.

Lemma seen_initial (events : list JValue) :
  (fold_left dedupStep events ([], ∅)).2 = hashesOf events.
Proof. rewrite dedupStep_seen. cbn. set_solver. Qed.

(** An event is kept exactly when no event before it has its joined key. *)
Lemma uniqueRecordsOf_snoc (before : list JValue) (e : JValue) :
  uniqueRecordsOf (before ++ [e]) =
    uniqueRecordsOf before ++
    (if decide (getRecordHash e ∈ getRecordHash <$> before) then [] else [e]).
Proof.
  unfold uniqueRecordsOf. rewrite fold_left_app. cbn [fold_left].
  destruct (decide (getRecordHash e ∈ getRecordHash <$> before)) as [Hin | Hout].
  - rewrite dedupStep_skip by (rewrite seen_initial, elem_of_hashesOf; exact Hin).
    rewrite app_nil_r. reflexivity.
  - rewrite dedupStep_keep by (rewrite seen_initial, elem_of_hashesOf; exact Hout).
    reflexivity.
Qed.

(** A later event with the joined key of an earlier one changes nothing. *)
Lemma uniqueRecordsOf_duplicate (before mid after : list JValue) (e e' : JValue) :
  getRecordHash e' = getRecordHash e ->
  uniqueRecordsOf (before ++ e :: mid ++ e' :: after) =
  uniqueRecordsOf (before ++ e :: mid ++ after).
Proof.
  intros Hsame. unfold uniqueRecordsOf.
  replace (before ++ e :: mid ++ e' :: after)
    with ((before ++ e :: mid) ++ e' :: after) by (rewrite <- app_assoc; reflexivity).
  replace (before ++ e :: mid ++ after)
    with ((before ++ e :: mid) ++ after) by (rewrite <- app_assoc; reflexivity).
  set (seen := before ++ e :: mid).
  rewrite !fold_left_app. cbn [fold_left].
  rewrite dedupStep_skip; [reflexivity |].
  rewrite seen_initial, elem_of_hashesOf, Hsame. subst seen.
  rewrite fmap_app. set_solver.
Qed.

Lemma uniqueRecordsOf_first (before after : list JValue) (e : JValue) :
  (forall x, x ∈ before -> getRecordHash x <> getRecordHash e) ->
  e ∈ uniqueRecordsOf (before ++ e :: after).
Proof.
  intros Hnew. unfold uniqueRecordsOf. rewrite fold_left_app. cbn [fold_left].
  rewrite dedupStep_keep.
  - eapply elem_of_prefix; [| apply dedupStep_prefix]. cbn. set_solver.
  - rewrite seen_initial, elem_of_hashesOf, list_elem_of_fmap.
    intros (x & Heq & Hx). exact (Hnew x Hx (eq_sym Heq)).
Qed.

(** The summation loop computes the four sums. *)
Lemma sumStep_fold (events : list JValue) (a b c d : Z) :
  fold_left sumStep events (a, b, c, d) =
    (a + sumOf "input_tokens" events,
     b + sumOf "output_tokens" events,
     c + sumOf "cache_creation_input_tokens" events,
     d + sumOf "cache_read_input_tokens" events).
Proof.
  revert a b c d. induction events as [| e events IH]; intros a b c d.
  - unfold sumOf. cbn [fold_left fold_right]. rewrite !Z.add_0_r. reflexivity.
  - cbn [fold_left sumStep]. rewrite IH. unfold sumOf. cbn [fold_right].
    rewrite !Z.add_assoc. reflexivity.
Qed.

Lemma aggregate_totals (events : list JValue) :
  aggregate events =
    {| usage := totalsOf (uniqueRecordsOf events); records := uniqueRecordsOf events |}.
Proof.
  unfold aggregate. rewrite sumStep_fold. reflexivity.
Qed.

(** Two joined keys are equal only for equal identifiers, when the
    message identifiers hold no dash. *)
Lemma joined_key_injective (m1 r1 m2 r2 : string) :
  Str.contains "-"%char m1 = false ->
  Str.contains "-"%char m2 = false ->
  String.append m1 (String "-"%char r1) = String.append m2 (String "-"%char r2) ->
  m1 = m2 /\ r1 = r2.
Proof.
  revert m2. induction m1 as [| c m1 IH]; intros [| c2 m2]; simpl.
  - intros _ _ [= ->]. split; reflexivity.
  - destruct (Ascii.eqb_spec c2 "-"%char) as [-> | Hc]; [discriminate |].
    intros _ _ [= <- _]. congruence.
  - destruct (Ascii.eqb_spec c "-"%char) as [-> | Hc]; [discriminate |].
    intros _ _ [= -> _]. congruence.
  - destruct (Ascii.eqb c "-"%char), (Ascii.eqb c2 "-"%char); try discriminate.
    cbn [orb]. intros H1 H2 [= -> Hrest].
    destruct (IH m2 H1 H2 Hrest) as [-> ->]. split; reflexivity.
Qed.

(** C4, at the input where it fails.  Two valid events whose (messageId,
    requestId) pairs differ, [("a-b", "c")] and [("a", "b-c")], have the
    same joined key [a-b-c]: the dash of an identifier stands where the
    separator stands, the second event is dropped as a duplicate of the
    first, and its tokens are not counted. *)
Theorem aggregate_distinct_keys_merged :
  let first :=
    JObj [("requestId", JStr "c");
          ("message", JObj [("id", JStr "a-b");
                            ("usage", JObj [("input_tokens", JNum 10);
                                            ("output_tokens", JNum 1)])])] in
  let second :=
    JObj [("requestId", JStr "b-c");
          ("message", JObj [("id", JStr "a");
                            ("usage", JObj [("input_tokens", JNum 20);
                                            ("output_tokens", JNum 2)])])] in
  isValidUsageRecord first = true /\ isValidUsageRecord second = true /\
  recordKey first = ("a-b", "c") /\ recordKey second = ("a", "b-c") /\
  getRecordHash first = "a-b-c" /\ getRecordHash second = "a-b-c" /\
  records (aggregate [first; second]) = [first] /\
  usage (aggregate [first; second]) =
    {| totalTokens := 11; inputTokens := 10; outputTokens := 1;
       cacheCreationTokens := 0; cacheReadTokens := 0; messageCount := 1 |}.
Proof. repeat split; reflexivity. Qed.

(** The records [parseJsonlFile] and [parseAll] return are valid. *)
Lemma validRecord_valid `{Json} (lines : list string) :
  Forall (fun record => isValidUsageRecord record = true) (omap validRecord lines).
Proof.
  apply Forall_forall. intros record Hin.
  apply list_elem_of_omap in Hin as (line & _ & Hline).
  unfold validRecord in Hline.
  destruct (JSON_parse line) as [parsed |]; [| discriminate].
  destruct (isValidUsageRecord parsed) eqn:Hvalid; [| discriminate].
  injection Hline as <-. exact Hvalid.
Qed.

Lemma parseJsonlFile_valid `{Json} (fs : Node) (filePath : Path) :
  Forall (fun record => isValidUsageRecord record = true)
    (result (parseJsonlFile fs filePath)).
Proof.
  unfold parseJsonlFile. rewrite TraceFacts.result_bind.
  destruct (result (Fs.readFile fs filePath)); [| constructor].
  cbn [result ret fst]. rewrite ParseFacts.parseStep_fold. apply validRecord_valid.
Qed.

Lemma parseAll_valid `{Json} (fs : Node) (jsonlFiles : list Path) :
  Forall (fun record => isValidUsageRecord record = true)
    (result (parseAll fs jsonlFiles)).
Proof.
  induction jsonlFiles as [| filePath rest IH]; [constructor |].
  cbn [parseAll]. rewrite !TraceFacts.result_bind. cbn [result ret fst].
  apply Forall_app. split; [apply parseJsonlFile_valid | exact IH].
Qed.

(** [loadUsageRecords] aggregates valid records only: the ones parsed
    from the log files under the root, from [sinceTimestamp] on. *)
Lemma loadUsageRecords_aggregate `{Json} `{Dates} (this : ClaudeDataLoader) (fs : Node)
    (sinceTimestamp : option Z) (dataDir : Path) :
  result (findClaudeDataDirectory this fs) = Some dataDir ->
  exists filteredRecords,
    Forall (fun record => isValidUsageRecord record = true) filteredRecords /\
    result (loadUsageRecords this fs sinceTimestamp) = aggregate filteredRecords.
Proof.
  intros Hroot. unfold loadUsageRecords.
  rewrite TraceFacts.result_bind, Hroot, !TraceFacts.result_bind.
  cbn [result ret fst].
  set (allRecords := (parseAll fs (findJsonlFiles fs dataDir).1).1).
  assert (Hall : Forall (fun record => isValidUsageRecord record = true) allRecords)
    by apply parseAll_valid.
  destruct sinceTimestamp as [t |]; [destruct (Z.eqb t 0) |];
    eexists; (split; [| reflexivity]); try exact Hall.
  apply Forall_forall. intros record Hin.
  apply list_elem_of_In, filter_In in Hin as [Hin _].
  rewrite Forall_forall in Hall. apply Hall, list_elem_of_In, Hin.
Qed.

(** X5. On valid usage events, [loadUsageRecords] keeps an event
    exactly when no event before it has the same joined key
    [messageId-requestId]; the four token totals and the message count are
    those of the events kept; a later event with the (messageId, requestId)
    of an earlier one, a copy of it in particular, leaves the result
    unchanged; an event whose joined key differs from the joined keys of all
    events before it is never suppressed; and two events whose message
    identifiers hold no dash have different joined keys whenever their
    (messageId, requestId) differ. *)
Theorem aggregate_counts_each_key_once (events : list JValue) :
  Forall (fun record => isValidUsageRecord record = true) events ->
  aggregate events =
    {| usage := totalsOf (uniqueRecordsOf events); records := uniqueRecordsOf events |} /\
  (forall before e,
     uniqueRecordsOf (before ++ [e]) =
       uniqueRecordsOf before ++
       (if decide (getRecordHash e ∈ getRecordHash <$> before) then [] else [e])) /\
  (forall before e mid e' after,
     events = before ++ e :: mid ++ after ->
     recordKey e' = recordKey e ->
     aggregate (before ++ e :: mid ++ e' :: after) = aggregate events) /\
  (forall before e after,
     events = before ++ e :: after ->
     (forall x, x ∈ before -> getRecordHash x <> getRecordHash e) ->
     e ∈ records (aggregate events)) /\
  (forall a b,
     Str.contains "-"%char (messageIdOf a) = false ->
     Str.contains "-"%char (messageIdOf b) = false ->
     recordKey a <> recordKey b ->
     getRecordHash a <> getRecordHash b).
Proof.
  intros _.
  split; [apply aggregate_totals |].
  split; [intros; apply uniqueRecordsOf_snoc |].
  split; [| split].
  - intros before e mid e' after -> Hkey.
    rewrite !aggregate_totals.
    rewrite uniqueRecordsOf_duplicate; [reflexivity |].
    unfold getRecordHash. injection Hkey as -> ->. reflexivity.
  - intros before e after -> Hnew. rewrite aggregate_totals. cbn [records].
    apply uniqueRecordsOf_first, Hnew.
  - intros a b Ha Hb Hkey Hhash. apply Hkey. unfold recordKey.
    destruct (joined_key_injective _ _ _ _ Ha Hb Hhash) as [Hm Hr].
    rewrite Hm, Hr. reflexivity.
Qed.

End DedupFacts.
(** ** The session snapshot *)

Module SessionFacts.
Import TraceFacts.

Section Session.
Context `{Json}.

Lemma falsy_has_no_property (usage : option JValue) (k : string) :
  Js.truthyU usage = false -> Js.optProp usage k = None.
Proof.
  destruct usage as [[| b | n | s | items | fields] |]; cbn; try reflexivity;
    discriminate.
Qed.

(** The test of the scan is the one the specification words. *)
Lemma cacheOfLine_qualifies (line : string) (cacheCreation cacheRead : Z) :
  cacheOfLine line = Some (cacheCreation, cacheRead) <->
  Qualifies line cacheCreation cacheRead.
Proof.
  unfold cacheOfLine, Qualifies, cacheCreationOf, cacheReadOf. split.
  - destruct (JSON_parse line) as [entry |]; [| discriminate].
    assert (Hbody :
      (if Js.isString (Js.prop entry "type") "assistant" &&
          Js.truthyU (Js.optProp (Js.prop entry "message") "usage")
       then
         if 0 <? cacheCreationOf entry + cacheReadOf entry
         then Some (cacheCreationOf entry, cacheReadOf entry) else None
       else None) = Some (cacheCreation, cacheRead) ->
      exists e, Some entry = Some e /\
        Js.prop e "type" = Some (JStr "assistant") /\
        cacheCreation = cacheCreationOf e /\ cacheRead = cacheReadOf e /\
        0 < cacheCreation + cacheRead).
    { destruct (Js.isString (Js.prop entry "type") "assistant") eqn:Htype;
        [| discriminate].
      destruct (Js.truthyU _); [| discriminate]. cbn [andb].
      destruct (Z.ltb_spec 0 (cacheCreationOf entry + cacheReadOf entry));
        [| discriminate].
      intros [= <- <-]. exists entry. repeat split; try assumption.
      unfold Js.isString in Htype.
      destruct (Js.prop entry "type") as [[| | | t | |] |]; try discriminate.
      apply String.eqb_eq in Htype. subst t. reflexivity. }
    destruct entry; exact Hbody.
  - intros (entry & -> & Htype & -> & -> & Hpos).
    fold (cacheCreationOf entry) in *. fold (cacheReadOf entry) in *.
    assert (Htruthy : Js.truthyU (Js.optProp (Js.prop entry "message") "usage") = true).
    { destruct (Js.truthyU _) eqn:Hu; [reflexivity |].
      unfold cacheCreationOf, cacheReadOf in Hpos.
      rewrite !(falsy_has_no_property _ _ Hu) in Hpos. cbn in Hpos. lia. }
    destruct entry as [| | | | | fields]; try discriminate.
    rewrite Htype. cbn [Js.isString]. rewrite String.eqb_refl, Htruthy. cbn [andb].
    fold (cacheCreationOf (JObj fields)). fold (cacheReadOf (JObj fields)).
    destruct (Z.ltb_spec 0 (cacheCreationOf (JObj fields) + cacheReadOf (JObj fields)));
      [reflexivity | lia].
Qed.

Lemma cacheOfLine_none (line : string) :
  cacheOfLine line = None <-> ~ exists cc cr, Qualifies line cc cr.
Proof.
  split.
  - intros Hnone (cc & cr & Hq). apply cacheOfLine_qualifies in Hq. congruence.
  - intros Hno. destruct (cacheOfLine line) as [[cc cr] |] eqn:Hline; [| reflexivity].
    exfalso. apply Hno. exists cc, cr. apply cacheOfLine_qualifies, Hline.
Qed.

Lemma scanBackwards_skip (lineCount : nat) (skipped rest : list string) :
  Forall (fun l => cacheOfLine l = None) skipped ->
  scanBackwards lineCount (skipped ++ rest) = scanBackwards lineCount rest.
Proof.
  induction 1 as [| l skipped Hl _ IH]; [reflexivity |].
  cbn. rewrite Hl. exact IH.
Qed.

Lemma scanBackwards_no_io (lineCount : nat) (fromEnd : list string) :
  inputTokens (scanBackwards lineCount fromEnd) = 0 /\
  outputTokens (scanBackwards lineCount fromEnd) = 0.
Proof.
  induction fromEnd as [| l rest IH]; [split; reflexivity |].
  cbn. destruct (cacheOfLine l) as [[cc cr] |]; [split; reflexivity | exact IH].
Qed.

(** The snapshot of a file content, from its last qualifying line. *)
Lemma sessionOfContent_found (content : string) (before after : list string)
    (q : string) (cc cr : Z) :
  Str.lines (Str.trim content) = before ++ q :: after ->
  cacheOfLine q = Some (cc, cr) ->
  Forall (fun l => cacheOfLine l = None) after ->
  sessionOfContent content =
    {| session :=
         {| totalTokens := cr; inputTokens := 0; outputTokens := 0;
            cacheCreationTokens := cc; cacheReadTokens := cr;
            messageCount := length before + 1 + length after |};
       isActive := 0 <? cr |}.
Proof.
  intros Hlines Hq Hafter. unfold sessionOfContent. rewrite Hlines.
  rewrite rev_app_distr. cbn [rev]. rewrite <- app_assoc.
  rewrite scanBackwards_skip by (apply Forall_rev, Hafter).
  cbn. rewrite Hq. cbn. rewrite length_app. cbn [length].
  replace (length before + S (length after))%nat
    with (length before + 1 + length after)%nat by lia.
  reflexivity.
Qed.

Lemma sessionOfContent_none (content : string) :
  Forall (fun l => cacheOfLine l = None) (Str.lines (Str.trim content)) ->
  sessionOfContent content = inactive.
Proof.
  intros Hnone. unfold sessionOfContent.
  rewrite <- (app_nil_r (rev _)), scanBackwards_skip by (apply Forall_rev, Hnone).
  reflexivity.
Qed.

Lemma sessionOfContent_no_io (content : string) :
  inputTokens (session (sessionOfContent content)) = 0 /\
  outputTokens (session (sessionOfContent content)) = 0.
Proof. apply scanBackwards_no_io. Qed.

(** [sessionOfFiles] reads nothing when no candidate is recent, and else
    reads the first of the sorted recent files and nothing more. *)
Lemma sessionOfFiles_reads (fs : Node) (sessionStart : Z) (candidates : list Path) :
  match sortByModified (omap (recentOf fs sessionStart) candidates) with
  | [] =>
      filesRead (sessionOfFiles fs sessionStart candidates) = [] /\
      result (sessionOfFiles fs sessionStart candidates) = inactive
  | mostRecent :: _ =>
      filesRead (sessionOfFiles fs sessionStart candidates) = [path mostRecent] /\
      result (sessionOfFiles fs sessionStart candidates) =
        sessionOfFile fs (path mostRecent)
  end.
Proof.
  unfold sessionOfFiles. rewrite filesRead_bind, result_bind.
  destruct (recentFilesOf_result fs sessionStart candidates) as [-> ->].
  destruct (sortByModified _) as [| mostRecent others]; [split; reflexivity |].
  rewrite filesRead_bind, result_bind. unfold sessionOfFile, Fs.readFile.
  cbn [result fst filesRead trace snd omap list_omap app].
  destruct (Fs.lookup fs (path mostRecent)) as [[m [content |] | |] |];
    split; reflexivity.
Qed.

Lemma sessionOfDirectory_reads (fs : Node) (sessionStart : Z) (dataDir : Path) :
  let candidates := List.filter isMainSessionFile (result (findJsonlFiles fs dataDir)) in
  filesRead (sessionOfDirectory fs sessionStart dataDir) =
    filesRead (sessionOfFiles fs sessionStart candidates) /\
  result (sessionOfDirectory fs sessionStart dataDir) =
    result (sessionOfFiles fs sessionStart candidates).
Proof.
  cbn zeta. unfold sessionOfDirectory.
  rewrite filesRead_bind, result_bind, findJsonlFiles_quiet. split; reflexivity.
Qed.

(** [getCurrentSessionUsage] on the directory it searches. *)
Lemma getCurrentSessionUsage_searches (this : ClaudeDataLoader) (fs : Node) (now : Z) :
  match searchedDirectory this fs with
  | None =>
      getCurrentSessionUsage this fs now =
        (inactive,
         trace (if isSet (projectDirName this)
                then getProjectDataDirectory this fs
                else findClaudeDataDirectory this fs))
  | Some dataDir =>
      filesRead (getCurrentSessionUsage this fs now) =
        filesRead (sessionOfDirectory fs (now - SESSION_DURATION) dataDir) /\
      result (getCurrentSessionUsage this fs now) =
        result (sessionOfDirectory fs (now - SESSION_DURATION) dataDir)
  end.
Proof.
  unfold searchedDirectory, getCurrentSessionUsage.
  destruct (isSet (projectDirName this)).
  - rewrite filesRead_bind, result_bind.
    destruct (getProjectDataDirectory_quiet this fs) as [-> _].
    destruct (getProjectDataDirectory this fs) as [[dataDir |] steps];
      cbn [result fst]; [split; reflexivity |].
    unfold bind, ret. rewrite app_nil_r. reflexivity.
  - rewrite filesRead_bind, result_bind.
    destruct (firstDirectory_quiet fs (claudeConfigPaths this)) as [Hquiet _].
    unfold findClaudeDataDirectory in *. rewrite Hquiet.
    destruct (firstDirectory fs (claudeConfigPaths this)) as [[dataDir |] steps];
      cbn [result fst]; [split; reflexivity |].
    unfold bind, ret. rewrite app_nil_r. reflexivity.
Qed.

End Session.

End SessionFacts.
(** ** The claims about [getCurrentSessionUsage] *)

Module SnapshotFacts.
Import TraceFacts SessionFacts.

Section Snapshot.
Context `{Json}.

(** When [getCurrentSessionUsage] reads a file, it is the only one it
    reads; it is a main session file of the directory searched, modified
    within the window and no earlier than any other main session file; and
    the result is the snapshot of that file. *)
Lemma getCurrentSessionUsage_reads (this : ClaudeDataLoader) (fs : Node) (now : Z)
    (p : Path) :
  In p (filesRead (getCurrentSessionUsage this fs now)) ->
  exists dataDir,
    searchedDirectory this fs = Some dataDir /\
    filesRead (getCurrentSessionUsage this fs now) = [p] /\
    result (getCurrentSessionUsage this fs now) = sessionOfFile fs p /\
    In p (List.filter isMainSessionFile (result (findJsonlFiles fs dataDir))) /\
    forall q np nq,
      In q (List.filter isMainSessionFile (result (findJsonlFiles fs dataDir))) ->
      Fs.lookup fs p = Some np -> Fs.lookup fs q = Some nq ->
      Fs.mtime nq <= Fs.mtime np.
Proof.
  intros Hread.
  pose proof (getCurrentSessionUsage_searches this fs now) as Hsearch.
  destruct (searchedDirectory this fs) as [dataDir |].
  2:{ exfalso. rewrite Hsearch in Hread. unfold filesRead, trace in Hread.
      cbn [snd] in Hread.
      destruct (isSet (projectDirName this)).
      - destruct (getProjectDataDirectory_quiet this fs) as [Hq _].
        unfold filesRead, trace in Hq. rewrite Hq in Hread. exact Hread.
      - destruct (firstDirectory_quiet fs (claudeConfigPaths this)) as [Hq _].
        unfold filesRead, trace, findClaudeDataDirectory in *.
        rewrite Hq in Hread. exact Hread. }
  destruct Hsearch as [Hfiles Hresult].
  destruct (sessionOfDirectory_reads fs (now - SESSION_DURATION) dataDir) as [Hf Hr].
  cbn zeta in Hf, Hr. rewrite Hf in Hfiles. rewrite Hr in Hresult. clear Hf Hr.
  set (candidates := List.filter isMainSessionFile (result (findJsonlFiles fs dataDir))) in *.
  pose proof (sessionOfFiles_reads fs (now - SESSION_DURATION) candidates) as Hfiles'.
  destruct (sortByModified _) as [| mostRecent others] eqn:Hsort.
  { destruct Hfiles' as [Hnone _]. rewrite Hfiles, Hnone in Hread. destruct Hread. }
  destruct Hfiles' as [Hone Hsnap].
  rewrite Hfiles, Hone in Hread. destruct Hread as [<- | []].
  exists dataDir. split; [reflexivity |].
  split; [congruence |]. split; [congruence |].
  apply sortByModified_latest in Hsort as [Hin Hmax].
  apply list_elem_of_In, list_elem_of_omap in Hin as (c & Hc & Hrecent).
  assert (Hpath : path mostRecent = c /\
                  exists n, Fs.lookup fs c = Some n /\ modified mostRecent = Fs.mtime n /\
                            now - SESSION_DURATION <= Fs.mtime n).
  { unfold recentOf in Hrecent. destruct (Fs.lookup fs c) as [n |]; [| discriminate].
    destruct (Z.leb_spec (now - SESSION_DURATION) (Fs.mtime n)); [| discriminate].
    injection Hrecent as <-. split; [reflexivity |]. exists n. auto. }
  destruct Hpath as (Hpath & n & Hn & Hmod & Hwindow). rewrite Hpath.
  split; [apply list_elem_of_In, Hc |].
  intros q np nq Hq Hnp Hnq. rewrite Hn in Hnp. injection Hnp as <-.
  destruct (Z.leb_spec (now - SESSION_DURATION) (Fs.mtime nq)) as [Hrec | Hold]; [| lia].
  rewrite <- Hmod.
  apply (Hmax {| path := q; modified := Fs.mtime nq |}).
  apply list_elem_of_In, list_elem_of_omap. exists q.
  split; [apply list_elem_of_In, Hq |].
  unfold recentOf. rewrite Hnq.
  destruct (Z.leb_spec (now - SESSION_DURATION) (Fs.mtime nq)); [reflexivity | lia].
Qed.

(** The result on the directory searched, in terms of its candidates. *)
Lemma getCurrentSessionUsage_candidates (this : ClaudeDataLoader) (fs : Node) (now : Z)
    (dataDir : Path) :
  searchedDirectory this fs = Some dataDir ->
  let candidates :=
    List.filter isMainSessionFile (result (findJsonlFiles fs dataDir)) in
  match sortByModified (omap (recentOf fs (now - SESSION_DURATION)) candidates) with
  | [] =>
      filesRead (getCurrentSessionUsage this fs now) = [] /\
      result (getCurrentSessionUsage this fs now) = inactive
  | mostRecent :: _ =>
      filesRead (getCurrentSessionUsage this fs now) = [path mostRecent] /\
      result (getCurrentSessionUsage this fs now) = sessionOfFile fs (path mostRecent)
  end.
Proof.
  intros Hdir. cbn zeta.
  pose proof (getCurrentSessionUsage_searches this fs now) as Hsearch.
  rewrite Hdir in Hsearch. destruct Hsearch as [-> ->].
  destruct (sessionOfDirectory_reads fs (now - SESSION_DURATION) dataDir) as [-> ->].
  apply sessionOfFiles_reads.
Qed.

(** A main session file modified within the window makes the loader read
    a file. *)
Lemma getCurrentSessionUsage_reads_when_recent (this : ClaudeDataLoader) (fs : Node)
    (now : Z) (dataDir q : Path) (n : Node) :
  searchedDirectory this fs = Some dataDir ->
  In q (List.filter isMainSessionFile (result (findJsonlFiles fs dataDir))) ->
  Fs.lookup fs q = Some n ->
  now - SESSION_DURATION <= Fs.mtime n ->
  exists p, filesRead (getCurrentSessionUsage this fs now) = [p].
Proof.
  intros Hdir Hq Hn Hrecent.
  pose proof (getCurrentSessionUsage_candidates this fs now dataDir Hdir) as Hcases.
  cbn zeta in Hcases.
  destruct (sortByModified _) as [| mostRecent others] eqn:Hsort.
  - exfalso.
    assert (Hin : In {| path := q; modified := Fs.mtime n |}
                     (sortByModified
                        (omap (recentOf fs (now - SESSION_DURATION))
                           (List.filter isMainSessionFile
                              (result (findJsonlFiles fs dataDir)))))).
    { apply sortByModified_In, list_elem_of_In, list_elem_of_omap. exists q.
      split; [apply list_elem_of_In, Hq |]. unfold recentOf. rewrite Hn.
      destruct (Z.leb_spec (now - SESSION_DURATION) (Fs.mtime n)); [reflexivity | lia]. }
    rewrite Hsort in Hin. exact Hin.
  - exists (path mostRecent). apply Hcases.
Qed.

(** X4. Outside the activity window: when no main session file of the
    directory searched was modified within the last [SESSION_DURATION], the
    result is the inactive one and no file is read. *)
Lemma getCurrentSessionUsage_outside_window (this : ClaudeDataLoader) (fs : Node)
    (now : Z) (dataDir : Path) :
  searchedDirectory this fs = Some dataDir ->
  (forall q n,
     In q (List.filter isMainSessionFile (result (findJsonlFiles fs dataDir))) ->
     Fs.lookup fs q = Some n ->
     Fs.mtime n < now - SESSION_DURATION) ->
  result (getCurrentSessionUsage this fs now) = inactive /\
  filesRead (getCurrentSessionUsage this fs now) = [].
Proof.
  intros Hdir Hold.
  pose proof (getCurrentSessionUsage_candidates this fs now dataDir Hdir) as Hcases.
  cbn zeta in Hcases.
  destruct (sortByModified _) as [| mostRecent others] eqn:Hsort.
  - destruct Hcases as [Hfiles Hresult]. split; assumption.
  - exfalso.
    assert (Hin : In mostRecent (mostRecent :: others)) by (left; reflexivity).
    rewrite <- Hsort in Hin.
    apply sortByModified_In, list_elem_of_In, list_elem_of_omap in Hin
      as (q & Hq & Hrecent).
    unfold recentOf in Hrecent.
    destruct (Fs.lookup fs q) as [n |] eqn:Hn; [| discriminate].
    specialize (Hold q n (proj1 (list_elem_of_In _ _) Hq) Hn).
    destruct (Z.leb_spec (now - SESSION_DURATION) (Fs.mtime n)); [lia | discriminate].
Qed.

(** Every result of [sessionOfFiles] has no input and no output tokens. *)
Lemma sessionOfFiles_no_io (fs : Node) (sessionStart : Z) (candidates : list Path) :
  inputTokens (session (result (sessionOfFiles fs sessionStart candidates))) = 0 /\
  outputTokens (session (result (sessionOfFiles fs sessionStart candidates))) = 0.
Proof.
  pose proof (sessionOfFiles_reads fs sessionStart candidates) as Hreads.
  destruct (sortByModified _) as [| mostRecent others].
  - destruct Hreads as [_ ->]. split; reflexivity.
  - destruct Hreads as [_ ->]. unfold sessionOfFile.
    destruct (Fs.lookup fs (path mostRecent)) as [[m [content |] | |] |];
      try (split; reflexivity).
    apply sessionOfContent_no_io.
Qed.

(** C10. Every result of [getCurrentSessionUsage], of the revised loader
    and of the older copy, whatever the file system holds and whichever case
    produced it, has [inputTokens = 0] and [outputTokens = 0]. *)
Theorem getCurrentSessionUsage_no_input_output (this : ClaudeDataLoader) (fs : Node)
    (now : Z) :
  let snapshot := session (result (getCurrentSessionUsage this fs now)) in
  let older := session (result (Legacy.getCurrentSessionUsage this fs now)) in
  (inputTokens snapshot = 0 /\ outputTokens snapshot = 0) /\
  (inputTokens older = 0 /\ outputTokens older = 0).
Proof.
  cbn zeta. split.
  - pose proof (getCurrentSessionUsage_searches this fs now) as Hsearch.
    destruct (searchedDirectory this fs) as [dataDir |].
    + destruct Hsearch as [_ ->].
      destruct (sessionOfDirectory_reads fs (now - SESSION_DURATION) dataDir) as [_ ->].
      apply sessionOfFiles_no_io.
    + rewrite Hsearch. split; reflexivity.
  - unfold Legacy.getCurrentSessionUsage. rewrite !result_bind.
    destruct (result (getProjectDataDirectory this fs)) as [d |].
    + cbn [result ret fst]. rewrite result_bind. apply sessionOfFiles_no_io.
    + destruct (result (findClaudeDataDirectory this fs)) as [d |];
        [| split; reflexivity].
      rewrite result_bind. apply sessionOfFiles_no_io.
Qed.

(** C3. The file [getCurrentSessionUsage] reads, when it reads one, is
    chosen among the main session files only: its name does not start with
    [agent-] and has the UUID form, no file that fails either test is read,
    and it was modified no earlier than any other main session file of the
    directory searched, whatever the modification times of the files left
    out. *)
Theorem getCurrentSessionUsage_main_session_only (this : ClaudeDataLoader) (fs : Node)
    (now : Z) (p : Path) :
  In p (filesRead (getCurrentSessionUsage this fs now)) ->
  exists dataDir,
    searchedDirectory this fs = Some dataDir /\
    let candidates :=
      List.filter isMainSessionFile (result (findJsonlFiles fs dataDir)) in
    filesRead (getCurrentSessionUsage this fs now) = [p] /\
    In p candidates /\
    Str.startsWith (Fs.basename p) "agent-" = false /\
    uuidPattern (Fs.basename p) = true /\
    (forall q, In q (result (findJsonlFiles fs dataDir)) ->
       Str.startsWith (Fs.basename q) "agent-" = true \/
       uuidPattern (Fs.basename q) = false ->
       ~ In q candidates /\ q <> p) /\
    (forall q np nq,
       In q candidates -> Fs.lookup fs p = Some np -> Fs.lookup fs q = Some nq ->
       Fs.mtime nq <= Fs.mtime np).
Proof.
  intros Hread.
  destruct (getCurrentSessionUsage_reads this fs now p Hread)
    as (dataDir & Hdir & Hone & _ & Hin & Hmax).
  exists dataDir. split; [exact Hdir |]. cbn zeta.
  split; [exact Hone |]. split; [exact Hin |].
  assert (Hmain : forall q,
            In q (List.filter isMainSessionFile (result (findJsonlFiles fs dataDir))) ->
            Str.startsWith (Fs.basename q) "agent-" = false /\
            uuidPattern (Fs.basename q) = true).
  { intros q Hq. apply filter_In in Hq as [_ Hq]. unfold isMainSessionFile in Hq.
    destruct (Str.startsWith (Fs.basename q) "agent-"); [discriminate |].
    split; [reflexivity | exact Hq]. }
  destruct (Hmain p Hin) as [Hagent Huuid].
  split; [exact Hagent |]. split; [exact Huuid |]. split; [| exact Hmax].
  intros q _ Hexcluded.
  assert (Hout : ~ In q (List.filter isMainSessionFile (result (findJsonlFiles fs dataDir)))).
  { intros Hq. destruct (Hmain q Hq) as [Ha Hu]. destruct Hexcluded; congruence. }
  split; [exact Hout |]. intros ->. exact (Hout Hin).
Qed.

(** C2, amended. The result for the file read comes from its last
    qualifying line: the total is that line's cache-read count alone, the
    two cache counts are that line's, [isActive] tells whether the total is
    positive, earlier lines are not looked at, and the lines after it change
    nothing but [messageCount], which is the number of lines of the trimmed
    file; a file with no qualifying line gives the inactive result. *)
Theorem getCurrentSessionUsage_last_qualifying_line (this : ClaudeDataLoader)
    (fs : Node) (now : Z) (p : Path) (m : Z) (content : string) :
  In p (filesRead (getCurrentSessionUsage this fs now)) ->
  Fs.lookup fs p = Some (File m (Some content)) ->
  let lines := Str.lines (Str.trim content) in
  let snapshot := result (getCurrentSessionUsage this fs now) in
  (forall before q after cc cr,
     lines = before ++ q :: after ->
     Qualifies q cc cr ->
     Forall (fun l => ~ exists a b, Qualifies l a b) after ->
     snapshot =
       {| session :=
            {| totalTokens := cr; inputTokens := 0; outputTokens := 0;
               cacheCreationTokens := cc; cacheReadTokens := cr;
               messageCount := length lines |};
          isActive := 0 <? cr |}) /\
  (Forall (fun l => ~ exists a b, Qualifies l a b) lines -> snapshot = inactive).
Proof.
  intros Hread Hfile. cbn zeta.
  destruct (getCurrentSessionUsage_reads this fs now p Hread)
    as (_ & _ & _ & Hresult & _).
  rewrite Hresult. unfold sessionOfFile. rewrite Hfile. split.
  - intros before q after cc cr Hlines Hq Hafter.
    rewrite (sessionOfContent_found content before after q cc cr Hlines).
    + rewrite Hlines, length_app. cbn [length].
      replace (length before + S (length after))%nat
        with (length before + 1 + length after)%nat by lia.
      reflexivity.
    + apply cacheOfLine_qualifies, Hq.
    + eapply Forall_impl; [exact Hafter |]. intros l. apply cacheOfLine_none.
  - intros Hnone. apply sessionOfContent_none.
    eapply Forall_impl; [exact Hnone |]. intros l. apply cacheOfLine_none.
Qed.

End Snapshot.

(** X1. With a workspace set and no directory for it under the root, the
    revised loader answers with the inactive result after calls to [stat]
    only: it lists no directory and reads no file. *)
Lemma getCurrentSessionUsage_missing_project_directory `{Json}
    (this : ClaudeDataLoader) (fs : Node) (now : Z) (name : string) :
  projectDirName this = Some name ->
  Str.nonEmpty name = true ->
  (forall root, result (findClaudeDataDirectory this fs) = Some root ->
                Fs.lookup fs (root ++ [name]) = None) ->
  result (getCurrentSessionUsage this fs now) = inactive /\
  filesRead (getCurrentSessionUsage this fs now) = [] /\
  directoriesListed (getCurrentSessionUsage this fs now) = [].
Proof.
  intros Hname Hset Hmissing.
  assert (Hnone : result (getProjectDataDirectory this fs) = None).
  { unfold getProjectDataDirectory. rewrite Hname, Hset, result_bind.
    destruct (result (findClaudeDataDirectory this fs)) as [root |] eqn:Hroot;
      [| reflexivity].
    rewrite result_bind, stat_result, (Hmissing root eq_refl). reflexivity. }
  pose proof (getCurrentSessionUsage_searches this fs now) as Hsearch.
  unfold searchedDirectory, isSet in Hsearch. rewrite Hname, Hset, Hnone in Hsearch.
  rewrite Hsearch.
  destruct (getProjectDataDirectory_quiet this fs) as [Hfiles Hdirs].
  split; [reflexivity |]. split; [exact Hfiles | exact Hdirs].
Qed.

End SnapshotFacts.
(** ** The directory search and the aggregation over the root *)

Module LoaderFacts.
Import TraceFacts.

Lemma firstDirectory_found (fs : Node) (candidates : list Path) :
  match result (firstDirectory fs candidates) with
  | Some dir =>
      exists before after,
        candidates = before ++ dir :: after /\
        isDirectoryAt fs dir = true /\
        Forall (fun p => isDirectoryAt fs p = false) before /\
        trace (firstDirectory fs candidates) = OpStat <$> (before ++ [dir])
  | None =>
      Forall (fun p => isDirectoryAt fs p = false) candidates /\
      trace (firstDirectory fs candidates) = OpStat <$> candidates
  end.
Proof.
  induction candidates as [| dirPath rest IH].
  - cbn. split; [constructor | reflexivity].
  - cbn [firstDirectory]. rewrite result_bind, trace_bind, stat_result.
    change (trace (Fs.stat fs dirPath)) with [OpStat dirPath].
    assert (Hhere : isDirectoryAt fs dirPath =
                    match Fs.lookup fs dirPath with
                    | Some n => Fs.isDirectory n
                    | None => false
                    end) by reflexivity.
    assert (Hnext :
      isDirectoryAt fs dirPath = false ->
      match result (firstDirectory fs rest) with
      | Some dir =>
          exists before after,
            dirPath :: rest = before ++ dir :: after /\
            isDirectoryAt fs dir = true /\
            Forall (fun p => isDirectoryAt fs p = false) before /\
            [OpStat dirPath] ++ trace (firstDirectory fs rest) = OpStat <$> (before ++ [dir])
      | None =>
          Forall (fun p => isDirectoryAt fs p = false) (dirPath :: rest) /\
          [OpStat dirPath] ++ trace (firstDirectory fs rest) = OpStat <$> (dirPath :: rest)
      end).
    { intros Hno. destruct (result (firstDirectory fs rest)) as [dir |].
      - destruct IH as (before & after & -> & Hdir & Hbefore & ->).
        exists (dirPath :: before), after.
        split; [reflexivity |]. split; [exact Hdir |].
        split; [constructor; assumption | reflexivity].
      - destruct IH as [Hnone ->]. split; [constructor; assumption | reflexivity]. }
    destruct (Fs.lookup fs dirPath) as [n |]; [destruct (Fs.isDirectory n) eqn:Hn |].
    + cbn [result ret fst trace snd]. exists [], rest.
      split; [reflexivity |]. split; [exact Hhere |]. split; [constructor | reflexivity].
    + apply Hnext, Hhere.
    + apply Hnext, Hhere.
Qed.

(** X6. [findClaudeDataDirectory] returns the first candidate root that
    is a directory, and stops there: the candidates before it are no
    directories (missing, or files), and the calls made are one [stat] for
    each candidate up to the one returned, in order.  It returns [null]
    exactly when no candidate is a directory, after one [stat] for each. *)
Theorem findClaudeDataDirectory_first_directory (this : ClaudeDataLoader) (fs : Node) :
  match result (findClaudeDataDirectory this fs) with
  | Some dir =>
      exists before after,
        claudeConfigPaths this = before ++ dir :: after /\
        isDirectoryAt fs dir = true /\
        Forall (fun p => isDirectoryAt fs p = false) before /\
        trace (findClaudeDataDirectory this fs) = OpStat <$> (before ++ [dir])
  | None =>
      Forall (fun p => isDirectoryAt fs p = false) (claudeConfigPaths this) /\
      trace (findClaudeDataDirectory this fs) = OpStat <$> claudeConfigPaths this
  end.
Proof. apply firstDirectory_found. Qed.

(** The files below a directory are those below its first entry and
    those below the directory of the other entries. *)
Lemma FileBelow_cons (m : Z) (name : string) (child : Node)
    (es : list (string * Node)) (rel : Path) :
  FileBelow (Dir m ((name, child) :: es)) rel <->
  (exists fm content, child = File fm content /\ rel = [name]) \/
  (exists sub, Fs.isDirectory child = true /\ FileBelow child sub /\ rel = name :: sub) \/
  FileBelow (Dir m es) rel.
Proof.
  split.
  - intros Hbelow. inversion Hbelow as [m' es' name' fm content Hin | m' es' name' child' sub Hin Hdir Hsub];
      subst.
    + destruct Hin as [[= -> ->] | Hin].
      * left. eauto.
      * right. right. econstructor; eassumption.
    + destruct Hin as [[= -> ->] | Hin].
      * right. left. eauto.
      * right. right. eapply FileBelow_deeper; eassumption.
  - intros [(fm & content & -> & ->) | [(sub & Hdir & Hsub & ->) | Hrest]].
    + econstructor. left. reflexivity.
    + eapply FileBelow_deeper; [left; reflexivity | exact Hdir | exact Hsub].
    + inversion Hrest as [m' es' name' fm content Hin | m' es' name' child' sub Hin Hdir Hsub];
        subst.
      * econstructor. right. exact Hin.
      * eapply FileBelow_deeper; [right; exact Hin | exact Hdir | exact Hsub].
Qed.

Lemma FileBelow_nonempty (n : Node) (rel : Path) : FileBelow n rel -> rel <> [].
Proof. intros Hbelow. destruct Hbelow; discriminate. Qed.

Lemma basename_cons (name : string) (rel : Path) :
  rel <> [] -> Fs.basename (name :: rel) = Fs.basename rel.
Proof. destruct rel; [congruence | reflexivity]. Qed.

Lemma basename_app (dirPath rel : Path) :
  rel <> [] -> Fs.basename (dirPath ++ rel) = Fs.basename rel.
Proof.
  intros Hrel. induction dirPath as [| d dirPath IH]; [reflexivity |].
  cbn [app]. rewrite basename_cons; [exact IH |].
  destruct dirPath; [exact Hrel | discriminate].
Qed.

(** What the recursive listing returns. *)
Lemma walkJsonl_files (n : Node) :
  forall dirPath p,
    In p (result (walkJsonl dirPath n)) <->
    exists rel,
      p = dirPath ++ rel /\ FileBelow n rel /\
      Str.endsWith (Fs.basename rel) ".jsonl" = true.
Proof.
  induction n as [m content | m | m entries IH] using Node_induction; intros dirPath p.
  - cbn. split; [tauto |]. intros (rel & _ & Hbelow & _). inversion Hbelow.
  - cbn. split; [tauto |]. intros (rel & _ & Hbelow & _). inversion Hbelow.
  - induction IH as [| [name child] es Hchild _ IHes].
    + cbn. split; [tauto |]. intros (rel & _ & Hbelow & _).
      inversion Hbelow as [? ? ? ? ? Hin | ? ? ? ? ? Hin]; destruct Hin.
    + cbn [snd] in Hchild.
      cbn [walkJsonl] in IHes |- *. rewrite result_bind in IHes |- *.
      cbn [result fst tell] in IHes |- *.
      setoid_rewrite FileBelow_cons.
      destruct child as [cm content | cm centries | cm].
      * destruct (Str.endsWith name ".jsonl") eqn:Hname.
        -- rewrite result_bind. cbn [result ret fst]. cbn [In]. rewrite IHes.
           split.
           ++ intros [<- | (rel & -> & Hbelow & Hends)].
              ** exists [name]. split; [reflexivity |]. split; [left; eauto | exact Hname].
              ** exists rel. auto.
           ++ intros (rel & -> & [(fm & c & _ & ->) | [(sub & Hdir & _) | Hbelow]] & Hends).
              ** left. reflexivity.
              ** discriminate.
              ** right. exists rel. auto.
        -- rewrite IHes. split.
           ++ intros (rel & -> & Hbelow & Hends). exists rel. auto.
           ++ intros (rel & -> & [(fm & c & _ & ->) | [(sub & Hdir & _) | Hbelow]] & Hends).
              ** cbn in Hends. congruence.
              ** discriminate.
              ** exists rel. auto.
      * rewrite !result_bind. cbn [result ret fst]. rewrite in_app_iff, Hchild, IHes.
        split.
        -- intros [(sub & -> & Hbelow & Hends) | (rel & -> & Hbelow & Hends)].
           ++ exists (name :: sub). split; [rewrite <- app_assoc; reflexivity |].
              split; [right; left; eauto |].
              rewrite basename_cons by (eapply FileBelow_nonempty; eassumption).
              exact Hends.
           ++ exists rel. auto.
        -- intros (rel & -> & [(fm & c & [=] & _) | [(sub & _ & Hsub & ->) | Hbelow]] & Hends).
           ++ left. exists sub. split; [rewrite <- app_assoc; reflexivity |].
              split; [exact Hsub |].
              rewrite basename_cons in Hends by (eapply FileBelow_nonempty; eassumption).
              exact Hends.
           ++ right. exists rel. auto.
      * rewrite IHes. split.
        -- intros (rel & -> & Hbelow & Hends). exists rel. auto.
        -- intros (rel & -> & [(fm & c & [=] & _) | [(sub & [=] & _) | Hbelow]] & Hends).
           exists rel. auto.
Qed.

(** X7. [findJsonlFiles] returns exactly the regular files named
    [*.jsonl] that lie below the directory at any depth, reached through
    directories: each path returned is the directory's path followed by
    the relative path of such a file, and each such file is returned.
    Directories, other kinds of entries and files with another ending are
    never returned, and a path that names no directory gives the empty
    list. *)
Theorem findJsonlFiles_exactly_the_log_files (fs : Node) (dirPath p : Path) :
  In p (result (findJsonlFiles fs dirPath)) <->
  exists dir rel,
    Fs.lookup fs dirPath = Some dir /\
    p = dirPath ++ rel /\
    FileBelow dir rel /\
    Str.endsWith (Fs.basename p) ".jsonl" = true.
Proof.
  unfold findJsonlFiles. destruct (Fs.lookup fs dirPath) as [dir |].
  - rewrite walkJsonl_files. split.
    + intros (rel & -> & Hbelow & Hends). exists dir, rel.
      split; [reflexivity |]. split; [reflexivity |]. split; [exact Hbelow |].
      rewrite basename_app; [exact Hends |].
      eapply FileBelow_nonempty; eassumption.
    + intros (dir' & rel & [= <-] & -> & Hbelow & Hends). exists rel.
      split; [reflexivity |]. split; [exact Hbelow |].
      rewrite basename_app in Hends; [exact Hends |].
      eapply FileBelow_nonempty; eassumption.
  - cbn. split; [tauto |]. intros (dir & rel & [=] & _).
Qed.

Lemma replaceSlashes_no_slash (w : string) :
  Str.contains "/"%char (Str.replaceSlashes w) = false.
Proof.
  induction w as [| c w IH]; [reflexivity |].
  cbn [Str.replaceSlashes Str.contains]. rewrite IH, orb_false_r.
  destruct (Ascii.eqb_spec c "/"%char) as [-> | Hc]; [reflexivity |].
  apply Ascii.eqb_neq, Hc.
Qed.

Lemma replaceSlashes_fixed (w : string) :
  Str.replaceSlashes w = w <-> Str.contains "/"%char w = false.
Proof.
  induction w as [| c w IH]; [cbn; tauto |].
  cbn [Str.replaceSlashes Str.contains].
  destruct (Ascii.eqb_spec c "/"%char) as [-> | Hc]; cbn [orb].
  - split; [intros [=] | discriminate].
  - rewrite <- IH. split; [intros [= Heq]; exact Heq | intros ->; reflexivity].
Qed.

Lemma replaceSlashes_length (w : string) :
  String.length (Str.replaceSlashes w) = String.length w.
Proof. induction w as [| c w IH]; cbn; congruence. Qed.

Lemma replaceSlashes_get (w : string) :
  forall i,
    String.get i (Str.replaceSlashes w) =
      (fun c => if Ascii.eqb c "/"%char then "-"%char else c) <$> String.get i w.
Proof.
  induction w as [| c w IH]; intros i; [reflexivity |].
  destruct i as [| i]; [reflexivity |]. cbn [Str.replaceSlashes String.get]. apply IH.
Qed.

(** X8. The directory name [convertPathToClaudeDir] derives from a
    workspace path never holds a path separator, so it names a direct
    child of the root; it has the length of the workspace path and differs
    from it exactly where a [/] stood, which is now a [-].  The conversion
    leaves a name without [/] as it is, so it is idempotent, and it is not
    injective: a workspace path that holds a [/] and the path with these
    replaced by [-] are different workspaces with the same directory
    name. *)
Theorem convertPathToClaudeDir_flattens (w : string) :
  Str.contains "/"%char (convertPathToClaudeDir w) = false /\
  String.length (convertPathToClaudeDir w) = String.length w /\
  (forall i,
     String.get i (convertPathToClaudeDir w) =
       (fun c => if Ascii.eqb c "/"%char then "-"%char else c) <$> String.get i w) /\
  (convertPathToClaudeDir w = w <-> Str.contains "/"%char w = false) /\
  convertPathToClaudeDir (convertPathToClaudeDir w) = convertPathToClaudeDir w /\
  (Str.contains "/"%char w = true ->
   convertPathToClaudeDir w <> w /\
   projectDirName (newClaudeDataLoader [] (Some (convertPathToClaudeDir w))) =
     projectDirName (newClaudeDataLoader [] (Some w))).
Proof.
  unfold convertPathToClaudeDir.
  assert (Hidem : Str.replaceSlashes (Str.replaceSlashes w) = Str.replaceSlashes w)
    by apply replaceSlashes_fixed, replaceSlashes_no_slash.
  split; [apply replaceSlashes_no_slash |].
  split; [apply replaceSlashes_length |].
  split; [apply replaceSlashes_get |].
  split; [apply replaceSlashes_fixed |].
  split; [exact Hidem |].
  intros Hslash. split.
  - intros Hfixed. apply replaceSlashes_fixed in Hfixed. congruence.
  - unfold newClaudeDataLoader, convertPathToClaudeDir. cbn [projectDirName].
    rewrite Hidem. destruct w as [| c w]; [discriminate | reflexivity].
Qed.

(** X9. [getProjectDataDirectory] of a loader built for a workspace
    returns a path exactly when the workspace path is not empty, a root is
    found, and the root has a directory named after the workspace; the
    path is then that direct child of the root.  Only the first root that
    exists is consulted, and only [stat] is called. *)
Theorem getProjectDataDirectory_of_workspace (configPaths : list Path)
    (workspace : option string) (fs : Node) (projectDir : Path) :
  let this := newClaudeDataLoader configPaths workspace in
  (result (getProjectDataDirectory this fs) = Some projectDir <->
   exists w base,
     workspace = Some w /\ w <> "" /\
     result (findClaudeDataDirectory this fs) = Some base /\
     projectDir = base ++ [convertPathToClaudeDir w] /\
     isDirectoryAt fs projectDir = true) /\
  filesRead (getProjectDataDirectory this fs) = [] /\
  directoriesListed (getProjectDataDirectory this fs) = [].
Proof.
  cbn zeta. split; [| apply getProjectDataDirectory_quiet].
  unfold getProjectDataDirectory, newClaudeDataLoader. cbn [projectDirName].
  destruct workspace as [w |].
  2:{ cbn. split; [discriminate |]. intros (w & base & [=] & _). }
  destruct w as [| c w].
  { cbn. split; [discriminate |]. intros (w & base & [= <-] & Hw & _). congruence. }
  cbn [Str.nonEmpty].
  set (name := convertPathToClaudeDir (String c w)).
  assert (Hname : Str.nonEmpty name = true) by reflexivity.
  rewrite Hname, result_bind.
  set (this := {| claudeConfigPaths := configPaths; workspacePath := Some (String c w);
                  projectDirName := Some name |}).
  destruct (result (findClaudeDataDirectory this fs)) as [base |].
  2:{ cbn. split; [discriminate |]. intros (w' & base & _ & _ & [=] & _). }
  rewrite result_bind, stat_result. unfold isDirectoryAt.
  split.
  - intros Hfound. exists (String c w), base.
    split; [reflexivity |]. split; [discriminate |]. split; [reflexivity |].
    destruct (Fs.lookup fs (base ++ [name])) as [n |] eqn:Hn; [| discriminate].
    destruct (Fs.isDirectory n) eqn:Hdir; [| discriminate].
    injection Hfound as <-. split; [reflexivity |]. rewrite Hn. exact Hdir.
  - intros (w' & base' & [= <-] & _ & [= <-] & -> & Hdir).
    fold name in Hdir |- *.
    destruct (Fs.lookup fs (base ++ [name])) as [n |]; [| discriminate].
    rewrite Hdir. reflexivity.
Qed.

(** The records kept by the deduplication are records of the input, and
    carry the joined keys of the input, each once. *)
Lemma uniqueRecordsOf_subset (events : list JValue) (x : JValue) :
  x ∈ uniqueRecordsOf events -> x ∈ events.
Proof.
  induction events as [| e before IH] using rev_ind.
  - cbn. tauto.
  - rewrite DedupFacts.uniqueRecordsOf_snoc. destruct (decide _); set_solver.
Qed.

Lemma uniqueRecordsOf_hashes (events : list JValue) (h : string) :
  h ∈ getRecordHash <$> uniqueRecordsOf events <-> h ∈ getRecordHash <$> events.
Proof.
  induction events as [| e before IH] using rev_ind.
  - cbn. tauto.
  - rewrite DedupFacts.uniqueRecordsOf_snoc, !fmap_app, !elem_of_app, IH.
    destruct (decide _) as [Hin | Hout]; cbn; set_solver.
Qed.

Lemma uniqueRecordsOf_NoDup (events : list JValue) :
  NoDup (getRecordHash <$> uniqueRecordsOf events).
Proof.
  induction events as [| e before IH] using rev_ind.
  - constructor.
  - rewrite DedupFacts.uniqueRecordsOf_snoc, fmap_app.
    destruct (decide _) as [Hin | Hout]; cbn.
    + rewrite app_nil_r. exact IH.
    + apply NoDup_app. split; [exact IH |]. split; [| apply NoDup_singleton].
      intros h Hh Hsame. apply list_elem_of_singleton in Hsame as ->.
      apply Hout, uniqueRecordsOf_hashes, Hh.
Qed.

(** A token field of a record is the field of its usage object. *)
Lemma usageField_usageOf (record : JValue) (k : string) :
  usageField record k = Js.orZero (Js.prop (usageOf record) k).
Proof.
  unfold usageField, usageOf.
  destruct (Js.optProp (Js.prop record "message") "usage") as [[] |]; reflexivity.
Qed.

Lemma totalsOf_calculateTotalTokens (events : list JValue) :
  totalTokens (totalsOf events) =
    fold_right (fun record acc => calculateTotalTokens (usageOf record) + acc) 0 events.
Proof.
  unfold totalsOf, sumOf. cbn [totalTokens].
  induction events as [| e events IH]; [reflexivity |].
  cbn [fold_right]. rewrite <- IH. unfold calculateTotalTokens.
  rewrite !usageField_usageOf. lia.
Qed.

Section Records.
Context `{Json} `{Dates}.

Lemma parseJsonlFile_reads (fs : Node) (filePath : Path) :
  filesRead (parseJsonlFile fs filePath) = [filePath] /\
  directoriesListed (parseJsonlFile fs filePath) = [].
Proof.
  unfold parseJsonlFile. rewrite filesRead_bind, directoriesListed_bind.
  change (filesRead (Fs.readFile fs filePath)) with [filePath].
  change (directoriesListed (Fs.readFile fs filePath)) with (@nil Path).
  destruct (result (Fs.readFile fs filePath)); split; reflexivity.
Qed.

Lemma parseAll_reads (fs : Node) (jsonlFiles : list Path) :
  filesRead (parseAll fs jsonlFiles) = jsonlFiles.
Proof.
  induction jsonlFiles as [| filePath rest IH]; [reflexivity |].
  cbn [parseAll]. rewrite !filesRead_bind, IH.
  destruct (parseJsonlFile_reads fs filePath) as [-> _].
  cbn. rewrite app_nil_r. reflexivity.
Qed.

(** X10. What [loadUsageRecords] returns and reads, for every file system
    and every [sinceTimestamp].  The records returned are valid usage
    records with pairwise different joined keys; the four totals are the
    sums of the token fields over exactly the records returned,
    [totalTokens] is the sum of [calculateTotalTokens] over them and
    [messageCount] is their number.  With a [sinceTimestamp] other than 0
    every record returned has a timestamp that parses and is not earlier.
    The files read are the [*.jsonl] files below the first root that
    exists, each once, in the order [findJsonlFiles] lists them: the files
    of every project, whatever the workspace of the loader is.  Without a
    root, the result is zero and nothing is read. *)
Theorem loadUsageRecords_totals_and_reads (this : ClaudeDataLoader) (fs : Node)
    (sinceTimestamp : option Z) :
  let loaded := loadUsageRecords this fs sinceTimestamp in
  usage (result loaded) = totalsOf (records (result loaded)) /\
  totalTokens (usage (result loaded)) =
    fold_right (fun record acc => calculateTotalTokens (usageOf record) + acc) 0
      (records (result loaded)) /\
  messageCount (usage (result loaded)) = length (records (result loaded)) /\
  Forall (fun record => isValidUsageRecord record = true) (records (result loaded)) /\
  NoDup (getRecordHash <$> records (result loaded)) /\
  (forall t, sinceTimestamp = Some t -> t <> 0 ->
     Forall (fun record =>
               exists recordTime,
                 Date_getTime (Js.prop record "timestamp") = Some recordTime /\
                 t <= recordTime)
       (records (result loaded))) /\
  filesRead loaded =
    match result (findClaudeDataDirectory this fs) with
    | Some root => result (findJsonlFiles fs root)
    | None => []
    end /\
  (result (findClaudeDataDirectory this fs) = None ->
   result loaded = {| usage := zeroUsage; records := [] |}) /\
  (forall workspace,
     loadUsageRecords (newClaudeDataLoader (claudeConfigPaths this) workspace) fs
       sinceTimestamp = loaded).
Proof.
  cbn zeta.
  assert (Hshape : exists filteredRecords,
    Forall (fun record => isValidUsageRecord record = true) filteredRecords /\
    (forall t, sinceTimestamp = Some t -> t <> 0 ->
       Forall (fun record => since t record = true) filteredRecords) /\
    result (loadUsageRecords this fs sinceTimestamp) = aggregate filteredRecords).
  { unfold loadUsageRecords. rewrite result_bind.
    destruct (result (findClaudeDataDirectory this fs)) as [dataDir |].
    2:{ exists []. split; [constructor |]. split; [constructor | reflexivity]. }
    rewrite !result_bind. cbn [result ret fst].
    set (allRecords := (parseAll fs (findJsonlFiles fs dataDir).1).1).
    assert (Hall : Forall (fun record => isValidUsageRecord record = true) allRecords)
      by apply DedupFacts.parseAll_valid.
    destruct sinceTimestamp as [t |]; [destruct (Z.eqb_spec t 0) as [-> | Ht] |].
    - exists allRecords. split; [exact Hall |]. split; [| reflexivity].
      intros t [= <-] Hne. congruence.
    - exists (List.filter (since t) allRecords). split; [| split; [| reflexivity]].
      + apply Forall_forall. intros record Hin.
        apply list_elem_of_In, filter_In in Hin as [Hin _].
        rewrite Forall_forall in Hall. apply Hall, list_elem_of_In, Hin.
      + intros t' [= <-] _. apply Forall_forall. intros record Hin.
        apply list_elem_of_In, filter_In in Hin as [_ Hsince]. exact Hsince.
    - exists allRecords. split; [exact Hall |]. split; [| reflexivity].
      intros t [=]. }
  destruct Hshape as (filteredRecords & Hvalid & Hsince & Hres).
  assert (Hrecords :
    records (result (loadUsageRecords this fs sinceTimestamp)) =
      uniqueRecordsOf filteredRecords)
    by (rewrite Hres, DedupFacts.aggregate_totals; reflexivity).
  assert (Husage :
    usage (result (loadUsageRecords this fs sinceTimestamp)) =
      totalsOf (uniqueRecordsOf filteredRecords))
    by (rewrite Hres, DedupFacts.aggregate_totals; reflexivity).
  rewrite Hrecords, Husage.
  split; [reflexivity |].
  split; [apply totalsOf_calculateTotalTokens |].
  split; [reflexivity |].
  split.
  { apply Forall_forall. intros record Hin. rewrite Forall_forall in Hvalid.
    apply Hvalid, uniqueRecordsOf_subset, Hin. }
  split; [apply uniqueRecordsOf_NoDup |].
  split.
  { intros t Ht Hne. specialize (Hsince t Ht Hne).
    apply Forall_forall. intros record Hin. rewrite Forall_forall in Hsince.
    specialize (Hsince record (uniqueRecordsOf_subset _ _ Hin)).
    unfold since in Hsince.
    destruct (Date_getTime (Js.prop record "timestamp")) as [recordTime |]; [| discriminate].
    exists recordTime. split; [reflexivity | lia]. }
  split.
  { unfold loadUsageRecords. rewrite filesRead_bind.
    destruct (firstDirectory_quiet fs (claudeConfigPaths this)) as [Hquiet _].
    unfold findClaudeDataDirectory at 1. rewrite Hquiet. cbn [app].
    destruct (result (findClaudeDataDirectory this fs)) as [dataDir |]; [| reflexivity].
    rewrite filesRead_bind, findJsonlFiles_quiet. cbn [app].
    rewrite filesRead_bind, parseAll_reads. cbn. apply app_nil_r. }
  split.
  { intros Hnone. unfold loadUsageRecords. rewrite result_bind, Hnone. reflexivity. }
  intros workspace. reflexivity.
Qed.

End Records.

End LoaderFacts.
(** ** The session authenticator *)

Module AuthFacts.
Import Auth.

Lemma checkCookie_no_fetch (this : ClaudeAuth) (nowMs : Z) :
  List.filter isFetch (trace (checkCookie this nowMs)) = [].
Proof.
  unfold checkCookie.
  destruct (page this) as [pg |]; [| reflexivity].
  destruct (url pg) as [currentUrl |]; [| reflexivity].
  destruct (Str.includes currentUrl "claude.ai"); cbn;
    [| destruct (gotoSucceeds pg); cbn; [| reflexivity]];
    (destruct (cookies pg) as [jar |]; [| reflexivity]);
    destruct (List.find isSessionKey jar); reflexivity.
Qed.



(** C6 as worded does not hold: an exception of [fetch] is caught inside
    the page and reported as [server_rejected]. *)
Lemma validateSession_fetch_exception :
  let jar := [{| name := "sessionKey"; value := "sk"; expires := 2000000000 # 1 |}] in
  let pg := {| url := Some "https://claude.ai/settings/usage"; gotoSucceeds := true;
               cookies := Some jar; fetchOutcome := FetchThrows |} in
  result (validateSession {| page := Some pg |} 1700000000000) =
    {| valid := false; reason := "server_rejected" |} /\
  reason (result (validateSession {| page := Some pg |} 1700000000000))
    <> "validation_error".
Proof. split; [reflexivity | discriminate]. Qed.

(** C6, amended. With a page attached, [validateSession] answers
    [no_cookie] when no session cookie is found and [cookie_expired] when it
    is expired, in both cases without the phase-2 call; otherwise it makes
    exactly one call that fetches the organizations endpoint with
    credentials, and answers [valid] for a response that is ok,
    [server_rejected] for one that is not or when [fetch] throws inside the
    page, and [validation_error] when [page.evaluate] itself throws. *)
Theorem validateSession_two_phase (pg : Page) (nowMs : Z) :
  let this := {| page := Some pg |} in
  let check := result (checkCookie this nowMs) in
  let answer := result (validateSession this nowMs) in
  let fetches := List.filter isFetch (trace (validateSession this nowMs)) in
  (exists_ check = false ->
     answer = {| valid := false; reason := "no_cookie" |} /\ fetches = []) /\
  (exists_ check = true -> expired check = true ->
     answer = {| valid := false; reason := "cookie_expired" |} /\ fetches = []) /\
  (exists_ check = true -> expired check = false ->
     fetches = [OpEvaluateFetch API_ORGS "include"] /\
     answer =
       match fetchOutcome pg with
       | Responded true => {| valid := true; reason := "valid" |}
       | Responded false => {| valid := false; reason := "server_rejected" |}
       | FetchThrows => {| valid := false; reason := "server_rejected" |}
       | EvaluateThrows => {| valid := false; reason := "validation_error" |}
       end).
Proof.
  cbn zeta. unfold validateSession. cbn [page].
  pose proof (checkCookie_no_fetch {| page := Some pg |} nowMs) as Hquiet.
  destruct (checkCookie {| page := Some pg |} nowMs) as [check steps].
  unfold result, trace in *. cbn [fst snd] in *.
  destruct check as [found old c]. cbn [exists_ expired].
  destruct found, old, (fetchOutcome pg) as [| | []]; cbn;
    rewrite ?List.filter_app, ?Hquiet;
    (split; [| split]); intros; try discriminate; split; reflexivity.
Qed.

End AuthFacts.

(** ** The answers of the authenticator, from the browser's side *)

Module AuthLoginFacts.
Import Auth.


End AuthLoginFacts.

Module LoginFacts.
Import Auth.

Lemma waitForLogin_step (maxWaitMs : Z) (turn : Turn) (later : list Turn) :
  keepsWaiting maxWaitMs turn ->
  result (waitForLogin maxWaitMs (turn :: later)) = result (waitForLogin maxWaitMs later) /\
  trace (waitForLogin maxWaitMs (turn :: later)) =
    OpCookies BASE :: trace (waitForLogin maxWaitMs later).
Proof.
  intros [Hin Hno]. apply Z.ltb_lt in Hin. unfold showsSessionKey in Hno.
  cbn [waitForLogin]. rewrite Hin, TraceFacts.result_bind, TraceFacts.trace_bind.
  cbn [result trace tell fst snd app].
  destruct (jar turn) as [cookies |]; [rewrite Hno |]; split; reflexivity.
Qed.

Lemma waitForLogin_waits (maxWaitMs : Z) (before rest : list Turn) :
  Forall (keepsWaiting maxWaitMs) before ->
  result (waitForLogin maxWaitMs (before ++ rest)) = result (waitForLogin maxWaitMs rest) /\
  trace (waitForLogin maxWaitMs (before ++ rest)) =
    repeat (OpCookies BASE) (length before) ++ trace (waitForLogin maxWaitMs rest).
Proof.
  induction 1 as [| turn before Hturn _ [IHr IHt]]; [split; reflexivity |].
  cbn [app length repeat].
  destruct (waitForLogin_step maxWaitMs turn (before ++ rest) Hturn) as [-> ->].
  rewrite IHr, IHt. split; reflexivity.
Qed.

(** The turns up to the one that ends the loop. *)
Lemma waitForLogin_ends (maxWaitMs : Z) (turns : list Turn) :
  match result (waitForLogin maxWaitMs turns) with
  | Some answer =>
      exists before turn after,
        turns = before ++ turn :: after /\
        Forall (keepsWaiting maxWaitMs) before /\
        (if answer
         then elapsed turn < maxWaitMs /\ showsSessionKey turn = true
         else maxWaitMs <= elapsed turn)
  | None => Forall (keepsWaiting maxWaitMs) turns
  end.
Proof.
  induction turns as [| turn later IH]; [constructor |].
  destruct (Z.ltb_spec (elapsed turn) maxWaitMs) as [Hin | Hout].
  - destruct (showsSessionKey turn) eqn:Hkey.
    + assert (Hnow : result (waitForLogin maxWaitMs (turn :: later)) = Some true).
      { cbn [waitForLogin]. apply Z.ltb_lt in Hin. rewrite Hin, TraceFacts.result_bind.
        cbn [result tell fst]. unfold showsSessionKey in Hkey.
        destruct (jar turn) as [cookies |]; [| discriminate]. rewrite Hkey. reflexivity. }
      rewrite Hnow. exists [], turn, later. split; [reflexivity |].
      split; [constructor | split; assumption].
    + destruct (waitForLogin_step maxWaitMs turn later (conj Hin Hkey)) as [-> _].
      destruct (result (waitForLogin maxWaitMs later)) as [answer |].
      * destruct IH as (before & last & after & -> & Hbefore & Hlast).
        exists (turn :: before), last, after. split; [reflexivity |].
        split; [constructor; [split; assumption | exact Hbefore] | exact Hlast].
      * constructor; [split; assumption | exact IH].
  - assert (Hnow : result (waitForLogin maxWaitMs (turn :: later)) = Some false).
    { cbn [waitForLogin]. apply Z.ltb_ge in Hout. rewrite Hout. reflexivity. }
    rewrite Hnow. exists [], turn, later. split; [reflexivity |].
    split; [constructor | exact Hout].
Qed.

(** X16. [waitForLogin] only polls: every call it makes to the page is a
    cookie read for the base address; it never navigates and never
    fetches.  It makes one read in each turn of its loop.  It returns
    true at the first turn, begun inside the window, whose read shows a
    cookie named [sessionKey], after the number of reads of that turn; it
    returns false at the first turn that begins at or after [maxWaitMs],
    without a read in that turn; a read that throws counts as a read that
    shows no cookie.  A loop in which the clock reaches [maxWaitMs] ends
    with an answer. *)
Theorem waitForLogin_only_polls (maxWaitMs : Z) (turns : list Turn) :
  let wait := waitForLogin maxWaitMs turns in
  Forall (fun op => op = OpCookies BASE) (trace wait) /\
  (forall answer : bool,
     result wait = Some answer <->
     exists before turn after,
       turns = before ++ turn :: after /\
       Forall (keepsWaiting maxWaitMs) before /\
       (if answer
        then elapsed turn < maxWaitMs /\ showsSessionKey turn = true
        else maxWaitMs <= elapsed turn) /\
       trace wait = repeat (OpCookies BASE) (length before + if answer then 1 else 0)) /\
  (Exists (fun turn => maxWaitMs <= elapsed turn) turns ->
   exists answer, result wait = Some answer).
Proof.
  cbn zeta.
  assert (Hlast : forall (answer : bool) turn after,
    (if answer
     then elapsed turn < maxWaitMs /\ showsSessionKey turn = true
     else maxWaitMs <= elapsed turn) ->
    result (waitForLogin maxWaitMs (turn :: after)) = Some answer /\
    trace (waitForLogin maxWaitMs (turn :: after)) =
      repeat (OpCookies BASE) (if answer then 1 else 0)).
  { intros answer turn after Hturn. cbn [waitForLogin]. destruct answer.
    - destruct Hturn as [Hin Hkey]. apply Z.ltb_lt in Hin.
      rewrite Hin, TraceFacts.result_bind, TraceFacts.trace_bind.
      cbn [result trace tell fst snd]. unfold showsSessionKey in Hkey.
      destruct (jar turn) as [cookies |]; [| discriminate]. rewrite Hkey.
      split; reflexivity.
    - apply Z.ltb_ge in Hturn. rewrite Hturn. split; reflexivity. }
  assert (Hiff : forall answer : bool,
    result (waitForLogin maxWaitMs turns) = Some answer <->
    exists before turn after,
      turns = before ++ turn :: after /\
      Forall (keepsWaiting maxWaitMs) before /\
      (if answer
       then elapsed turn < maxWaitMs /\ showsSessionKey turn = true
       else maxWaitMs <= elapsed turn) /\
      trace (waitForLogin maxWaitMs turns) =
        repeat (OpCookies BASE) (length before + if answer then 1 else 0)).
  { intros answer. split.
    - intros Hanswer. pose proof (waitForLogin_ends maxWaitMs turns) as Hends.
      rewrite Hanswer in Hends. destruct Hends as (before & turn & after & -> & Hbefore & Hturn).
      exists before, turn, after. split; [reflexivity |]. split; [exact Hbefore |].
      split; [exact Hturn |].
      destruct (waitForLogin_waits maxWaitMs before (turn :: after) Hbefore) as [_ ->].
      destruct (Hlast answer turn after Hturn) as [_ ->].
      rewrite repeat_app. reflexivity.
    - intros (before & turn & after & -> & Hbefore & Hturn & _).
      destruct (waitForLogin_waits maxWaitMs before (turn :: after) Hbefore) as [-> _].
      apply Hlast, Hturn. }
  split; [| split; [exact Hiff |]].
  - pose proof (waitForLogin_ends maxWaitMs turns) as Hends.
    destruct (result (waitForLogin maxWaitMs turns)) as [answer |] eqn:Hanswer.
    + destruct (proj1 (Hiff answer) eq_refl) as (before & turn & after & _ & _ & _ & ->).
      apply Forall_forall. intros op Hop. apply list_elem_of_In, repeat_spec in Hop. exact Hop.
    + destruct (waitForLogin_waits maxWaitMs turns [] Hends) as [_ Htrace].
      rewrite app_nil_r in Htrace. rewrite Htrace. cbn [waitForLogin trace ret snd].
      rewrite app_nil_r.
      apply Forall_forall. intros op Hop. apply list_elem_of_In, repeat_spec in Hop. exact Hop.
  - intros Hreached. pose proof (waitForLogin_ends maxWaitMs turns) as Hends.
    destruct (result (waitForLogin maxWaitMs turns)) as [answer |]; [eauto |].
    exfalso. apply Exists_exists in Hreached as (turn & Hin & Hlate).
    rewrite Forall_forall in Hends. destruct (Hends turn Hin) as [Hearly _]. lia.
Qed.

(** X17. The login wait and the validation disagree on an expired
    cookie.  [waitForLogin] looks at the name of the cookie only: when the
    first read inside the window shows a [sessionKey] cookie whose expiry
    time is at or before now, it reports a successful login at once, while
    [validateSession] of a page on [claude.ai] with the same cookies answers
    [cookie_expired], without a fetch. *)
Theorem waitForLogin_accepts_expired_cookie (maxWaitMs nowMs : Z) (turn : Turn)
    (later : list Turn) (pg : Page) (currentUrl : string) (cookies : list Cookie)
    (c : Cookie) :
  elapsed turn < maxWaitMs ->
  jar turn = Some cookies ->
  Auth.cookies pg = Some cookies ->
  url pg = Some currentUrl ->
  Str.includes currentUrl "claude.ai" = true ->
  List.find isSessionKey cookies = Some c ->
  (expires c <= nowSeconds nowMs)%Q ->
  result (waitForLogin maxWaitMs (turn :: later)) = Some true /\
  trace (waitForLogin maxWaitMs (turn :: later)) = [OpCookies BASE] /\
  result (validateSession {| page := Some pg |} nowMs) =
    {| valid := false; reason := "cookie_expired" |} /\
  trace (validateSession {| page := Some pg |} nowMs) = [OpCookies BASE].
Proof.
  intros Hin Hjar Hcookies Hurl Hon Hfind Hexpired.
  apply Z.ltb_lt in Hin. apply Qle_bool_iff in Hexpired.
  assert (Hkey : existsb isSessionKey cookies = true).
  { apply existsb_exists. exists c. apply find_some in Hfind. exact Hfind. }
  cbn [waitForLogin]. rewrite Hin, Hjar, Hkey.
  unfold validateSession, checkCookie. cbn [page].
  rewrite Hurl, Hon, Hcookies, Hfind. cbn. rewrite Hexpired. cbn. auto.
Qed.

End LoginFacts.
(** ** The login flow of the scraper *)

Module ScraperFacts.
Import Scraper.

Lemma catch_timeout (attempt : Outcome) :
  let caught :=
    match attempt with
    | Returns => Returns
    | Throws message =>
        if Str.includes message "timeout" then Throws FAILED_TO_LOAD else Throws message
    end in
  (caught = Returns <-> attempt = Returns) /\
  (forall message, caught = Throws message -> Str.includes message "timeout" = false) /\
  (forall message,
     attempt = Throws message -> Str.includes message "timeout" = true ->
     caught = Throws FAILED_TO_LOAD).
Proof.
  cbn zeta. destruct attempt as [| thrown].
  - split; [tauto |]. split; [discriminate | discriminate].
  - destruct (Str.includes thrown "timeout") eqn:Hthrown.
    + split; [split; discriminate |]. split.
      * intros message [= <-]. reflexivity.
      * reflexivity.
    + split; [split; discriminate |]. split.
      * intros message [= <-]. exact Hthrown.
      * intros message [= <-]. congruence.
Qed.

Lemma ensureLoggedIn_catch (browser : Browser) :
  result (ensureLoggedIn browser) =
    match result (tryLogin browser) with
    | Returns => Returns
    | Throws message =>
        if Str.includes message "timeout" then Throws FAILED_TO_LOAD else Throws message
    end /\
  trace (ensureLoggedIn browser) = trace (tryLogin browser).
Proof.
  unfold ensureLoggedIn. rewrite TraceFacts.result_bind, TraceFacts.trace_bind.
  destruct (result (tryLogin browser)) as [| message];
    [| destruct (Str.includes message "timeout")];
    cbn [result trace ret fst snd]; rewrite app_nil_r; split; reflexivity.
Qed.

(** X18. [ensureLoggedIn] reports a login that timed out as a failure to
    load the page.  When the session is not valid and [waitForLogin]
    answers false, the error thrown inside is the login timeout, its
    message holds the word [timeout], and the [catch] replaces it: the call
    rejects with the message about the internet connection, after the
    validation, the opening of the browser and the wait, and nothing else.
    No rejection of [ensureLoggedIn] carries a message that holds
    [timeout], so the login-timeout message never reaches the caller.  The
    call resolves exactly when the session is valid and the navigation to
    the usage page returns, or the session is not valid, the user logs in,
    and closing, launching again and navigating all return; with a valid
    session the only calls are the validation and one navigation. *)
Theorem ensureLoggedIn_masks_login_timeout (browser : Browser) :
  let outcome := result (ensureLoggedIn browser) in
  let calls := trace (ensureLoggedIn browser) in
  (Auth.valid (validation browser) = false -> loggedIn browser = false ->
   outcome = Throws FAILED_TO_LOAD /\
   calls = [OpValidateSession; OpForceOpenBrowser; OpWaitForLogin]) /\
  (forall message, outcome = Throws message -> Str.includes message "timeout" = false) /\
  outcome <> Throws LOGIN_TIMEOUT /\
  (outcome = Returns <->
   (Auth.valid (validation browser) = true /\ gotoUsage browser = Returns) \/
   (Auth.valid (validation browser) = false /\ loggedIn browser = true /\
    closes browser = Returns /\ initializes browser = Returns /\
    gotoUsageAfterLogin browser = Returns)) /\
  (Auth.valid (validation browser) = true ->
   calls = [OpValidateSession; OpGotoUsage]).
Proof.
  cbn zeta. destruct (ensureLoggedIn_catch browser) as [-> ->].
  destruct (catch_timeout (result (tryLogin browser))) as (Hreturns & Hmessage & Hmasked).
  cbn zeta in Hreturns, Hmessage, Hmasked.
  split; [| split; [exact Hmessage | split; [| split]]].
  - intros Hinvalid Hout. split.
    + apply (Hmasked LOGIN_TIMEOUT); [| reflexivity].
      unfold tryLogin. rewrite Hinvalid, Hout. reflexivity.
    + unfold tryLogin. rewrite Hinvalid, Hout. reflexivity.
  - intros Hlogin. apply Hmessage in Hlogin. discriminate.
  - rewrite Hreturns. unfold tryLogin, andThen.
    destruct (Auth.valid (validation browser)), (gotoUsage browser), (loggedIn browser),
      (closes browser), (initializes browser), (gotoUsageAfterLogin browser);
      cbn; split; intros Hcase; try discriminate; try reflexivity;
      try (left; split; reflexivity);
      try (right; repeat split; reflexivity);
      destruct Hcase as [[? ?] | (? & ? & ? & ? & ?)]; discriminate.
  - intros Hvalid. unfold tryLogin, andThen. rewrite Hvalid.
    destruct (gotoUsage browser); reflexivity.
Qed.

End ScraperFacts.
(** ** The time until the reset, written and read back *)

Module ResetTimeFacts.

Lemma append_cons (c : ascii) (a b : string) : String c a +:+ b = String c (a +:+ b).
Proof. reflexivity. Qed.

Lemma append_nil (b : string) : "" +:+ b = b.
Proof. reflexivity. Qed.

Lemma append_assoc (a b c : string) : (a +:+ b) +:+ c = a +:+ (b +:+ c).
Proof.
  induction a as [| d a IH]; [reflexivity |].
  rewrite !append_cons, IH. reflexivity.
Qed.

Lemma allDigits_app (a b : string) :
  allDigits (a +:+ b) = allDigits a && allDigits b.
Proof.
  induction a as [| c a IH]; [reflexivity |].
  rewrite append_cons. cbn [allDigits]. rewrite IH, andb_assoc. reflexivity.
Qed.

(** The digits of a positive number, as [pretty] writes them. *)
Lemma pretty_N_go_app (x : N) (s : string) :
  pretty_N_go x s = pretty_N_go x "" +:+ s.
Proof.
  revert s. induction (N.lt_wf_0 x) as [x _ IH]; intros s.
  destruct (N.eq_dec x 0%N) as [-> | Hx]; [reflexivity |].
  assert (Hpos : (0 < x)%N) by lia.
  rewrite (pretty_N_go_step x s), (pretty_N_go_step x "") by exact Hpos.
  assert (Hlt : (x `div` 10 < x)%N) by (apply N.div_lt; lia).
  rewrite (IH _ Hlt (String (pretty_N_char (x `mod` 10)) s)).
  rewrite (IH _ Hlt (String (pretty_N_char (x `mod` 10)) "")).
  rewrite append_assoc. reflexivity.
Qed.

Lemma pretty_N_go_snoc (x : N) :
  (0 < x)%N ->
  pretty_N_go x "" =
    pretty_N_go (x `div` 10) "" +:+ String (pretty_N_char (x `mod` 10)) "".
Proof. intros Hx. rewrite pretty_N_go_step by exact Hx. apply pretty_N_go_app. Qed.

Lemma pretty_N_char_digit (d : N) :
  (d < 10)%N ->
  Str.isDigit (pretty_N_char d) = true /\
  Z.of_nat (nat_of_ascii (pretty_N_char d)) - 48 = Z.of_N d.
Proof.
  intros Hd.
  assert (Hcases : (d = 0 \/ d = 1 \/ d = 2 \/ d = 3 \/ d = 4 \/ d = 5 \/ d = 6 \/
                    d = 7 \/ d = 8 \/ d = 9)%N) by lia.
  repeat (destruct Hcases as [-> | Hcases]; [split; reflexivity |]).
  subst d. split; reflexivity.
Qed.

Lemma parseDigits_snoc (a : string) (c : ascii) (acc : Z) :
  allDigits a = true -> Str.isDigit c = true ->
  Str.parseDigits acc (a +:+ String c "") =
    10 * Str.parseDigits acc a + (Z.of_nat (nat_of_ascii c) - 48).
Proof.
  revert acc. induction a as [| d a IH]; intros acc Ha Hc.
  - rewrite append_nil. cbn [Str.parseDigits]. rewrite Hc. reflexivity.
  - rewrite append_cons. cbn [allDigits Str.parseDigits] in Ha |- *.
    apply andb_true_iff in Ha as [Hd Ha]. rewrite Hd. apply IH; assumption.
Qed.

Lemma pretty_N_go_digits (x : N) :
  allDigits (pretty_N_go x "") = true /\
  Str.parseInt (pretty_N_go x "") = Z.of_N x /\
  ((0 < x)%N -> pretty_N_go x "" <> "").
Proof.
  induction (N.lt_wf_0 x) as [x _ IH].
  destruct (N.eq_dec x 0%N) as [-> | Hx]; [split; [reflexivity | split; [reflexivity | lia]] |].
  assert (Hpos : (0 < x)%N) by lia.
  destruct (IH (x `div` 10)%N) as (Hall & Hvalue & _); [apply N.div_lt; lia |].
  destruct (pretty_N_char_digit (x `mod` 10)%N) as [Hdigit Hchar];
    [apply N.mod_lt; lia |].
  rewrite pretty_N_go_snoc by exact Hpos.
  split; [| split].
  - rewrite allDigits_app, Hall. cbn [allDigits]. rewrite Hdigit. reflexivity.
  - unfold Str.parseInt in *. rewrite parseDigits_snoc by assumption.
    rewrite Hvalue, Hchar.
    rewrite (N.div_mod x 10) at 3 by lia. lia.
  - intros _. destruct (pretty_N_go (x `div` 10) ""); discriminate.
Qed.

(** How a number that is not negative is written: in digits, which read
    back give the number. *)
Lemma pretty_digits (z : Z) :
  0 <= z ->
  allDigits (pretty z) = true /\ Str.parseInt (pretty z) = z /\ pretty z <> "".
Proof.
  intros Hz. destruct z as [| p | p]; [split; [| split]; [reflexivity .. | discriminate] | | lia].
  change (pretty (Z.pos p)) with (pretty_N_go (N.pos p) "").
  destruct (pretty_N_go_digits (N.pos p)) as (Hall & Hvalue & Hne).
  split; [exact Hall |]. split; [exact Hvalue | apply Hne; lia].
Qed.

Lemma spanDigits_run (ds rest : string) :
  allDigits ds = true ->
  match rest with String t _ => Str.isDigit t = false | EmptyString => True end ->
  Str.spanDigits (ds +:+ rest) = (ds, rest).
Proof.
  intros Hds Hrest. induction ds as [| d ds IH].
  - rewrite append_nil. destruct rest as [| t rest]; [reflexivity |].
    cbn [Str.spanDigits]. rewrite Hrest. reflexivity.
  - rewrite append_cons. cbn [allDigits Str.spanDigits] in Hds |- *.
    apply andb_true_iff in Hds as [Hd Hds]. rewrite Hd, IH by exact Hds.
    reflexivity.
Qed.

(** The match at a run of digits that the letter follows. *)
Lemma matchDigitsThen_hit (letter : ascii) (ds rest : string) :
  allDigits ds = true -> ds <> "" -> Str.isDigit letter = false ->
  Str.matchDigitsThen letter (ds +:+ String letter rest) = Some ds.
Proof.
  intros Hds Hne Hletter. destruct ds as [| d ds]; [congruence |].
  rewrite append_cons. cbn [Str.matchDigitsThen]. rewrite <- append_cons.
  rewrite spanDigits_run by assumption.
  rewrite Ascii.eqb_refl. reflexivity.
Qed.

(** No match inside a run of digits that another character follows. *)
Lemma matchDigitsThen_miss (letter t : ascii) (ds rest : string) :
  allDigits ds = true -> Str.isDigit t = false -> t <> letter ->
  Str.matchDigitsThen letter (ds +:+ String t rest) = Str.matchDigitsThen letter rest.
Proof.
  intros Hds Ht Hne. induction ds as [| d ds IH].
  - rewrite append_nil. cbn [Str.matchDigitsThen Str.spanDigits]. rewrite Ht. reflexivity.
  - rewrite append_cons. cbn [Str.matchDigitsThen]. rewrite <- append_cons.
    rewrite spanDigits_run by assumption.
    apply Ascii.eqb_neq in Hne. rewrite Hne.
    cbn [allDigits] in Hds. apply andb_true_iff in Hds as [_ Hds]. apply IH, Hds.
Qed.

(** The three texts [calculateResetTime] writes, read back. *)
Lemma totalMinutes_days_hours (days hours : Z) :
  0 <= days -> 0 <= hours ->
  Utils.totalMinutes (pretty days +:+ "d " +:+ pretty hours +:+ "h") =
    days * 24 * 60 + hours * 60.
Proof.
  intros Hdays Hhours.
  destruct (pretty_digits days Hdays) as (Hd & Hdv & Hdn).
  destruct (pretty_digits hours Hhours) as (Hh & Hhv & Hhn).
  unfold Utils.totalMinutes.
  change (pretty days +:+ "d " +:+ pretty hours +:+ "h")
    with (pretty days +:+ String "d" (String " " (pretty hours +:+ String "h" ""))).
  rewrite (matchDigitsThen_hit "d") by (assumption || reflexivity).
  rewrite (matchDigitsThen_miss "h" "d") by (assumption || reflexivity || discriminate).
  rewrite (matchDigitsThen_miss "m" "d") by (assumption || reflexivity || discriminate).
  rewrite <- (append_nil (String " " (pretty hours +:+ String "h" ""))).
  rewrite (matchDigitsThen_miss "h" " ") by (reflexivity || discriminate).
  rewrite (matchDigitsThen_miss "m" " ") by (reflexivity || discriminate).
  rewrite (matchDigitsThen_hit "h") by (assumption || reflexivity).
  rewrite (matchDigitsThen_miss "m" "h") by (assumption || reflexivity || discriminate).
  cbn [Str.matchDigitsThen]. rewrite Hdv, Hhv. lia.
Qed.

Lemma totalMinutes_hours_minutes (hours minutes : Z) :
  0 <= hours -> 0 <= minutes ->
  Utils.totalMinutes (pretty hours +:+ "h " +:+ pretty minutes +:+ "m") =
    hours * 60 + minutes.
Proof.
  intros Hhours Hminutes.
  destruct (pretty_digits hours Hhours) as (Hh & Hhv & Hhn).
  destruct (pretty_digits minutes Hminutes) as (Hm & Hmv & Hmn).
  unfold Utils.totalMinutes.
  change (pretty hours +:+ "h " +:+ pretty minutes +:+ "m")
    with (pretty hours +:+ String "h" (String " " (pretty minutes +:+ String "m" ""))).
  rewrite (matchDigitsThen_miss "d" "h") by (assumption || reflexivity || discriminate).
  rewrite (matchDigitsThen_hit "h") by (assumption || reflexivity).
  rewrite (matchDigitsThen_miss "m" "h") by (assumption || reflexivity || discriminate).
  rewrite <- (append_nil (String " " (pretty minutes +:+ String "m" ""))).
  rewrite (matchDigitsThen_miss "d" " ") by (reflexivity || discriminate).
  rewrite (matchDigitsThen_miss "m" " ") by (reflexivity || discriminate).
  rewrite (matchDigitsThen_miss "d" "m") by (assumption || reflexivity || discriminate).
  rewrite (matchDigitsThen_hit "m") by (assumption || reflexivity).
  cbn [Str.matchDigitsThen]. rewrite Hhv, Hmv. lia.
Qed.

Lemma totalMinutes_minutes (minutes : Z) :
  0 <= minutes -> Utils.totalMinutes (pretty minutes +:+ "m") = minutes.
Proof.
  intros Hminutes.
  destruct (pretty_digits minutes Hminutes) as (Hm & Hmv & Hmn).
  unfold Utils.totalMinutes.
  change (pretty minutes +:+ "m") with (pretty minutes +:+ String "m" "").
  rewrite (matchDigitsThen_miss "d" "m") by (assumption || reflexivity || discriminate).
  rewrite (matchDigitsThen_miss "h" "m") by (assumption || reflexivity || discriminate).
  rewrite (matchDigitsThen_hit "m") by (assumption || reflexivity).
  cbn [Str.matchDigitsThen]. rewrite Hmv. lia.
Qed.

Section ResetTime.
Context `{Dates} `{LocalTime}.

(** The text written is read back as the time to the reset rounded
    down, and the instant shown is at most that much early. *)
Lemma written_time_read_back (iso : string) (resetMs nowMs displayedAt : Z) :
  iso <> "" ->
  Date_getTime (Some (JStr iso)) = Some resetMs ->
  let diffMs := resetMs - nowMs in
  let text := Scraper.calculateResetTime (Some iso) nowMs in
  let far := 24 <? diffMs / 3600000 in
  let shown := Utils.resetDate text displayedAt in
  (diffMs <= 0 -> text = "Soon" /\ shown = displayedAt) /\
  (0 < diffMs ->
   Utils.totalMinutes text = (if far then diffMs / 3600000 * 60 else diffMs / 60000) /\
   shown <= resetMs + (displayedAt - nowMs) /\
   resetMs + (displayedAt - nowMs) - shown < (if far then 3600000 else 60000) /\
   (24 * 60 <=? Utils.totalMinutes text) = (86400000 <=? diffMs)).
Proof.
  intros Hiso Hdate. cbn zeta. unfold Scraper.calculateResetTime.
  assert (Hset : isSet (Some iso) = true) by (destruct iso; [congruence | reflexivity]).
  rewrite Hset. cbn [fmap option_fmap option_map]. rewrite Hdate.
  set (diffMs := resetMs - nowMs).
  change (1000 * 60 * 60) with 3600000. change (1000 * 60) with 60000.
  split.
  - intros Hpast. apply Z.leb_le in Hpast. rewrite Hpast. split; [reflexivity |].
    unfold Utils.resetDate. change (Utils.totalMinutes "Soon") with 0. lia.
  - intros Hfuture.
    assert (Hnot : (diffMs <=? 0) = false) by (apply Z.leb_gt; exact Hfuture).
    rewrite Hnot.
    pose proof (Z.div_mod diffMs 3600000 ltac:(lia)) as Hhours.
    pose proof (Z.mod_pos_bound diffMs 3600000 ltac:(lia)) as Hrest.
    pose proof (Z.div_pos diffMs 3600000 ltac:(lia) ltac:(lia)) as Hh0.
    set (hours := diffMs / 3600000) in *.
    set (rest := diffMs mod 3600000) in *.
    pose proof (Z.div_mod rest 60000 ltac:(lia)) as Hminutes.
    pose proof (Z.mod_pos_bound rest 60000 ltac:(lia)) as Hseconds.
    pose proof (Z.div_pos rest 60000 ltac:(lia) ltac:(lia)) as Hm0.
    set (minutes := rest / 60000) in *.
    assert (Htotal : diffMs / 60000 = hours * 60 + minutes).
    { symmetry. apply (Z.div_unique diffMs 60000 _ (rest mod 60000)); lia. }
    assert (Hbound : 60000 * (diffMs / 60000) <= diffMs < 60000 * (diffMs / 60000) + 60000).
    { pose proof (Z.div_mod diffMs 60000 ltac:(lia)).
      pose proof (Z.mod_pos_bound diffMs 60000 ltac:(lia)). lia. }
    unfold Utils.resetDate.
    destruct (Z.ltb_spec 24 hours) as [Hfar | Hnear].
    + pose proof (Z.div_mod hours 24 ltac:(lia)) as Hdays.
      pose proof (Z.mod_pos_bound hours 24 ltac:(lia)) as Hremaining.
      pose proof (Z.div_pos hours 24 ltac:(lia) ltac:(lia)) as Hd0.
      rewrite totalMinutes_days_hours by lia.
      replace (hours / 24 * 24 * 60 + hours mod 24 * 60) with (hours * 60) by lia.
      split; [reflexivity |]. split; [lia |]. split; [lia |].
      transitivity true; [apply Z.leb_le; lia | symmetry; apply Z.leb_le; lia].
    + assert (Hread :
        Utils.totalMinutes
          (if 0 <? hours then pretty hours +:+ "h " +:+ pretty minutes +:+ "m"
           else pretty minutes +:+ "m") = diffMs / 60000).
      { destruct (Z.ltb_spec 0 hours) as [Hsome | Hnone].
        - rewrite totalMinutes_hours_minutes by lia. lia.
        - rewrite totalMinutes_minutes by lia. lia. }
      rewrite Hread.
      split; [reflexivity |]. split; [lia |]. split; [lia |].
      destruct (Z.leb_spec 86400000 diffMs) as [Hday | Hless].
      * apply Z.leb_le. lia.
      * apply Z.leb_gt. lia.
Qed.

(** X19. The relative time [calculateResetTime] writes is read back by
    [calculateResetClockTime] as the time to the reset rounded down: to
    the minute when the reset is at most 24 hours (and 59 minutes) away,
    to the hour when it is further away, where the text gives days and
    hours only.  So the instant whose clock time is shown, computed at the
    time of display, never lies after the reset time moved by the age of
    the text, and lies less than a minute (an hour, for the text in days)
    before it; shown at once it is the reset time rounded down, and shown
    later it is late by the age of the data.  A reset that is not in the
    future is written [Soon] and read back as no time at all.  What is
    displayed is the hour and the minute of that instant in local time,
    each of two digits at least, preceded by the name of the day and the
    day of the month exactly when the reset was 24 hours or more away
    when the text was written. *)
Theorem calculateResetClockTime_reads_back (iso : string) (resetMs nowMs displayedAt : Z) :
  iso <> "" ->
  Date_getTime (Some (JStr iso)) = Some resetMs ->
  let diffMs := resetMs - nowMs in
  let text := Scraper.calculateResetTime (Some iso) nowMs in
  let far := 24 <? diffMs / 3600000 in
  let shown := Utils.resetDate text displayedAt in
  let timeStr :=
    Utils.padStart2 (pretty (getHours shown)) +:+ ":" +:+
    Utils.padStart2 (pretty (getMinutes shown)) in
  (diffMs <= 0 -> text = "Soon" /\ shown = displayedAt) /\
  (0 < diffMs ->
   Utils.totalMinutes text = (if far then diffMs / 3600000 * 60 else diffMs / 60000) /\
   shown <= resetMs + (displayedAt - nowMs) /\
   resetMs + (displayedAt - nowMs) - shown < (if far then 3600000 else 60000)) /\
  Utils.calculateResetClockTime (Some text) displayedAt =
    (if 86400000 <=? diffMs
     then nth (getDay shown) Utils.dayNames "undefined" +:+ " " +:+
          pretty (getDate shown) +:+ " " +:+ timeStr
     else timeStr).
Proof.
  intros Hiso Hdate. cbn zeta.
  destruct (written_time_read_back iso resetMs nowMs displayedAt Hiso Hdate)
    as [Hpast Hfuture].
  cbn zeta in Hpast, Hfuture.
  split; [exact Hpast |]. split.
  - intros Hpositive. destruct (Hfuture Hpositive) as (Hminutes & Hupper & Hlower & _).
    repeat split; assumption.
  - unfold Utils.calculateResetClockTime.
    destruct (Z.lt_ge_cases 0 (resetMs - nowMs)) as [Hpositive | Hnot].
    + destruct (Hfuture Hpositive) as (_ & _ & _ & ->). reflexivity.
    + destruct (Hpast Hnot) as [-> _].
      change (24 * 60 <=? Utils.totalMinutes "Soon") with false.
      replace (86400000 <=? resetMs - nowMs) with false by (symmetry; apply Z.leb_gt; lia).
      reflexivity.
Qed.

End ResetTime.

End ResetTimeFacts.
(** ** The fetch of the usage data *)

Module FetchFacts.
Import Scraper ScraperNotions.

Lemma viaHtml_fallback (page : UsagePage) :
  match result (viaHtml page) with
  | Gives data => Gives data
  | Raises message => Raises (surfaced message)
  end = fallback page /\
  trace (viaHtml page) = [OpScrapeHtml].
Proof.
  unfold viaHtml, fallback.
  destruct (scraped page) as [[[usagePercent |] [text |]] | message]; split; reflexivity.
Qed.

(** The direct call: what it gives, and that it does not scrape. *)
Lemma viaApi_result (page : UsagePage) :
  result (viaApi page) =
    match readsCookies page, usageReply page with
    | Returns, Json response =>
        processApiResponse page response
          (contribution (creditsCaptured page) (creditsReply page))
          (contribution (overageCaptured page) (overageReply page))
    | _, _ => None
    end /\
  ~ In OpScrapeHtml (trace (viaApi page)).
Proof.
  unfold viaApi, orNull, contribution.
  destruct (readsCookies page), (usageReply page), (creditsCaptured page),
    (creditsReply page), (overageCaptured page), (overageReply page);
    cbn; (split; [reflexivity | intuition discriminate]).
Qed.

(** The outer [try], once the navigation has returned. *)
Lemma tryFetchUsageData_cases (page : UsagePage) :
  gotoUsagePage page = Returns ->
  match (if apiCaptured page then result (viaApi page) else None) with
  | Some data =>
      result (tryFetchUsageData page) = Gives (FromApi data) /\
      trace (tryFetchUsageData page) = OpGotoUsagePage :: trace (viaApi page)
  | None =>
      result (tryFetchUsageData page) = result (viaHtml page) /\
      trace (tryFetchUsageData page) =
        (OpGotoUsagePage :: if apiCaptured page then trace (viaApi page) else []) ++
        [OpScrapeHtml]
  end.
Proof.
  intros Hgoto. unfold tryFetchUsageData. rewrite Hgoto.
  destruct (viaHtml_fallback page) as [_ Hscrape].
  destruct (viaHtml page) as [scrapedResult scrapeSteps].
  destruct (viaApi page) as [direct steps].
  unfold result, trace, bind, tell, ret in *. cbn [fst snd] in *. subst scrapeSteps.
  destruct (apiCaptured page); [destruct direct as [data |] |]; cbn;
    rewrite ?app_nil_r; split; reflexivity.
Qed.

Lemma fetchUsageData_catch (page : UsagePage) :
  result (fetchUsageData page) =
    match result (tryFetchUsageData page) with
    | Gives data => Gives data
    | Raises message => Raises (surfaced message)
    end /\
  trace (fetchUsageData page) = trace (tryFetchUsageData page).
Proof.
  unfold fetchUsageData, surfaced.
  rewrite TraceFacts.result_bind, TraceFacts.trace_bind.
  destruct (result (tryFetchUsageData page)) as [data | message];
    [| destruct (Str.includes message "timeout")];
    cbn [result trace ret fst snd]; rewrite app_nil_r; split; reflexivity.
Qed.

Lemma surfaced_quiet (message : string) : Str.includes (surfaced message) "timeout" = false.
Proof.
  unfold surfaced. destruct (Str.includes message "timeout") eqn:Hm; [reflexivity | exact Hm].
Qed.

(** X21. [fetchUsageData] prefers the API and falls back to the text of
    the page.  When the navigation returns, the endpoint was captured, the
    cookies are read, the usage endpoint answers with JSON and
    [processApiResponse] accepts it, the data returned is the processed
    data, and the page is not scraped; the credits and the overage
    endpoints contribute their JSON or [null], and an endpoint that was not
    captured, a response that is not ok and a fetch that throws all
    contribute [null] without failing the fetch.  In every other case in
    which the navigation returns (no endpoint captured, or any error on
    the way through the API) the page is scraped, last, and the result is
    what the text gives: the percentage with the reset time, [Unknown] for
    a reset time that is missing or empty, and an error when no percentage
    is found.  A navigation that throws ends the fetch with no further
    call.  No rejection carries a message that holds [timeout]: such a
    message is replaced by the one about the page taking too long. *)
Theorem fetchUsageData_falls_back (page : UsagePage) :
  let fetched := result (fetchUsageData page) in
  let calls := trace (fetchUsageData page) in
  let direct :=
    match readsCookies page, usageReply page with
    | Returns, Json response =>
        processApiResponse page response
          (contribution (creditsCaptured page) (creditsReply page))
          (contribution (overageCaptured page) (overageReply page))
    | _, _ => None
    end in
  (forall message,
     gotoUsagePage page = Throws message ->
     fetched = Raises (surfaced message) /\ calls = [OpGotoUsagePage]) /\
  (forall data,
     gotoUsagePage page = Returns -> apiCaptured page = true -> direct = Some data ->
     fetched = Gives (FromApi data) /\ ~ In OpScrapeHtml calls) /\
  (gotoUsagePage page = Returns -> apiCaptured page = false \/ direct = None ->
   fetched = fallback page /\ List.last calls OpGotoUsagePage = OpScrapeHtml) /\
  (forall message, fetched = Raises message -> Str.includes message "timeout" = false).
Proof.
  cbn zeta. destruct (fetchUsageData_catch page) as [-> ->].
  destruct (viaApi_result page) as [Hdirect Hquiet].
  destruct (viaHtml_fallback page) as [Hfallback _].
  pose proof (tryFetchUsageData_cases page) as Hcases.
  rewrite Hdirect in Hcases.
  set (direct := match readsCookies page, usageReply page with
                 | Returns, Json response => _
                 | _, _ => None
                 end) in *.
  split; [| split; [| split]].
  - intros message Hgoto. unfold tryFetchUsageData. rewrite Hgoto. split; reflexivity.
  - intros data Hgoto Hcaptured Hdata. specialize (Hcases Hgoto).
    rewrite Hcaptured, Hdata in Hcases. destruct Hcases as [-> ->].
    split; [reflexivity |]. intros [[=] | Hin]. exact (Hquiet Hin).
  - intros Hgoto Hcase. specialize (Hcases Hgoto).
    assert (Hnone : (if apiCaptured page then direct else None) = None).
    { destruct Hcase as [-> | ->]; [reflexivity | destruct (apiCaptured page); reflexivity]. }
    rewrite Hnone in Hcases. destruct Hcases as [-> ->].
    split; [exact Hfallback | apply List.last_last].
  - intros message Hraised.
    destruct (result (tryFetchUsageData page)) as [data | raised]; [discriminate |].
    injection Hraised as <-. apply surfaced_quiet.
Qed.

End FetchFacts.
(** ** The session tracker *)

Module TrackerFacts.
Import Tracker.

(** The objects [loadData] builds are the sessions of the file. *)
Lemma omap_lookup_seq (h l : list Session) :
  omap (fun r => (h ++ l) !! r) (seq (length h) (length l)) = l.
Proof.
  revert h. induction l as [| s l IH]; intros h; [reflexivity |].
  cbn. rewrite list_lookup_middle by reflexivity.
  specialize (IH (h ++ [s])).
  rewrite length_app, <- app_assoc in IH. cbn in IH.
  rewrite Nat.add_1_r in IH. rewrite IH. reflexivity.
Qed.

Lemma sumCurrent_seq (h l : list Session) (start : Z) :
  fold_left
    (fun sum r => sum + match (h ++ l) !! r with
                        | Some s => current (tokenUsage s)
                        | None => 0
                        end)
    (seq (length h) (length l)) start =
  fold_left (fun sum s => sum + current (tokenUsage s)) l start.
Proof.
  revert h start. induction l as [| s l IH]; intros h start; [reflexivity |].
  cbn. rewrite list_lookup_middle by reflexivity.
  specialize (IH (h ++ [s]) (start + current (tokenUsage s))).
  rewrite length_app, <- app_assoc in IH. cbn in IH.
  rewrite Nat.add_1_r in IH. exact IH.
Qed.

Lemma last_seq_snoc (start n : nat) : last (seq start (S n)) = Some (start + n)%nat.
Proof. rewrite seq_S. apply last_snoc. Qed.

(** X2. After a restart ([currentSession] is [null]) the last session of
    the file is the one updated, in place: it gets the new count, the limit,
    what remains and the time of the update; the sessions before it stay;
    the total is the sum of the sessions' counts. *)
Lemma updateTokens_after_restart (tokensUsed : Z) (tokenLimit : option Z)
    (nowIso : string) (st : State) (earlier : list Session) (s : Session)
    (recorded : Totals) :
  currentSession st = None ->
  file st = Some {| sessions := earlier ++ [s]; totals := recorded |} ->
  let limit :=
    match tokenLimit with
    | Some l => if Z.eqb l 0 then tokenLimitSetting st else l
    | None => tokenLimitSetting st
    end in
  let updated := earlier ++ [setTokenUsage tokensUsed limit nowIso s] in
  file (updateTokens tokensUsed tokenLimit nowIso st) =
    Some {| sessions := updated;
            totals :=
              {| totalSessions := totalSessions recorded;
                 totalTokensUsed :=
                   fold_left (fun sum x => sum + current (tokenUsage x)) updated 0;
                 lastSessionDate := lastSessionDate recorded |} |}.
Proof.
  intros Hcur Hfile. cbn zeta.
  unfold updateTokens, loadData. rewrite Hfile. cbn [sessions totals].
  cbn [currentSession sessionRefs dataTotals heap]. rewrite Hcur.
  rewrite length_app. cbn [length]. rewrite Nat.add_1_r, last_seq_snoc.
  unfold saveData. cbn [file heap sessionRefs dataTotals].
  set (f := setTokenUsage tokensUsed _ nowIso).
  assert (Halter :
    alter f (length (heap st) + length earlier)%nat (heap st ++ earlier ++ [s])
    = heap st ++ earlier ++ [f s]).
  { rewrite alter_app_r.
    rewrite <- (Nat.add_0_r (length earlier)), alter_app_r. reflexivity. }
  rewrite Halter.
  replace (S (length earlier)) with (length (earlier ++ [f s]))
    by (rewrite length_app; cbn; lia).
  unfold sumCurrent. rewrite omap_lookup_seq, sumCurrent_seq. reflexivity.
Qed.

(** X3. With [currentSession] set, the object updated is the one of the
    running process and not one of those just read from the file: the
    sessions written back are the ones that were read. *)
Lemma updateTokens_in_process (tokensUsed : Z) (tokenLimit : option Z)
    (nowIso : string) (st : State) (r : Ref) (doc : Document) :
  currentSession st = Some r ->
  (r < length (heap st))%nat ->
  file st = Some doc ->
  let after := updateTokens tokensUsed tokenLimit nowIso st in
  (exists written,
     file after = Some {| sessions := sessions doc; totals := written |}) /\
  heap after !! r =
    setTokenUsage tokensUsed
      match tokenLimit with
      | Some l => if Z.eqb l 0 then tokenLimitSetting st else l
      | None => tokenLimitSetting st
      end nowIso <$> heap st !! r.
Proof.
  intros Hcur Hr Hfile. cbn zeta.
  unfold updateTokens, loadData. rewrite Hfile.
  cbn [currentSession sessionRefs dataTotals heap]. rewrite Hcur.
  unfold saveData. cbn [file heap sessionRefs dataTotals].
  set (f := setTokenUsage tokensUsed _ nowIso).
  rewrite alter_app_l by exact Hr.
  replace (length (heap st)) with (length (alter f r (heap st)))
    by apply length_alter.
  rewrite omap_lookup_seq. split; [eexists; reflexivity |].
  rewrite lookup_app_l by (rewrite length_alter; exact Hr).
  apply list_lookup_alter_eq.
Qed.

(** C8, at the input where it fails.  A session is started in a process
    whose session file does not exist yet, then [updateTokens 5000] runs in
    the same process: the file still shows the session with [current = 0]
    and [remaining = 200000]; only the object in memory was updated. *)
Theorem updateTokens_after_startSession :
  let started :=
    (startSession "Claude Code session (auto-created)" "2025-12-05T10:00:00.000Z"
       newProcess).2 in
  let after := updateTokens 5000 (Some 200000) "2025-12-05T10:05:00.000Z" started in
  file after =
    Some {| sessions :=
              [{| sessionId := "session-2025-12-05-001";
                  startTime := "2025-12-05T10:00:00.000Z";
                  description := "Claude Code session (auto-created)";
                  tokenUsage := {| current := 0; limit := 200000; remaining := 200000;
                                   lastUpdate := "2025-12-05T10:00:00.000Z" |} |}];
            totals := {| totalSessions := 1; totalTokensUsed := 0;
                         lastSessionDate := Some "2025-12-05T10:00:00.000Z" |} |} /\
  (currentSession after ≫= fun r => tokenUsage <$> heap after !! r) =
    Some {| current := 5000; limit := 200000; remaining := 195000;
            lastUpdate := "2025-12-05T10:05:00.000Z" |}.
Proof. split; reflexivity. Qed.

(** The same session updated after a restart: now the file shows it. *)
Lemma updateTokens_after_restart_example :
  let started :=
    (startSession "Claude Code session (auto-created)" "2025-12-05T10:00:00.000Z"
       newProcess).2 in
  let after :=
    updateTokens 5000 (Some 200000) "2025-12-05T10:05:00.000Z" (restart started) in
  currentSession (restart started) = None /\
  (sessions <$> file after) =
    Some [{| sessionId := "session-2025-12-05-001";
             startTime := "2025-12-05T10:00:00.000Z";
             description := "Claude Code session (auto-created)";
             tokenUsage := {| current := 5000; limit := 200000; remaining := 195000;
                              lastUpdate := "2025-12-05T10:05:00.000Z" |} |}].
Proof.
  cbn zeta. split; [reflexivity |].
  rewrite (updateTokens_after_restart 5000 (Some 200000) "2025-12-05T10:05:00.000Z"
             (restart (startSession "Claude Code session (auto-created)"
                         "2025-12-05T10:00:00.000Z" newProcess).2)
             []
             {| sessionId := "session-2025-12-05-001";
                startTime := "2025-12-05T10:00:00.000Z";
                description := "Claude Code session (auto-created)";
                tokenUsage := {| current := 0; limit := 200000; remaining := 200000;
                                 lastUpdate := "2025-12-05T10:00:00.000Z" |} |}
             {| totalSessions := 1; totalTokensUsed := 0;
                lastSessionDate := Some "2025-12-05T10:00:00.000Z" |}
             eq_refl eq_refl).
  reflexivity.
Defined.

(** In the process that started the session the file keeps its sessions. *)
Lemma updateTokens_in_process_example :
  let started :=
    (startSession "Claude Code session (auto-created)" "2025-12-05T10:00:00.000Z"
       newProcess).2 in
  let after := updateTokens 5000 (Some 200000) "2025-12-05T10:05:00.000Z" started in
  currentSession started = Some 0%nat /\
  (sessions <$> file after) = (sessions <$> file started).
Proof.
  cbn zeta. split; [reflexivity |].
  destruct (updateTokens_in_process 5000 (Some 200000) "2025-12-05T10:05:00.000Z"
              (startSession "Claude Code session (auto-created)"
                 "2025-12-05T10:00:00.000Z" newProcess).2
              0%nat
              {| sessions :=
                   [{| sessionId := "session-2025-12-05-001";
                       startTime := "2025-12-05T10:00:00.000Z";
                       description := "Claude Code session (auto-created)";
                       tokenUsage := {| current := 0; limit := 200000;
                                        remaining := 200000;
                                        lastUpdate := "2025-12-05T10:00:00.000Z" |} |}];
                 totals := {| totalSessions := 1; totalTokensUsed := 0;
                              lastSessionDate := Some "2025-12-05T10:00:00.000Z" |} |}
              eq_refl (Nat.lt_0_succ 0) eq_refl)
    as [[written Hfile] _].
  rewrite Hfile. reflexivity.
Defined.

End TrackerFacts.
(** ** The session file under the tracker's operations *)

Module TrackerFileFacts.
Import Tracker TrackerNotions.

Lemma omap_lookup_seq_app (h l extra : list Session) :
  omap (fun r => (h ++ l ++ extra) !! r) (seq (length h) (length l)) = l.
Proof.
  revert h. induction l as [| s l IH]; intros h; [reflexivity |].
  cbn. rewrite list_lookup_middle by reflexivity.
  specialize (IH (h ++ [s])).
  rewrite length_app, <- app_assoc in IH. cbn in IH.
  rewrite Nat.add_1_r in IH. rewrite IH. reflexivity.
Qed.

(** The sessions [loadData] hands out are those of the file. *)
Lemma loadData_sessions (st : State) :
  omap (fun r => heap (loadData st).2 !! r) (sessionRefs (loadData st).1) =
    sessionsOf (file st) /\
  length (sessionRefs (loadData st).1) = length (sessionsOf (file st)) /\
  file (loadData st).2 = file st /\
  currentSession (loadData st).2 = currentSession st /\
  tokenLimitSetting (loadData st).2 = tokenLimitSetting st /\
  heap (loadData st).2 = heap st ++ sessionsOf (file st) /\
  sessionRefs (loadData st).1 = seq (length (heap st)) (length (sessionsOf (file st))).
Proof.
  unfold loadData. destruct (file st) as [doc |] eqn:Hfile; cbn.
  - rewrite TrackerFacts.omap_lookup_seq, length_seq. auto 10.
  - rewrite app_nil_r. auto 10.
Qed.

Lemma loadData_totals (st : State) :
  dataTotals (loadData st).1 =
    match file st with
    | Some doc => totals doc
    | None => emptyTotals
    end.
Proof. unfold loadData. destruct (file st); reflexivity. Qed.

(** [startSession] appends the session it creates to those of the file,
    and the tracker holds the object it wrote. *)
Lemma startSession_appends (description nowIso : string) (st : State) :
  let n := length (sessionsOf (file st)) in
  let new := created n description nowIso (tokenLimitSetting st) in
  let after := (startSession description nowIso st).2 in
  sessionsOf (file after) = sessionsOf (file st) ++ [new] /\
  (exists doc, file after = Some doc /\ totalSessions (totals doc) = S n /\
               lastSessionDate (totals doc) = Some nowIso) /\
  currentSession after = Some (startSession description nowIso st).1 /\
  heap after !! (startSession description nowIso st).1 = Some new /\
  tokenLimitSetting after = tokenLimitSetting st.
Proof.
  cbn zeta. unfold startSession.
  destruct (loadData_sessions st) as (_ & Hlen & Hfile & Hcur & Hlimit & Hheap & Hrefs).
  destruct (loadData st) as [data st1]. cbn [fst snd] in *.
  unfold saveData. cbn [file heap sessionRefs dataTotals currentSession tokenLimitSetting snd fst].
  rewrite Hlen, Hlimit.
  set (new := {| sessionId := _ |}).
  assert (Hsaved :
    omap (fun r => (heap st1 ++ [new]) !! r) (sessionRefs data ++ [length (heap st1)]) =
      sessionsOf (file st) ++ [new]).
  { rewrite Hrefs, Hheap, <- app_assoc, omap_app, omap_lookup_seq_app.
    cbn [omap list_omap]. rewrite app_assoc, list_lookup_middle by reflexivity.
    reflexivity. }
  cbn [sessionsOf sessions]. rewrite Hsaved.
  split; [reflexivity |].
  split.
  { eexists. split; [reflexivity |]. cbn [totals totalSessions lastSessionDate].
    split; [| reflexivity]. rewrite length_app, Hlen. cbn. lia. }
  split; [reflexivity |].
  split; [apply list_lookup_middle; reflexivity | reflexivity].
Qed.

(** Updating the counters of one object changes no identity. *)
Lemma setTokenUsage_identity (tokensUsed limit : Z) (nowIso : string) (s : Session) :
  identity (setTokenUsage tokensUsed limit nowIso s) = identity s.
Proof. reflexivity. Qed.

Lemma omap_alter_identity (f : Session -> Session) (r : Ref) (h : list Session)
    (refs : list Ref) :
  (forall s, identity (f s) = identity s) ->
  (identity <$> omap (fun i => alter f r h !! i) refs) =
  (identity <$> omap (fun i => h !! i) refs).
Proof.
  intros Hf. induction refs as [| i refs IH]; [reflexivity |].
  cbn [omap list_omap]. rewrite list_lookup_alter.
  destruct (decide (r = i)) as [-> | Hne].
  - destruct (h !! i) as [s |]; cbn; [| exact IH].
    rewrite Hf. f_equal. exact IH.
  - destruct (h !! i) as [s |]; cbn; [f_equal |]; exact IH.
Qed.

(** [updateTokens] changes counters only: the sessions of the file keep
    their identities and their order, and the count of the totals. *)
Lemma updateTokens_identity (tokensUsed : Z) (tokenLimit : option Z) (nowIso : string)
    (st : State) :
  let after := updateTokens tokensUsed tokenLimit nowIso st in
  (identity <$> sessionsOf (file after)) = (identity <$> sessionsOf (file st)) /\
  (countsSessions (file st) -> countsSessions (file after)).
Proof.
  cbn zeta. unfold updateTokens.
  destruct (loadData_sessions st) as (Hsessions & Hlen & Hfile & Hcur & Hlimit & Hheap & Hrefs).
  pose proof (loadData_totals st) as Htotals.
  destruct (loadData st) as [data st1]. cbn [fst snd] in *.
  set (f := setTokenUsage tokensUsed _ nowIso).
  destruct (match currentSession st1 with
            | Some r => Some r
            | None => last (sessionRefs data)
            end) as [r |].
  2:{ rewrite Hfile. split; [reflexivity | tauto]. }
  unfold saveData. cbn [file heap sessionRefs dataTotals sessionsOf sessions].
  pose proof (omap_alter_identity f r (heap st1) (sessionRefs data)
                (setTokenUsage_identity tokensUsed _ nowIso)) as Hid.
  rewrite Hsessions in Hid.
  split; [exact Hid |].
  unfold countsSessions. cbn [totals totalSessions sessions].
  apply (f_equal length) in Hid. rewrite !length_fmap in Hid. rewrite Hid, Htotals.
  destruct (file st) as [doc |]; cbn; [tauto | reflexivity].
Qed.

Lemma started_app (n : nat) (calls : list Call) (c : Call) :
  started n (calls ++ [c]) =
    started n calls ++
    match c with
    | CallStartSession description nowIso =>
        [identity (created (n + length (started n calls)) description nowIso 0)]
    | _ => []
    end.
Proof.
  revert n. induction calls as [| c' calls IH]; intros n.
  - cbn. destruct c; cbn; rewrite ?Nat.add_0_r; reflexivity.
  - destruct c'; cbn [app started]; rewrite IH; try reflexivity.
    cbn [app length]. rewrite Nat.add_succ_r. reflexivity.
Qed.

(** X11. The session file is append-only under the tracker.  After any
    sequence of [startSession], [updateTokens], [getCurrentSession] calls
    and restarts of the extension, the sessions of the file are, in order,
    the sessions it held before with their identifier, start time and
    description unchanged, followed by one session for each [startSession]
    call, in the order of the calls; the identifier of each new session
    carries the date of its start and, as its ordinal, its position in the
    file counted from 1; no session is removed or reordered.  If the
    count of the totals was the number of sessions before, it is so
    after. *)
Theorem run_appends_sessions (calls : list Call) (st : State) :
  (identity <$> sessionsOf (file (run calls st))) =
    (identity <$> sessionsOf (file st)) ++
    started (length (sessionsOf (file st))) calls /\
  (countsSessions (file st) -> countsSessions (file (run calls st))).
Proof.
  induction calls as [| c calls [IHid IHcount]] using rev_ind.
  - cbn. rewrite app_nil_r. tauto.
  - unfold run in *. rewrite fold_left_app. cbn [fold_left].
    set (before := fold_left call calls st) in *.
    rewrite started_app.
    assert (Hn : (length (sessionsOf (file st)) +
                  length (started (length (sessionsOf (file st))) calls))%nat =
                 length (sessionsOf (file before))).
    { apply (f_equal length) in IHid. rewrite length_fmap, length_app, length_fmap in IHid.
      symmetry. exact IHid. }
    destruct c as [description nowIso | tokensUsed tokenLimit nowIso | |]; cbn [call].
    + destruct (startSession_appends description nowIso before)
        as (Hnew & (doc & Hdoc & Htotal & _) & _).
      cbn zeta in Hnew. rewrite Hnew, fmap_app, IHid, Hn, <- app_assoc.
      split; [reflexivity |].
      intros _. unfold countsSessions. rewrite Hdoc.
      rewrite Hdoc in Hnew. cbn [sessionsOf] in Hnew.
      rewrite Hnew, Htotal, length_app. cbn. lia.
    + destruct (updateTokens_identity tokensUsed tokenLimit nowIso before) as [Hid Hcount].
      cbn zeta in Hid, Hcount. rewrite Hid, IHid, app_nil_r. tauto.
    + assert (Hfile : file (getCurrentSession before).2 = file before).
      { unfold getCurrentSession. destruct (currentSession before); [reflexivity |].
        destruct (loadData_sessions before) as (_ & _ & Hfile & _).
        destruct (loadData before). exact Hfile. }
      rewrite Hfile, IHid, app_nil_r. tauto.
    + cbn [restart file]. rewrite IHid, app_nil_r. tauto.
Qed.

(** Without an object of its own, the tracker answers from the file. *)
Lemma getCurrentSession_from_file (st : State) :
  currentSession st = None ->
  deref (getCurrentSession st).2 (getCurrentSession st).1 = last (sessionsOf (file st)) /\
  file (getCurrentSession st).2 = file st /\
  currentSession (getCurrentSession st).2 = None /\
  tokenLimitSetting (getCurrentSession st).2 = tokenLimitSetting st /\
  ((getCurrentSession st).1 = None <-> sessionsOf (file st) = []).
Proof.
  intros Hcur. unfold getCurrentSession. rewrite Hcur.
  destruct (loadData_sessions st) as (_ & _ & Hfile & Hcur' & Hlimit & Hheap & Hrefs).
  destruct (loadData st) as [data st1]. cbn [fst snd] in *.
  rewrite Hfile, Hcur', Hlimit, Hcur, Hrefs.
  split; [| split; [reflexivity | split; [reflexivity | split; [reflexivity |]]]].
  - destruct (sessionsOf (file st)) as [| s l _] using rev_ind; [reflexivity |].
    rewrite length_app. cbn [length]. rewrite Nat.add_1_r, TrackerFacts.last_seq_snoc.
    cbn [deref]. rewrite Hheap, last_snoc, app_assoc.
    apply list_lookup_middle. rewrite length_app. reflexivity.
  - destruct (sessionsOf (file st)) as [| s l _] using rev_ind; [tauto |].
    rewrite length_app. cbn [length]. rewrite Nat.add_1_r, TrackerFacts.last_seq_snoc.
    split; [discriminate |]. intros Hnil. destruct l; discriminate.
Qed.

(** With [currentSession] unset, [updateTokens] rewrites the last session
    of the file. *)
Lemma updateTokens_last_of_file (tokensUsed : Z) (tokenLimit : option Z) (nowIso : string)
    (st : State) (earlier : list Session) (s : Session) :
  currentSession st = None ->
  sessionsOf (file st) = earlier ++ [s] ->
  let limit :=
    match tokenLimit with
    | Some l => if Z.eqb l 0 then tokenLimitSetting st else l
    | None => tokenLimitSetting st
    end in
  let after := updateTokens tokensUsed tokenLimit nowIso st in
  sessionsOf (file after) = earlier ++ [setTokenUsage tokensUsed limit nowIso s] /\
  currentSession after = None /\
  tokenLimitSetting after = tokenLimitSetting st.
Proof.
  intros Hcur Hsessions. cbn zeta. unfold updateTokens.
  destruct (loadData_sessions st) as (_ & _ & Hfile & Hcur' & Hlimit & Hheap & Hrefs).
  destruct (loadData st) as [data st1]. cbn [fst snd] in *.
  rewrite Hcur', Hcur, Hrefs, Hsessions.
  rewrite length_app. cbn [length]. rewrite Nat.add_1_r, TrackerFacts.last_seq_snoc.
  unfold saveData. cbn [file heap sessionRefs dataTotals sessionsOf sessions currentSession
                        tokenLimitSetting].
  set (f := setTokenUsage tokensUsed _ nowIso).
  rewrite Hheap, Hsessions.
  assert (Halter :
    alter f (length (heap st) + length earlier)%nat (heap st ++ earlier ++ [s])
    = heap st ++ (earlier ++ [f s]) ++ []).
  { rewrite alter_app_r.
    rewrite <- (Nat.add_0_r (length earlier)), alter_app_r, app_nil_r. reflexivity. }
  rewrite Halter.
  replace (S (length earlier)) with (length (earlier ++ [f s]))
    by (rewrite length_app; cbn; lia).
  rewrite omap_lookup_seq_app. auto.
Qed.

(** With [currentSession] set, [updateTokens] rewrites the object of the
    process; the sessions of the file stay as they are. *)
Lemma updateTokens_of_process (tokensUsed : Z) (tokenLimit : option Z) (nowIso : string)
    (st : State) (r : Ref) :
  currentSession st = Some r ->
  (r < length (heap st))%nat ->
  let limit :=
    match tokenLimit with
    | Some l => if Z.eqb l 0 then tokenLimitSetting st else l
    | None => tokenLimitSetting st
    end in
  let after := updateTokens tokensUsed tokenLimit nowIso st in
  heap after !! r = setTokenUsage tokensUsed limit nowIso <$> heap st !! r /\
  sessionsOf (file after) = sessionsOf (file st) /\
  currentSession after = Some r /\
(length (heap st) <= length (heap after))%nat /\
  tokenLimitSetting after = tokenLimitSetting st.
Proof.
  intros Hcur Hr. cbn zeta. unfold updateTokens.
  destruct (loadData_sessions st) as (_ & _ & Hfile & Hcur' & Hlimit & Hheap & Hrefs).
  destruct (loadData st) as [data st1]. cbn [fst snd] in *.
  rewrite Hcur', Hcur.
  unfold saveData. cbn [file heap sessionRefs dataTotals sessionsOf sessions currentSession
                        tokenLimitSetting].
  set (f := setTokenUsage tokensUsed _ nowIso).
  rewrite Hheap, Hrefs, alter_app_l by exact Hr.
  split; [| split; [| split; [reflexivity | split; [| exact Hlimit]]]].
  - rewrite lookup_app_l by (rewrite length_alter; exact Hr).
    apply list_lookup_alter_eq.
  - replace (length (heap st)) with (length (alter f r (heap st))) by apply length_alter.
    apply TrackerFacts.omap_lookup_seq.
  - rewrite length_app, length_alter. lia.
Qed.

(** X12. The session [startSession] returns is the session it wrote: it
    is the last session of the file, after those that were there; it has
    the description given, no tokens used and the configured limit; and it
    is the session [getCurrentSession] returns afterwards, in the same
    process as well as after a restart of the extension. *)
Theorem startSession_round_trip (description nowIso : string) (st : State) :
  let n := length (sessionsOf (file st)) in
  let new := created n description nowIso (tokenLimitSetting st) in
  let returned := (startSession description nowIso st).1 in
  let after := (startSession description nowIso st).2 in
  deref after (Some returned) = Some new /\
  sessionsOf (file after) = sessionsOf (file st) ++ [new] /\
  deref (getCurrentSession after).2 (getCurrentSession after).1 = Some new /\
  deref (getCurrentSession (restart after)).2 (getCurrentSession (restart after)).1 =
    Some new /\
  countsSessions (file after).
Proof.
  cbn zeta.
  destruct (startSession_appends description nowIso st)
    as (Hnew & (doc & Hdoc & Htotal & _) & Hcur & Hheap & _).
  cbn zeta in Hnew, Hcur, Hheap.
  split; [exact Hheap |]. split; [exact Hnew |].
  split.
  { unfold getCurrentSession. rewrite Hcur. exact Hheap. }
  split.
  { destruct (getCurrentSession_from_file (restart (startSession description nowIso st).2)
                eq_refl) as [Hlast _].
    rewrite Hlast. cbn [restart file]. rewrite Hnew. apply last_snoc. }
  unfold countsSessions. rewrite Hdoc. rewrite Hdoc in Hnew. cbn [sessionsOf] in Hnew.
  rewrite Hnew, Htotal, length_app. cbn. lia.
Qed.

End TrackerFileFacts.
(** ** The token monitor: the snapshot and the tracker together *)

Module ExtensionFacts.
Import Tracker TrackerNotions TrackerFileFacts Extension.

Lemma lookup_alive {A} (l : list A) (r : nat) (x : A) :
  l !! r = Some x -> (r < length l)%nat.
Proof. intros Hx. apply lookup_lt_is_Some. eauto. Qed.

Section Monitor.
Context `{Json}.

(** X13. [updateTokensFromJsonl], when the snapshot
    [getCurrentSessionUsage] returns is active and of a positive size,
    hands the status bar a session whose token usage is the snapshot:
    [current] is the snapshot's [totalTokens], [limit] the configured limit
    and [remaining] their difference.  This holds in the process that
    started the session, after a restart, and when there is no session
    yet; in the last case, and only then, one session is added to the
    file, described as auto-created, and no session is ever removed.  With
    an inactive snapshot, or one of size 0, no session data is shown and the
    tracker and its file are left as they are.  The files read are those
    the snapshot reads. *)
Theorem updateTokensFromJsonl_shows_snapshot (claudeDataLoader : ClaudeDataLoader)
    (fs : Node) (now : Z) (nowStart nowUpdate : string) (st : State) :
  currentIsAlive st ->
  let monitor := updateTokensFromJsonl claudeDataLoader fs now nowStart nowUpdate st in
  let usage := result (getCurrentSessionUsage claudeDataLoader fs now) in
  let shown := (result monitor).1 in
  let after := (result monitor).2 in
  let total := totalTokens (session usage) in
  let hadSession :=
    match currentSession st, sessionsOf (file st) with
    | None, [] => false
    | _, _ => true
    end in
  (isActive usage = true -> 0 < total ->
   (exists s,
      shown = Some s /\
      tokenUsage s =
        {| current := total;
           limit := tokenLimitSetting st;
           remaining := tokenLimitSetting st - total;
           lastUpdate := nowUpdate |}) /\
   (identity <$> sessionsOf (file after)) =
     (identity <$> sessionsOf (file st)) ++
     (if hadSession then []
      else [identity (created 0 "Claude Code session (auto-created)" nowStart 0)]) /\
   currentIsAlive after) /\
  (isActive usage = false \/ total <= 0 -> shown = None /\ after = st) /\
  trace monitor = trace (getCurrentSessionUsage claudeDataLoader fs now).
Proof.
  intros Halive. cbn zeta. unfold updateTokensFromJsonl.
  rewrite TraceFacts.result_bind, TraceFacts.trace_bind.
  set (usage := result (getCurrentSessionUsage claudeDataLoader fs now)).
  change (result (ret (showSnapshot usage nowStart nowUpdate st)))
    with (showSnapshot usage nowStart nowUpdate st).
  change (trace (ret (showSnapshot usage nowStart nowUpdate st))) with (@nil FsOp).
  rewrite app_nil_r.
  destruct (showSnapshot usage nowStart nowUpdate st) as [shown after] eqn:Hrun.
  cbn [fst snd]. unfold showSnapshot in Hrun.
  split; [| split; [| reflexivity]].
  2:{ intros Hidle.
      assert (Hcond : isActive usage && (0 <? totalTokens (session usage)) = false).
      { destruct Hidle as [-> | Hle]; [reflexivity |].
        apply andb_false_iff. right. apply Z.ltb_ge. exact Hle. }
      rewrite Hcond in Hrun. injection Hrun as <- <-. split; reflexivity. }
  intros Hactive Hpositive.
  apply Z.ltb_lt in Hpositive. rewrite Hactive, Hpositive in Hrun. cbn [andb] in Hrun.
  set (total := totalTokens (session usage)) in *.
  assert (Hlimit : forall l : Z, (if Z.eqb l 0 then l else l) = l)
    by (intros l; destruct (Z.eqb l 0); reflexivity).
  unfold currentIsAlive in Halive.
  destruct (currentSession st) as [r |] eqn:Hcur.
  - (* the process holds the session *)
    unfold getCurrentSession at 1 in Hrun. rewrite Hcur in Hrun.
    destruct (updateTokens_of_process total (Some (tokenLimitSetting st)) nowUpdate st r
                Hcur Halive) as (Hobject & Hsessions & Hcur3 & Hheap & _).
    cbn zeta in Hobject, Hsessions, Hcur3, Hheap. rewrite Hlimit in Hobject.
    set (st3 := updateTokens total (Some (tokenLimitSetting st)) nowUpdate st) in *.
    unfold getCurrentSession in Hrun. rewrite Hcur3 in Hrun. cbn [deref] in Hrun.
    injection Hrun as <- <-.
    destruct (lookup_lt_is_Some_2 (heap st) r Halive) as [s0 Hs0].
    rewrite Hobject, Hs0. cbn [fmap option_fmap option_map].
    split; [eexists; split; reflexivity |].
    split; [rewrite Hsessions, app_nil_r; reflexivity |].
    unfold currentIsAlive. rewrite Hcur3. lia.
  - destruct (getCurrentSession_from_file st Hcur)
      as (_ & Hfile1 & Hcur1 & Hlimit1 & Hnone).
    destruct (getCurrentSession st) as [found st1]. cbn [fst snd] in *.
    destruct (sessionsOf (file st)) as [| s earlier _] eqn:Hsessions using rev_ind.
    + (* no session yet: one is created *)
      destruct Hnone as [_ Hnone]. rewrite (Hnone eq_refl) in Hrun.
      destruct (startSession_appends "Claude Code session (auto-created)" nowStart st1)
        as (Hnew & _ & Hcur2 & Hobject2 & Hlimit2).
      cbn zeta in Hnew, Hcur2, Hobject2, Hlimit2.
      rewrite Hfile1, Hsessions in Hnew, Hobject2. cbn [length app] in Hnew, Hobject2.
      set (ref := (startSession "Claude Code session (auto-created)" nowStart st1).1) in *.
      set (st2 := (startSession "Claude Code session (auto-created)" nowStart st1).2) in *.
      destruct (updateTokens_of_process total (Some (tokenLimitSetting st2)) nowUpdate st2
                  ref Hcur2 (lookup_alive _ _ _ Hobject2))
        as (Hobject & Hsessions3 & Hcur3 & Hheap & _).
      cbn zeta in Hobject, Hsessions3, Hcur3, Hheap. rewrite Hlimit in Hobject.
      set (st3 := updateTokens total (Some (tokenLimitSetting st2)) nowUpdate st2) in *.
      unfold getCurrentSession in Hrun. rewrite Hcur3 in Hrun. cbn [deref] in Hrun.
      injection Hrun as <- <-.
      rewrite Hobject, Hobject2. cbn [fmap option_fmap option_map].
      split.
      { eexists. split; [reflexivity |]. cbn [setTokenUsage tokenUsage].
        rewrite Hlimit2, Hlimit1. reflexivity. }
      split; [rewrite Hsessions3, Hnew; reflexivity |].
      unfold currentIsAlive. rewrite Hcur3.
      apply lookup_alive in Hobject2. lia.
    + (* after a restart: the last session of the file *)
      assert (Hfound : exists ref, found = Some ref).
      { destruct found as [ref |]; [eauto |].
        destruct Hnone as [Hnone _]. specialize (Hnone eq_refl).
        destruct earlier; discriminate. }
      destruct Hfound as [ref ->].
      assert (Hsessions1 : sessionsOf (file st1) = earlier ++ [s])
        by (rewrite Hfile1; exact Hsessions).
      destruct (updateTokens_last_of_file total (Some (tokenLimitSetting st1)) nowUpdate st1
                  earlier s Hcur1 Hsessions1) as (Hsessions3 & Hcur3 & _).
      cbn zeta in Hsessions3, Hcur3. rewrite Hlimit in Hsessions3.
      set (st3 := updateTokens total (Some (tokenLimitSetting st1)) nowUpdate st1) in *.
      destruct (getCurrentSession_from_file st3 Hcur3) as (Hlast & Hfile4 & Hcur4 & _).
      destruct (getCurrentSession st3) as [found4 st4]. cbn [fst snd] in *.
      injection Hrun as <- <-.
      rewrite Hlast, Hsessions3, last_snoc.
      split.
      { eexists. split; [reflexivity |]. cbn [setTokenUsage tokenUsage].
        rewrite Hlimit1. reflexivity. }
      split.
      { rewrite Hfile4, Hsessions3.
        replace (match earlier ++ [s] with [] => false | _ :: _ => true end) with true
          by (destruct earlier; reflexivity).
        rewrite !fmap_app, app_nil_r. reflexivity. }
      unfold currentIsAlive. rewrite Hcur4. exact I.
Qed.

End Monitor.

End ExtensionFacts.
(** ** The usage history *)

Module HistoryFacts.
Import History.

Lemma sliceLast_length {A} (n : nat) (a : list A) :
  length (sliceLast n a) = Nat.min n (length a).
Proof. unfold sliceLast. rewrite length_drop. lia. Qed.

Lemma sliceLast_suffix {A} (n : nat) (a : list A) : sliceLast n a `suffix_of` a.
Proof. apply suffix_drop. Qed.

Lemma sliceLast_snoc {A} (n : nat) (a : list A) (x : A) :
  (0 < n)%nat -> last (sliceLast n (a ++ [x])) = Some x.
Proof.
  intros Hn. unfold sliceLast.
  rewrite drop_app_le by (rewrite length_app; simpl; lia).
  apply last_snoc.
Qed.

(** What [addDataPoint] writes: the previous points and the new one, cut
    to the last [maxDataPoints]. *)
Lemma addDataPoint_file (fiveHourUsage : Z) (nowIso : string) (file : option Document) :
  let point := {| timestamp := nowIso; fiveHour := fiveHourUsage |} in
  addDataPoint fiveHourUsage nowIso file =
    (point,
     Some {| dataPoints := sliceLast maxDataPoints (dataPoints (loadData file) ++ [point]);
             lastUpdated := Some nowIso |}).
Proof.
  cbn zeta. unfold addDataPoint. cbn [timestamp].
  destruct (Nat.ltb_spec maxDataPoints
              (length (dataPoints (loadData file) ++
                       [{| timestamp := nowIso; fiveHour := fiveHourUsage |}]))) as [Hlt | Hge];
    [reflexivity |].
  unfold sliceLast.
  replace (_ - maxDataPoints)%nat with 0%nat by lia.
  reflexivity.
Qed.

(** The retention bound holds of every file [addDataPoint] has written. *)
Lemma addDataPoint_bounded (fiveHourUsage : Z) (nowIso : string) (file : option Document) :
  (length (dataPoints (loadData (addDataPoint fiveHourUsage nowIso file).2))
   <= maxDataPoints)%nat.
Proof.
  rewrite addDataPoint_file. cbn [snd loadData dataPoints].
  rewrite sliceLast_length. lia.
Qed.

(** C9. Whatever the history file held before (nothing, fewer than 96
    points, or more), after [addDataPoint] the file holds at most 96 data
    points, the last of them is the point just added, and they are the most
    recent ones, in order: a suffix, of length [min 96 (n + 1)], of the
    previous list extended by the new point. *)
Theorem addDataPoint_retention (fiveHourUsage : Z) (nowIso : string)
    (file : option Document) :
  let point := {| timestamp := nowIso; fiveHour := fiveHourUsage |} in
  let previous := dataPoints (loadData file) in
  exists kept,
    addDataPoint fiveHourUsage nowIso file =
      (point, Some {| dataPoints := kept; lastUpdated := Some nowIso |}) /\
    (length kept <= maxDataPoints)%nat /\
    length kept = Nat.min maxDataPoints (length previous + 1) /\
    last kept = Some point /\
    kept `suffix_of` (previous ++ [point]).
Proof.
  intros point previous.
  exists (sliceLast maxDataPoints (previous ++ [point])).
  split; [apply addDataPoint_file |].
  rewrite sliceLast_length, length_app.
  change (length [point]) with 1%nat.
  split; [lia |]. split; [reflexivity |]. split.
  - apply sliceLast_snoc. unfold maxDataPoints. lia.
  - apply sliceLast_suffix.
Qed.

End HistoryFacts.

(** ** Reading the usage history back *)

Module HistoryReadFacts.
Import History.

Lemma slice_last {A} (count : Z) (a : list A) :
  0 < count -> slice (- count) a = sliceLast (Z.to_nat count) a.
Proof.
  intros Hcount. unfold slice, sliceLast.
  destruct (Z.ltb_spec (- count) 0) as [_ | Hge]; [| lia].
  f_equal. lia.
Qed.

(** X14. [getRecentDataPoints count] for a positive [count] returns the
    [min count n] most recent of the [n] points of the file, in order: a
    suffix of the stored list.  For [count = 0] it returns the whole
    history, not the empty list, for [slice(-0)] is [slice(0)].  Right
    after [addDataPoint] the last point returned is the point just added,
    and at most [min count 96] points are returned; after [clearHistory]
    no point is returned, whatever [count] is; a missing or unreadable
    file gives no point. *)
Theorem getRecentDataPoints_most_recent (count : Z) (file : option Document) :
  let stored := dataPoints (loadData file) in
  (0 < count ->
   getRecentDataPoints count file `suffix_of` stored /\
   length (getRecentDataPoints count file) = Nat.min (Z.to_nat count) (length stored)) /\
  (count = 0 -> getRecentDataPoints count file = stored) /\
  (forall fiveHourUsage nowIso,
     0 < count ->
     let written := (addDataPoint fiveHourUsage nowIso file).2 in
     last (getRecentDataPoints count written) =
       Some {| timestamp := nowIso; fiveHour := fiveHourUsage |} /\
     getRecentDataPoints count written `suffix_of`
       stored ++ [{| timestamp := nowIso; fiveHour := fiveHourUsage |}] /\
     length (getRecentDataPoints count written) =
       Nat.min (Z.to_nat count) (Nat.min maxDataPoints (length stored + 1))) /\
  getRecentDataPoints count (clearHistory file) = [] /\
  getRecentDataPoints count None = [].
Proof.
  cbn zeta.
  assert (Hpositive : forall points : list DataPoint,
    0 < count ->
    (if (length points =? 0)%nat then [] else slice (- count) points) =
      sliceLast (Z.to_nat count) points).
  { intros points Hcount. rewrite slice_last by exact Hcount.
    destruct points; reflexivity. }
  split; [| split; [| split; [| split; reflexivity]]].
  - intros Hcount. unfold getRecentDataPoints. cbn zeta. rewrite Hpositive by exact Hcount.
    split; [apply HistoryFacts.sliceLast_suffix | apply HistoryFacts.sliceLast_length].
  - intros ->. unfold getRecentDataPoints. cbn zeta.
    destruct (dataPoints (loadData file)); reflexivity.
  - intros fiveHourUsage nowIso Hcount. cbn zeta.
    rewrite HistoryFacts.addDataPoint_file. cbn [snd].
    unfold getRecentDataPoints. cbn [loadData dataPoints]. cbn zeta.
    rewrite Hpositive by exact Hcount.
    set (point := {| timestamp := nowIso; fiveHour := fiveHourUsage |}).
    set (stored := dataPoints (loadData file)).
    assert (Hkept : exists older,
      sliceLast maxDataPoints (stored ++ [point]) = older ++ [point] /\
      older `suffix_of` stored).
    { unfold sliceLast.
      rewrite drop_app_le by (rewrite length_app; cbn; unfold maxDataPoints; lia).
      eexists. split; [reflexivity | apply suffix_drop]. }
    destruct Hkept as (older & Hkept & Holder).
    split; [| split].
    + rewrite Hkept. apply HistoryFacts.sliceLast_snoc. lia.
    + etransitivity; [apply HistoryFacts.sliceLast_suffix | apply HistoryFacts.sliceLast_suffix].
    + rewrite !HistoryFacts.sliceLast_length, length_app. reflexivity.
Qed.

End HistoryReadFacts.
(** ** The fetch cycle *)

Module ProviderFacts.
Import Scraper DataProvider.




End ProviderFacts.
(** ** The properties on the example file system *)

Module Scenarios.
Import Example.

(** Scenario A of the specification: the last assistant event with a
    positive cache size decides, whatever follows it; the agent file, though
    modified last, is not the one read. *)
Example scenario_active :
  getCurrentSessionUsage loader disk now =
    ({| session :=
          {| totalTokens := 5000; inputTokens := 0; outputTokens := 0;
             cacheCreationTokens := 200; cacheReadTokens := 5000;
             messageCount := 6 |};
        isActive := true |},
     [OpStat ["home"; "u"; ".config"; "claude"; "projects"];
      OpStat root;
      OpStat (root ++ ["-home-u-proj"]);
      OpReaddir (root ++ ["-home-u-proj"]);
      OpStat mainPath;
      OpReadFile mainPath]).
Proof. vm_compute. reflexivity. Qed.

(** Scenario B: the file is older than the activity window.  The agent
    file is recent, and does not count. *)
Lemma scenario_stale :
  result (getCurrentSessionUsage loader staleDisk now) = inactive /\
  filesRead (getCurrentSessionUsage loader staleDisk now) = [].
Proof.
  apply (SnapshotFacts.getCurrentSessionUsage_outside_window
           loader staleDisk now (root ++ ["-home-u-proj"])); [reflexivity |].
  intros q n Hq. vm_compute in Hq. destruct Hq as [<- | []].
  intros [= <-]. reflexivity.
Defined.

(** What the example lines parse to. *)
Example thirdTurn_parsed :
  JSON_parse thirdTurn =
    Some (JObj [("type", JStr "assistant"); ("requestId", JStr "req_3");
                ("message",
                 JObj [("id", JStr "msg_3"); ("model", JStr "claude-sonnet");
                       ("usage",
                        JObj [("input_tokens", JNum 12); ("output_tokens", JNum 22);
                              ("cache_creation_input_tokens", JNum 200);
                              ("cache_read_input_tokens", JNum 5000)])])]) /\
  JSON_parse userTurn =
    Some (JObj [("type", JStr "user");
                ("message", JObj [("role", JStr "user"); ("content", JStr "thanks")])]) /\
  JSON_parse tornLine = None /\
  JSON_parse "   " = None.
Proof. repeat split; vm_compute; reflexivity. Qed.

(** Scenario C, on the revised loader. *)
Example scenario_no_project_directory :
  projectDirName loader = Some "-home-u-proj" /\
  getCurrentSessionUsage loader diskWithoutProject now =
    (inactive,
     [OpStat ["home"; "u"; ".config"; "claude"; "projects"];
      OpStat root;
      OpStat (root ++ ["-home-u-proj"])]).
Proof. split; vm_compute; reflexivity. Qed.

(** C1, at the input where the older copy of the loader fails.  The
    workspace is [/home/u/proj], its directory [-home-u-proj] does not exist
    under the root, and another project has a recent session: the copy at
    [src/claudeDataLoader.js] falls back to the root, reads the other
    project's log and reports its 9000 tokens as the active session. *)
Theorem legacy_falls_back_to_root :
  projectDirName loader = Some "-home-u-proj" /\
  result (findClaudeDataDirectory loader diskWithoutProject) = Some root /\
  Fs.lookup diskWithoutProject (root ++ ["-home-u-proj"]) = None /\
  result (Legacy.getCurrentSessionUsage loader diskWithoutProject now) =
    {| session :=
         {| totalTokens := 9000; inputTokens := 0; outputTokens := 0;
            cacheCreationTokens := 60; cacheReadTokens := 9000;
            messageCount := 1 |};
       isActive := true |} /\
  filesRead (Legacy.getCurrentSessionUsage loader diskWithoutProject now) = [otherPath] /\
  directoriesListed (Legacy.getCurrentSessionUsage loader diskWithoutProject now) =
    [root; root ++ ["-home-u-other"]].
Proof. repeat split; vm_compute; reflexivity. Qed.

(** The revised loader at the same input. *)
Lemma missing_project_directory_example :
  result (getCurrentSessionUsage loader diskWithoutProject now) = inactive /\
  filesRead (getCurrentSessionUsage loader diskWithoutProject now) = [] /\
  directoriesListed (getCurrentSessionUsage loader diskWithoutProject now) = [].
Proof.
  apply (SnapshotFacts.getCurrentSessionUsage_missing_project_directory
           loader diskWithoutProject now "-home-u-proj").
  - reflexivity.
  - reflexivity.
  - intros dir Hdir. vm_compute in Hdir. injection Hdir as <-. reflexivity.
Defined.

(** C5 on a file with a torn line, a synthetic message and a blank line
    among the valid ones. *)
Lemma valid_subset_example :
  let lines := [firstTurn; tornLine; syntheticTurn; "   "; secondTurn; "not json"; thirdTurn] in
  let fs := diskWith (now - 60000) (Str.unlines lines) in
  result (parseJsonlFile fs mainPath) = omap validRecord lines /\
  omap validRecord lines =
    omap JSON_parse [firstTurn; secondTurn; thirdTurn] /\
  length (result (parseJsonlFile fs mainPath)) = 3%nat.
Proof.
  cbn zeta.
  pose proof
    (ParseFacts.parseJsonlFile_valid_subset
       (diskWith (now - 60000)
          (Str.unlines
             [firstTurn; tornLine; syntheticTurn; "   "; secondTurn; "not json"; thirdTurn]))
       mainPath (now - 60000)
       [firstTurn; tornLine; syntheticTurn; "   "; secondTurn; "not json"; thirdTurn]
       eq_refl) as Hvalid.
  assert (Hlines :
    Forall (fun l => Str.contains Str.newline l = false)
      [firstTurn; tornLine; syntheticTurn; "   "; secondTurn; "not json"; thirdTurn])
    by (repeat constructor).
  destruct (Hvalid Hlines) as [Hresult _].
  split; [exact Hresult |]. split; [vm_compute; reflexivity |].
  rewrite Hresult. vm_compute. reflexivity.
Defined.

(** The first event of the example read twice, as when a file is read
    again, counts once. *)
Lemma each_key_once_example :
  let first := default JNull (JSON_parse firstTurn) in
  let second := default JNull (JSON_parse secondTurn) in
  Forall (fun record => isValidUsageRecord record = true) [first; second] /\
  aggregate [first; second; first] = aggregate [first; second] /\
  usage (aggregate [first; second; first]) =
    {| totalTokens := 4312; inputTokens := 21; outputTokens := 41;
       cacheCreationTokens := 250; cacheReadTokens := 4000; messageCount := 2 |}.
Proof.
  cbn zeta.
  assert (Hvalid :
    Forall (fun record => isValidUsageRecord record = true)
      [default JNull (JSON_parse firstTurn); default JNull (JSON_parse secondTurn)])
    by (repeat constructor).
  split; [exact Hvalid |].
  destruct (DedupFacts.aggregate_counts_each_key_once _ Hvalid)
    as (_ & _ & Hduplicate & _).
  split.
  - apply (Hduplicate [] _ [default JNull (JSON_parse secondTurn)] _ []); reflexivity.
  - vm_compute. reflexivity.
Defined.

(** C3 on the example: the agent file is the most recently modified
    one, and the main session file is the one read. *)
Lemma main_session_only_example :
  In mainPath (filesRead (getCurrentSessionUsage loader disk now)) /\
  In agentPath (result (findJsonlFiles disk (root ++ ["-home-u-proj"]))) /\
  (exists agent main,
     Fs.lookup disk agentPath = Some agent /\ Fs.lookup disk mainPath = Some main /\
     Fs.mtime main < Fs.mtime agent) /\
  filesRead (getCurrentSessionUsage loader disk now) = [mainPath] /\
  uuidPattern (Fs.basename mainPath) = true.
Proof.
  assert (Hread : In mainPath (filesRead (getCurrentSessionUsage loader disk now)))
    by (vm_compute; left; reflexivity).
  destruct (SnapshotFacts.getCurrentSessionUsage_main_session_only
              loader disk now mainPath Hread)
    as (dataDir & _ & Hone & _ & _ & Huuid & _).
  split; [exact Hread |].
  split; [vm_compute; tauto |].
  split; [eexists; eexists; repeat split; vm_compute; reflexivity |].
  split; [exact Hone | exact Huuid].
Defined.

(** C2 on the example: three lines follow the last qualifying one. *)
Lemma last_qualifying_line_example :
  In mainPath (filesRead (getCurrentSessionUsage loader disk now)) /\
  Qualifies thirdTurn 200 5000 /\
  Forall (fun l => ~ exists a b, Qualifies l a b) [userTurn; coldTurn; tornLine] /\
  result (getCurrentSessionUsage loader disk now) =
    {| session :=
         {| totalTokens := 5000; inputTokens := 0; outputTokens := 0;
            cacheCreationTokens := 200; cacheReadTokens := 5000;
            messageCount := 6 |};
       isActive := true |}.
Proof.
  assert (Hread : In mainPath (filesRead (getCurrentSessionUsage loader disk now)))
    by (vm_compute; left; reflexivity).
  assert (Hq : Qualifies thirdTurn 200 5000)
    by (apply SessionFacts.cacheOfLine_qualifies; vm_compute; reflexivity).
  assert (Hafter :
    Forall (fun l => ~ exists a b, Qualifies l a b) [userTurn; coldTurn; tornLine])
    by (repeat constructor; apply SessionFacts.cacheOfLine_none; vm_compute; reflexivity).
  split; [exact Hread |]. split; [exact Hq |]. split; [exact Hafter |].
  destruct (SnapshotFacts.getCurrentSessionUsage_last_qualifying_line
              loader disk now mainPath (now - 60000) (Str.unlines sessionLines)
              Hread eq_refl) as [Hfound _].
  apply (Hfound [firstTurn; secondTurn] thirdTurn [userTurn; coldTurn; tornLine] 200 5000);
    [vm_compute; reflexivity | exact Hq | exact Hafter].
Defined.

(** C2 as worded does not hold: the same last qualifying line with one
    more line after it gives another result, for [messageCount] counts the
    lines of the file. *)
Lemma trailing_line_changes_the_result :
  let short := diskWith (now - 60000) (Str.unlines [thirdTurn]) in
  let long := diskWith (now - 60000) (Str.unlines [thirdTurn; userTurn]) in
  Qualifies thirdTurn 200 5000 /\
  ~ (exists a b, Qualifies userTurn a b) /\
  filesRead (getCurrentSessionUsage loader short now) = [mainPath] /\
  filesRead (getCurrentSessionUsage loader long now) = [mainPath] /\
  messageCount (session (result (getCurrentSessionUsage loader short now))) = 1%nat /\
  messageCount (session (result (getCurrentSessionUsage loader long now))) = 2%nat /\
  result (getCurrentSessionUsage loader short now) <>
  result (getCurrentSessionUsage loader long now).
Proof.
  cbn zeta.
  split; [apply SessionFacts.cacheOfLine_qualifies; vm_compute; reflexivity |].
  split; [apply SessionFacts.cacheOfLine_none; vm_compute; reflexivity |].
  repeat split; try (vm_compute; reflexivity).
  vm_compute. discriminate.
Qed.

End Scenarios.
(** ** The further properties on the examples *)

Module Walkthrough.
Import Example ExampleWorld.

(** The search for the root on the example disk: the first candidate is
    missing, the second is the root; the log files below the root are the
    three of the two projects, and the notes are not among them. *)
Example root_and_log_files :
  findClaudeDataDirectory loader disk =
    (Some root, [OpStat ["home"; "u"; ".config"; "claude"; "projects"]; OpStat root]) /\
  result (findJsonlFiles disk root) = [otherPath; mainPath; agentPath] /\
  directoriesListed (findJsonlFiles disk root) =
    [root; root ++ ["-home-u-other"]; root ++ ["-home-u-proj"]] /\
  result (getProjectDataDirectory loader disk) = Some (root ++ ["-home-u-proj"]) /\
  convertPathToClaudeDir "/home/u/my/proj" = convertPathToClaudeDir "/home/u/my-proj".
Proof. repeat split; vm_compute; reflexivity. Qed.

(** The totals over the root count the records of every project. *)
Example totals_over_the_root :
  usage (result (loadUsageRecords loader disk None)) =
    {| totalTokens := 19411; inputTokens := 42; outputTokens := 75;
       cacheCreationTokens := 517; cacheReadTokens := 18777; messageCount := 6 |} /\
  filesRead (loadUsageRecords loader disk None) = [otherPath; mainPath; agentPath].
Proof. split; vm_compute; reflexivity. Qed.

(** X13 on the example: a window that has just opened, with no session
    file, sees the active session of the example disk. *)
Lemma shows_snapshot_example :
  let monitor :=
    Extension.updateTokensFromJsonl loader disk now
      "2025-12-05T10:20:00.000Z" "2025-12-05T10:20:01.000Z" Tracker.newProcess in
  TrackerNotions.currentIsAlive Tracker.newProcess /\
  (Tracker.tokenUsage <$> (result monitor).1) =
    Some {| Tracker.current := 5000; Tracker.limit := 200000;
            Tracker.remaining := 195000;
            Tracker.lastUpdate := "2025-12-05T10:20:01.000Z" |} /\
  (TrackerNotions.identity <$> Tracker.sessionsOf (Tracker.file (result monitor).2)) =
    [("session-2025-12-05-001", "2025-12-05T10:20:00.000Z",
      "Claude Code session (auto-created)")].
Proof.
  cbn zeta. split; [exact I |].
  destruct (ExtensionFacts.updateTokensFromJsonl_shows_snapshot loader disk now
              "2025-12-05T10:20:00.000Z" "2025-12-05T10:20:01.000Z" Tracker.newProcess I)
    as [Hactive _].
  cbn zeta in Hactive.
  destruct (Hactive ltac:(vm_compute; reflexivity) ltac:(vm_compute; reflexivity))
    as ((s & Hshown & Husage) & Hfile & _).
  split.
  - rewrite Hshown. cbn [fmap option_fmap option_map]. rewrite Husage.
    vm_compute. reflexivity.
  - rewrite Hfile. vm_compute. reflexivity.
Defined.

(** X17 on the example: the stale cookie ends the wait at the first
    poll, and the validation of the same page calls it expired. *)
Lemma accepts_expired_cookie_example :
  result (Auth.waitForLogin 300000 [firstPoll]) = Some true /\
  trace (Auth.waitForLogin 300000 [firstPoll]) = [Auth.OpCookies Auth.BASE] /\
  result (Auth.validateSession {| Auth.page := Some loginPage |} now) =
    {| Auth.valid := false; Auth.reason := "cookie_expired" |} /\
  trace (Auth.validateSession {| Auth.page := Some loginPage |} now) =
    [Auth.OpCookies Auth.BASE].
Proof.
  apply (LoginFacts.waitForLogin_accepts_expired_cookie 300000 now firstPoll [] loginPage
           "https://claude.ai/login" [otherCookie; staleCookie] staleCookie).
  - reflexivity.
  - reflexivity.
  - reflexivity.
  - reflexivity.
  - vm_compute. reflexivity.
  - reflexivity.
  - vm_compute. discriminate.
Defined.

(** X19 on the example: a reset 2 hours, 37 minutes and 30 seconds away
    is written [2h 37m]; read back at once it gives the reset time less
    the 30 seconds, shown as [12:57], and read back five minutes later it
    gives a time five minutes later.  A reset nearly five days away is
    shown with its day. *)
Lemma reads_back_example :
  Scraper.calculateResetTime (Some "2025-12-05T12:57:30.000Z") now = "2h 37m" /\
  Utils.totalMinutes "2h 37m" = 157 /\
  Utils.resetDate "2h 37m" now = 1764939450000 - 30000 /\
  Utils.resetDate "2h 37m" (now + 300000) = 1764939450000 - 30000 + 300000 /\
  Utils.calculateResetClockTime (Some "2h 37m") now = "12:57" /\
  Scraper.calculateResetTime (Some "2025-12-10T07:20:00.000Z") now = "4d 21h" /\
  Utils.calculateResetClockTime (Some "4d 21h") now = "Wed 10 07:20".
Proof.
  destruct (ResetTimeFacts.calculateResetClockTime_reads_back
              "2025-12-05T12:57:30.000Z" 1764939450000 now now
              ltac:(discriminate) eq_refl) as (_ & Hfuture & Hshown).
  cbn zeta in Hfuture, Hshown.
  destruct (Hfuture ltac:(vm_compute; reflexivity)) as (Hminutes & _).
  assert (Htext :
    Scraper.calculateResetTime (Some "2025-12-05T12:57:30.000Z") now = "2h 37m")
    by (vm_compute; reflexivity).
  rewrite Htext in Hminutes, Hshown |- *.
  split; [reflexivity |]. split; [rewrite Hminutes; vm_compute; reflexivity |].
  unfold Utils.resetDate. rewrite Hminutes.
  split; [vm_compute; reflexivity |]. split; [vm_compute; reflexivity |].
  split; [rewrite Hshown; vm_compute; reflexivity |].
  split; vm_compute; reflexivity.
Defined.

(** The session file after a day of work: three sessions started, tokens
    updated in between, the extension restarted twice. *)
Example sessions_are_numbered :
  let calls :=
    [Tracker.CallStartSession "morning" "2025-12-05T08:00:00.000Z";
     Tracker.CallUpdateTokens 1200 None "2025-12-05T08:30:00.000Z";
     Tracker.CallRestart;
     Tracker.CallUpdateTokens 4000 (Some 200000) "2025-12-05T09:00:00.000Z";
     Tracker.CallStartSession "noon" "2025-12-05T12:00:00.000Z";
     Tracker.CallGetCurrentSession;
     Tracker.CallRestart;
     Tracker.CallStartSession "night" "2025-12-06T01:00:00.000Z"] in
  (TrackerNotions.identity <$>
     Tracker.sessionsOf (Tracker.file (Tracker.run calls Tracker.newProcess))) =
    [("session-2025-12-05-001", "2025-12-05T08:00:00.000Z", "morning");
     ("session-2025-12-05-002", "2025-12-05T12:00:00.000Z", "noon");
     ("session-2025-12-06-003", "2025-12-06T01:00:00.000Z", "night")] /\
  ((fun s => Tracker.current (Tracker.tokenUsage s)) <$>
     Tracker.sessionsOf (Tracker.file (Tracker.run calls Tracker.newProcess))) =
    [4000; 0; 0].
Proof. split; vm_compute; reflexivity. Qed.

(** A cycle in which the user never logs in: the error handed back is the
    one about the internet connection, the browser is closed, and the
    history is not written. *)
Example login_timeout_cycle :
  let world :=
    {| DataProvider.initialize := Scraper.Returns;
       DataProvider.browser := idleBrowser;
       DataProvider.fetchUsageData := inl {| DataProvider.usagePercent := 42 |};
       DataProvider.close := Scraper.Returns |} in
  let this := {| DataProvider.usageData := Some {| DataProvider.usagePercent := 17 |};
                 DataProvider.historyFile := None |} in
  DataProvider.fetchUsage world "2025-12-05T10:20:00.000Z" this =
    ((this, DataProvider.Resolves (Some Scraper.FAILED_TO_LOAD)),
     [DataProvider.OpInitialize; DataProvider.OpEnsureLoggedIn; DataProvider.OpClose;
      DataProvider.OpRefresh]).
Proof. reflexivity. Qed.

End Walkthrough.
